(** * Pireader: the ingestion, caching and pagination pipeline

    A shallow embedding of [book.py], [bookmarks.py] and the parts of
    [main.py] that drive them, followed by the properties of the
    specification that were checked against it.

    Conventions of the model.
    - A Python [str] is a list of characters; characters are the code
      points U+0000..U+00FF (type [ascii]), so every statement below
      quantifies over the texts of that range.
    - A Python [int] is a [Z]; [len] is [Z.of_nat (length _)].
    - A Python [float] that is only compared or truncated is a rational [Q].
    - A [for] loop over a list is [fold_left] of its body; a loop with
      [break] is a recursive function that returns at the [break].
    - [list.append] is [_ ++ [x]].
    - An exception that the source lets escape is [None]. *)

From Stdlib Require Import QArith Ascii String.
From stdpp Require Import gmap strings list fin_maps pretty.

Local Open Scope Z_scope.
#[local] Set Warnings "-clear-no-such-hyp".
#[local] Set Warnings "-notation-for-abbreviation".

(** ** Python strings *)

Abbreviation str := (list ascii).

(** A literal. *)
Definition txt (s : string) : str := list_ascii_of_string s.

Definition chr (n : N) : ascii := ascii_of_N n.
Definition ord (c : ascii) : N := N_of_ascii c.

Definition NL : ascii := chr 10.
Definition SP : ascii := chr 32.

(** [str.isspace] on one character: the Unicode white space below U+0100,
    which is also what [str.split()], [str.strip()] and the regular
    expression class [\s] use. *)
Definition is_space (c : ascii) : bool :=
  let n := ord c in
  ((9 <=? n) && (n <=? 13) || (28 <=? n) && (n <=? 32)
   || (n =? 133) || (n =? 160))%N.

(** Truth value of a string or a list: it is not empty. *)
Definition truthy {A} (l : list A) : bool :=
  match l with [] => false | _ => true end.

Definition str_eqb (a b : str) : bool := bool_decide (a = b).

Fixpoint lstrip (s : str) : str :=
  match s with
  | [] => []
  | c :: t => if is_space c then lstrip t else s
  end.

Fixpoint rstrip (s : str) : str :=
  match s with
  | [] => []
  | c :: t =>
      match rstrip t with
      | [] => if is_space c then [] else [c]
      | t' => c :: t'
      end
  end.

(** [s.strip()] *)
Definition strip (s : str) : str := rstrip (lstrip s).

(** [s.split()]: the maximal runs of characters that are not white space. *)
Fixpoint split_ws (s : str) : list str :=
  match s with
  | [] => []
  | c :: t =>
      if is_space c then split_ws t
      else match t with
           | [] => [[c]]
           | d :: _ =>
               if is_space d then [c] :: split_ws t
               else match split_ws t with
                    | w :: ws => (c :: w) :: ws
                    | [] => [[c]]
                    end
           end
  end.

(** [s.split(sep)] for a one-character separator: never an empty list. *)
Fixpoint split_on (sep : ascii) (s : str) : list str :=
  match s with
  | [] => [[]]
  | c :: t =>
      if bool_decide (c = sep) then [] :: split_on sep t
      else match split_on sep t with
           | p :: ps => (c :: p) :: ps
           | [] => [[c]]
           end
  end.

(** [sep.join(parts)] *)
Fixpoint join (sep : str) (parts : list str) : str :=
  match parts with
  | [] => []
  | [p] => p
  | p :: ps => p ++ sep ++ join sep ps
  end.

(** ** Fonts ([PIL.ImageFont]), as far as the paginator uses them *)

Record font := {
  getbbox : str -> Z * Z * Z * Z;   (* (left, top, right, bottom) *)
  getlength : str -> Q
}.

(** ** [config.py] *)

Definition DISPLAY_WIDTH : Z := 300.
Definition DISPLAY_HEIGHT : Z := 400.
Definition DISPLAY_MARGIN : Z := 4.

(** ** [book.py]: pagination *)

Abbreviation page := (list str).

Definition line_height (f : font) : Z :=
  let '(_, _, _, bottom) := getbbox f (txt "Hg") in bottom + 1.

(** [int(usable_height / line_height)] with
    [usable_height = H - 2*margin - line_height*1.5]: the quotient of
    [(2*H - 4*margin - 3*line_height) / 2] by [line_height], truncated
    towards zero; a zero [line_height] raises [ZeroDivisionError]. The
    floating-point quotient truncates to the same integer as the exact
    one as long as the dimensions stay far below 2^26, as those of a
    display do. *)
Definition max_lines_per_page (f : font) (H margin : Z) : option Z :=
  let lh := line_height f in
  if lh =? 0 then None
  else Some (Z.quot (2 * H - 4 * margin - 3 * lh) (2 * lh)).

(** [line_width <= (W - 2 * margin)] *)
Definition fits (f : font) (W margin : Z) (line : str) : bool :=
  Qle_bool (getlength f line) (inject_Z (W - 2 * margin)).

(** [f"{current_line} {word}".strip() if current_line else word] *)
Definition test_line (current_line word : str) : str :=
  if truthy current_line then strip (current_line ++ [SP] ++ word) else word.

(** [all_lines and all_lines[-1] != ""] *)
Definition last_not_blank (all_lines : list str) : bool :=
  match last all_lines with
  | Some l => negb (str_eqb l [])
  | None => false
  end.

(** Body of the loop over the words of a paragraph in [paginate_full];
    the state is [(all_lines, current_line)]. *)
Definition pack_word (f : font) (W margin : Z)
    (st : list str * str) (word : str) : list str * str :=
  let '(all_lines, current_line) := st in
  let tl := test_line current_line word in
  if fits f W margin tl then (all_lines, tl)
  else ((if truthy current_line then all_lines ++ [current_line]
         else all_lines), word).

(** Body of the loop over the paragraphs in [paginate_full]. *)
Definition layout_para (f : font) (W margin : Z)
    (all_lines : list str) (para : str) : list str :=
  let para := strip para in
  if negb (truthy para) then
    (if last_not_blank all_lines then all_lines ++ [[]] else all_lines)
  else
    let '(all_lines, current_line) :=
      fold_left (pack_word f W margin) (split_ws para) (all_lines, []) in
    if truthy current_line then all_lines ++ [current_line] else all_lines.

(** Body of the loop that groups lines into pages (both paginators); the
    state is [(pages, current_page_lines)]. *)
Definition split_step (maxl : Z) (st : list page * page) (line : str)
    : list page * page :=
  let '(pages, cur) := st in
  if maxl <=? Z.of_nat (length cur) then
    let '(pages, cur) :=
      if truthy cur then (pages ++ [cur], []) else (pages, cur) in
    if str_eqb line [] then (pages, cur) else (pages, cur ++ [line])
  else (pages, cur ++ [line]).

Definition split_pages (maxl : Z) (all_lines : list str) : list page :=
  let '(pages, cur) := fold_left (split_step maxl) all_lines ([], []) in
  if truthy cur then pages ++ [cur] else pages.

(** [while page and page[-1] == "": page.pop()] *)
Fixpoint pop_blank (p : page) : page :=
  match p with
  | [] => []
  | l :: t =>
      match pop_blank t with
      | [] => if str_eqb l [] then [] else [l]
      | t' => l :: t'
      end
  end.

(** The "Clean up" loop of [paginate_full]. *)
Definition clean_pages (pages : list page) : list page :=
  filter (fun p => truthy p = true) (map pop_blank pages).

Definition full_lines (f : font) (W margin : Z) (text : str) : list str :=
  fold_left (layout_para f W margin) (split_on NL text) [].

Definition paginate_full (text : str) (f : font) (W H margin : Z)
    : option (list page) :=
  match max_lines_per_page f H margin with
  | None => None
  | Some maxl => Some (clean_pages (split_pages maxl (full_lines f W margin text)))
  end.

(** The loop over the words of a paragraph in [paginate_initial]; it
    returns [(all_lines, lines_collected, current_line)]. *)
Fixpoint initial_words (f : font) (W margin max_initial_lines : Z)
    (words : list str) (all_lines : list str) (lines_collected : Z)
    (current_line : str) : list str * Z * str :=
  match words with
  | [] => (all_lines, lines_collected, current_line)
  | word :: rest =>
      if max_initial_lines <=? lines_collected then
        (all_lines, lines_collected, current_line)            (* break *)
      else
        let tl := test_line current_line word in
        if fits f W margin tl then
          initial_words f W margin max_initial_lines rest
            all_lines lines_collected tl
        else if truthy current_line then
          initial_words f W margin max_initial_lines rest
            (all_lines ++ [current_line]) (lines_collected + 1) word
        else
          initial_words f W margin max_initial_lines rest
            all_lines lines_collected word
  end.

(** The loop over the paragraphs in [paginate_initial]. *)
Fixpoint initial_paras (f : font) (W margin max_initial_lines : Z)
    (paragraphs : list str) (all_lines : list str) (lines_collected : Z)
    : list str :=
  match paragraphs with
  | [] => all_lines
  | para :: rest =>
      if max_initial_lines <=? lines_collected then all_lines   (* break *)
      else
        let para := strip para in
        if negb (truthy para) then
          if last_not_blank all_lines then
            initial_paras f W margin max_initial_lines rest
              (all_lines ++ [[]]) (lines_collected + 1)
          else
            initial_paras f W margin max_initial_lines rest
              all_lines lines_collected
        else
          let '(all_lines, lines_collected, current_line) :=
            initial_words f W margin max_initial_lines (split_ws para)
              all_lines lines_collected [] in
          if truthy current_line && (lines_collected <? max_initial_lines) then
            initial_paras f W margin max_initial_lines rest
              (all_lines ++ [current_line]) (lines_collected + 1)
          else
            initial_paras f W margin max_initial_lines rest
              all_lines lines_collected
  end.

Definition placeholder_pages : list page := [[txt "Loading..."]].

Definition paginate_initial (text : str) (f : font) (W H margin : Z)
    : option (list page) :=
  match max_lines_per_page f H margin with
  | None => None
  | Some maxl =>
      let max_initial_lines := maxl * 50 in
      let all_lines :=
        initial_paras f W margin max_initial_lines (split_on NL text) [] 0 in
      let pages := split_pages maxl all_lines in
      Some (if truthy pages then pages else placeholder_pages)
  end.

(** ** [hashlib.md5] (RFC 1321) on the UTF-8 encoding of a string *)

Module MD5.

Definition mask32 (x : Z) : Z := x mod 2 ^ 32.

Definition rotl (x n : Z) : Z :=
  mask32 (Z.lor (Z.shiftl x n) (Z.shiftr (mask32 x) (32 - n))).

Definition lnot32 (x : Z) : Z := Z.lxor x (2 ^ 32 - 1).

Definition shifts : list Z :=
  [7; 12; 17; 22; 7; 12; 17; 22; 7; 12; 17; 22; 7; 12; 17; 22;
   5; 9; 14; 20; 5; 9; 14; 20; 5; 9; 14; 20; 5; 9; 14; 20;
   4; 11; 16; 23; 4; 11; 16; 23; 4; 11; 16; 23; 4; 11; 16; 23;
   6; 10; 15; 21; 6; 10; 15; 21; 6; 10; 15; 21; 6; 10; 15; 21].

(** [floor (2^32 * abs (sin (i + 1)))] for [i] from 0 to 63. *)
Definition sines : list Z :=
  [3614090360; 3905402710; 606105819; 3250441966;
   4118548399; 1200080426; 2821735955; 4249261313;
   1770035416; 2336552879; 4294925233; 2304563134;
   1804603682; 4254626195; 2792965006; 1236535329;
   4129170786; 3225465664; 643717713; 3921069994;
   3593408605; 38016083; 3634488961; 3889429448;
   568446438; 3275163606; 4107603335; 1163531501;
   2850285829; 4243563512; 1735328473; 2368359562;
   4294588738; 2272392833; 1839030562; 4259657740;
   2763975236; 1272893353; 4139469664; 3200236656;
   681279174; 3936430074; 3572445317; 76029189;
   3654602809; 3873151461; 530742520; 3299628645;
   4096336452; 1126891415; 2878612391; 4237533241;
   1700485571; 2399980690; 4293915773; 2240044497;
   1873313359; 4264355552; 2734768916; 1309151649;
   4149444226; 3174756917; 718787259; 3951481745].

(** Message padding: a 1 bit, zeros up to 56 modulo 64 bytes, then the
    bit length as a 64-bit little-endian number. *)
Definition le_bytes (n : nat) (x : Z) : list Z :=
  map (fun i => Z.shiftr x (8 * Z.of_nat i) mod 256) (seq 0 n).

Definition pad (msg : list Z) : list Z :=
  let len := Z.of_nat (length msg) in
  let zeros := Z.to_nat ((55 - len) mod 64) in
  msg ++ [128] ++ repeat 0 zeros ++ le_bytes 8 (8 * len).

Fixpoint word_le (bs : list Z) : Z :=
  match bs with
  | [] => 0
  | b :: t => b + 256 * word_le t
  end.

(** The sixteen 32-bit words of a 64-byte block. *)
Definition block_words (block : list Z) : list Z :=
  map (fun i => word_le (take 4 (drop (4 * i) block))) (seq 0 16).

Definition round (M : list Z) (st : Z * Z * Z * Z) (i : nat)
    : Z * Z * Z * Z :=
  let '(A, B, C, D) := st in
  let iz := Z.of_nat i in
  let '(F, g) :=
    if iz <? 16 then (Z.lor (Z.land B C) (Z.land (lnot32 B) D), iz)
    else if iz <? 32 then
      (Z.lor (Z.land D B) (Z.land (lnot32 D) C), (5 * iz + 1) mod 16)
    else if iz <? 48 then (Z.lxor B (Z.lxor C D), (3 * iz + 5) mod 16)
    else (Z.lxor C (Z.lor B (lnot32 D)), (7 * iz) mod 16) in
  let F := mask32 (F + A + nth i sines 0 + nth (Z.to_nat g) M 0) in
  (D, mask32 (B + rotl F (nth i shifts 0)), B, C).

Definition process_block (st : Z * Z * Z * Z) (block : list Z)
    : Z * Z * Z * Z :=
  let '(a0, b0, c0, d0) := st in
  let '(A, B, C, D) := fold_left (round (block_words block)) (seq 0 64) st in
  (mask32 (a0 + A), mask32 (b0 + B), mask32 (c0 + C), mask32 (d0 + D)).

Fixpoint blocks (n : nat) (bs : list Z) : list (list Z) :=
  match n with
  | O => []
  | S n => take 64 bs :: blocks n (drop 64 bs)
  end.

Definition digest (msg : list Z) : list Z :=
  let p := pad msg in
  let '(a, b, c, d) :=
    fold_left process_block (blocks (length p / 64)%nat p)
      (1732584193, 4023233417, 2562383102, 271733878) in
  le_bytes 4 a ++ le_bytes 4 b ++ le_bytes 4 c ++ le_bytes 4 d.

Definition hex_digit (x : Z) : ascii :=
  nth (Z.to_nat x) (list_ascii_of_string "0123456789abcdef") "0"%char.

Definition hex (bs : list Z) : list ascii :=
  flat_map (fun b => [hex_digit (b / 16); hex_digit (b mod 16)]) bs.

End MD5.

(** [s.encode()]: UTF-8 of the code points below U+0100. *)
Definition encode (s : str) : list Z :=
  flat_map (fun c =>
    let n := Z.of_N (ord c) in
    if n <? 128 then [n] else [192 + n / 64; 128 + n mod 64]) s.

(** [hashlib.md5(s.encode()).hexdigest()] *)
Definition md5_hexdigest (s : str) : str := MD5.hex (MD5.digest (encode s)).


(** ** [book.py]: [clean_text] *)

(** The class [\w] below U+0100: letters, digits, numeric signs and the
    underscore. *)
Definition is_word (c : ascii) : bool :=
  let n := ord c in
  ((48 <=? n) && (n <=? 57) || (65 <=? n) && (n <=? 90) || (n =? 95)
   || (97 <=? n) && (n <=? 122) || (n =? 170) || (178 <=? n) && (n <=? 179)
   || (n =? 181) || (185 <=? n) && (n <=? 186) || (188 <=? n) && (n <=? 190)
   || (192 <=? n) && (n <=? 214) || (216 <=? n) && (n <=? 246)
   || (248 <=? n))%N.

(** The class [[tsmd]] under [re.IGNORECASE]. *)
Definition is_tsmd (c : ascii) : bool :=
  bool_decide (c ∈ txt "tsmdTSMD").

Definition APOS : ascii := chr 39.
Definition COLON : ascii := chr 58.
Definition DOT : ascii := chr 46.

(** [span p s]: the longest prefix of [s] whose characters satisfy [p], and
    what follows it. *)
Fixpoint span (p : ascii -> bool) (s : str) : str * str :=
  match s with
  | [] => ([], [])
  | c :: t =>
      if p c then let '(a, b) := span p t in (c :: a, b) else ([], s)
  end.

(** A pattern together with its replacement template: tried at the start
    of [s], it gives the text that replaces the match and the input that
    follows the match. *)
Definition matcher := str -> option (str * str).

(** [re.sub(pattern, repl, s)]: matches are found from left to right and do
    not overlap; a character at which the pattern does not match is copied.
    None of the five patterns matches the empty string, so [length s]
    steps are enough. *)
Fixpoint sub_from (m : matcher) (fuel : nat) (s : str) : str :=
  match fuel with
  | O => s
  | S fuel =>
      match s with
      | [] => []
      | c :: t =>
          match m s with
          | Some (repl, rest) => repl ++ sub_from m fuel rest
          | None => c :: sub_from m fuel t
          end
      end
  end.

Definition re_sub (m : matcher) (s : str) : str := sub_from m (length s) s.

(** [(\w)'\s+(\w)] replaced by [\1'\2]. The greedy [\s+] takes the whole
    run of white space: giving a character back would ask [\w] to match
    white space. *)
Definition apostrophe_word : matcher := fun s =>
  match s with
  | a :: q :: t =>
      if is_word a && bool_decide (q = APOS) then
        match span is_space t with
        | (_ :: _, b :: rest) =>
            if is_word b then Some ([a; APOS; b], rest) else None
        | _ => None
        end
      else None
  | _ => None
  end.

(** [(\w)'\s+([tsmd])\b], ignoring case, replaced by [\1'\2]; the final
    [\b] holds when no word character follows. *)
Definition apostrophe_suffix : matcher := fun s =>
  match s with
  | a :: q :: t =>
      if is_word a && bool_decide (q = APOS) then
        match span is_space t with
        | (_ :: _, b :: rest) =>
            if is_tsmd b && negb (match rest with
                                  | d :: _ => is_word d
                                  | [] => false
                                  end)
            then Some ([a; APOS; b], rest) else None
        | _ => None
        end
      else None
  | _ => None
  end.

(** [:\s+] replaced by [": "]. *)
Definition colon_space : matcher := fun s =>
  match s with
  | c :: t =>
      if bool_decide (c = COLON) then
        match span is_space t with
        | (_ :: _, rest) => Some ([COLON; SP], rest)
        | _ => None
        end
      else None
  | [] => None
  end.

(** [\.\s{2,}] replaced by [". "]. *)
Definition period_space : matcher := fun s =>
  match s with
  | c :: t =>
      if bool_decide (c = DOT) then
        match span is_space t with
        | (_ :: _ :: _, rest) => Some ([DOT; SP], rest)
        | _ => None
        end
      else None
  | [] => None
  end.

Definition count_nl (s : str) : nat :=
  length (filter (fun c => c = NL) s).

(** What follows the last line feed of [s] ([s] itself without one). *)
Fixpoint after_last_nl (s : str) : str :=
  match s with
  | [] => []
  | c :: t =>
      if bool_decide (NL ∈ t) then after_last_nl t
      else if bool_decide (c = NL) then t else s
  end.

(** [\n\s*\n\s*\n+] replaced by ["\n\n"]. The pattern lies within one run
    of white space that starts with a line feed and holds at least three;
    the greedy [\s*] make the match end at the last line feed of the run. *)
Definition blank_lines : matcher := fun s =>
  match s with
  | c :: t =>
      if bool_decide (c = NL) then
        let '(run, rest) := span is_space t in
        if (2 <=? count_nl run)%nat
        then Some ([NL; NL], after_last_nl run ++ rest)
        else None
      else None
  | [] => None
  end.

Definition clean_text (text : str) : str :=
  let text := re_sub apostrophe_word text in
  let text := re_sub apostrophe_suffix text in
  let text := re_sub colon_space text in
  let text := re_sub period_space text in
  let text := re_sub blank_lines text in
  text.

(** ** The document source ([ebooklib] and [BeautifulSoup]) *)

(** What the pipeline reads from one parsed content document. *)
Record doc := {
  doc_text : str;             (* [get_text(separator="\n")] *)
  doc_headings : list str     (* [.text] of the h1, h2, h3 elements, in order *)
}.

Inductive item :=
  | OtherItem                          (* [get_type() != ITEM_DOCUMENT] *)
  | Document (content : option doc).   (* [None]: decoding or parsing raises *)

Inductive toc_entry :=
  | TocLink (title : option str)       (* has a [title] attribute *)
  | TocSection.                        (* a nested tuple: no [title] *)

Record book := {
  toc : list toc_entry;
  get_items : list item
}.

(** ** [book.py]: [extract_chapters_from_epub] *)

(** Method 1: the table of contents. *)
Definition toc_step (chapters : list str) (it : toc_entry) : list str :=
  match it with
  | TocLink (Some title) =>
      if truthy title && truthy (strip title)
      then chapters ++ [strip title] else chapters
  | _ => chapters
  end.

(** Method 2: the headings of one document. *)
Definition heading_step (chapters : list str) (heading : str) : list str :=
  let heading_text := strip heading in
  if truthy heading_text && (Z.of_nat (length heading_text) <? 100)
  then chapters ++ [heading_text] else chapters.

Definition item_headings (chapters : list str) (it : item) : list str :=
  match it with
  | Document (Some d) => fold_left heading_step (doc_headings d) chapters
  | _ => chapters
  end.

(** "Clean up and deduplicate"; the state is [(seen, cleaned_chapters)]. *)
Definition dedup_step (st : gset str * list str) (chapter : str)
    : gset str * list str :=
  let '(seen, cleaned_chapters) := st in
  let clean_chapter := strip chapter in
  if truthy clean_chapter && bool_decide (clean_chapter ∉ seen)
  then ({[clean_chapter]} ∪ seen, cleaned_chapters ++ [clean_chapter])
  else st.

Definition candidate_chapters (b : book) : list str :=
  let chapters := fold_left toc_step (toc b) [] in
  if negb (truthy chapters) || (Z.of_nat (length chapters) <? 5)
  then fold_left item_headings (get_items b) chapters
  else chapters.

Definition chapters_of_book (b : book) : list str :=
  let '(_, cleaned_chapters) :=
    fold_left dedup_step (candidate_chapters b) (∅, []) in
  take 20 cleaned_chapters.

(** ** The environment of the process *)

Record stat_result := {
  st_mtime : str;    (* as the f-string prints the float *)
  st_size : Z
}.

Record world := {
  home : str;                               (* what [~] expands to *)
  os_stat : str -> option stat_result;      (* [None]: raises *)
  read_epub : str -> option book;           (* [None]: raises *)
  time_now : Q
}.

(** [os.path.expanduser] for [~] and [~/...]. *)
Definition expanduser (w : world) (p : str) : str :=
  match p with
  | t :: rest =>
      if bool_decide (t = chr 126) then
        match rest with
        | [] => home w
        | c :: _ => if bool_decide (c = chr 47) then home w ++ rest else p
        end
      else p
  | [] => p
  end.

(** [os.path.join] of a directory and a relative file name. *)
Definition path_join (dir name : str) : str :=
  if negb (truthy dir) || bool_decide (last dir = Some (chr 47))
  then dir ++ name else dir ++ [chr 47] ++ name.

Definition CACHE_DIR (w : world) : str := expanduser w (txt "~/.ebook_cache").
Definition BOOKMARK_DIR (w : world) : str := expanduser w (txt "~/.ebook_reader").

Definition extract_chapters_from_epub (w : world) (book_path : str) : list str :=
  match read_epub w book_path with
  | Some b => chapters_of_book b
  | None => []
  end.

(** ** [book.py]: the cache files *)

(** The dictionary that is pickled. *)
Record cache_data := {
  cd_text : str;
  cd_pages : list page;
  cd_chapters : list str;
  cd_partial : bool;
  cd_timestamp : Q;
  cd_book_path : str
}.

(** What a file of the cache directory holds: a complete gzip'd pickle, or
    a file on which [gzip] or [pickle] raise, such as one that was opened
    for writing and not yet written. *)
Inductive cache_blob :=
  | Pickled (d : cache_data)
  | Truncated.

(** [with gzip.open(cache_file, 'wb') as f: pickle.dump(cache_data, f)],
    in its two steps: opening truncates the file, then the data is
    written and the file closed. *)
Definition open_wb (fs : gmap str cache_blob) (cache_file : str)
    : gmap str cache_blob :=
  <[cache_file := Truncated]> fs.

Definition dump_close (fs : gmap str cache_blob) (cache_file : str)
    (d : cache_data) : gmap str cache_blob :=
  <[cache_file := Pickled d]> fs.

(** The states of the file system that a store goes through. *)
Definition store_trace (fs : gmap str cache_blob) (cache_file : str)
    (d : cache_data) : list (gmap str cache_blob) :=
  [open_wb fs cache_file; dump_close (open_wb fs cache_file) cache_file d].

(** A store that completes; [try_store] below is the store that may
    fail. *)
Definition store (fs : gmap str cache_blob) (cache_file : str)
    (d : cache_data) : gmap str cache_blob :=
  dump_close (open_wb fs cache_file) cache_file d.

(** "Try cache first": the data is returned when the file exists, loads
    and is not partial. *)
Definition cache_probe (fs : gmap str cache_blob) (cache_file : str)
    : option cache_data :=
  match fs !! cache_file with
  | Some (Pickled d) => if cd_partial d then None else Some d
  | _ => None
  end.

(** The data of a file that loads, partial or not. *)
Definition cache_probe_any (fs : gmap str cache_blob) (cache_file : str)
    : option cache_data :=
  match fs !! cache_file with
  | Some (Pickled d) => Some d
  | _ => None
  end.

Definition decimal (n : Z) : str := list_ascii_of_string (pretty n).

(** [f"{path}_{book_stat.st_mtime}_{book_stat.st_size}"] *)
Definition cache_key (path : str) (st : stat_result) : str :=
  path ++ txt "_" ++ st_mtime st ++ txt "_" ++ decimal (st_size st).

Definition hash16 (s : str) : str := take 16 (md5_hexdigest s).

Definition cache_file_name (dir hash : str) : str :=
  path_join dir (hash ++ txt ".pkl.gz").

(** ** [book.py]: the quick pass *)

Definition target_words : Z := 10000.

(** [len("\n".join(parts).split())] *)
Definition word_count (parts : list str) : Z :=
  Z.of_nat (length (split_ws (join [NL] parts))).

(** The loop over [book.get_items()] of the quick pass. *)
Fixpoint quick_items (items : list item) (parts : list str)
    (items_processed : Z) : list str :=
  match items with
  | [] => parts
  | Document (Some d) :: rest =>
      let parts := parts ++ [strip (doc_text d)] in
      let items_processed := items_processed + 1 in
      let current_words := word_count parts in
      if (target_words <=? current_words) || (30 <=? items_processed)
      then parts                                                (* break *)
      else quick_items rest parts items_processed
  | _ :: rest => quick_items rest parts items_processed
  end.

(** The loop of the background pass: no cap. *)
Definition full_step (full_parts : list str) (it : item) : list str :=
  match it with
  | Document (Some d) => full_parts ++ [strip (doc_text d)]
  | _ => full_parts
  end.

(** ** [book.py]: [extract_text_fast] and its background task *)

(** The closure [process_full] with what it captures. *)
Record job := {
  job_path : str;
  job_cache_file : str;
  job_cache_data : cache_data;
  job_font : font;
  job_chapters : list str
}.

(** A message of [processing_queue]. *)
Record completion := {
  c_book_path : str;
  c_pages : list page;
  c_chapters : list str
}.

Record opened := {
  o_text : str;
  o_pages : list page;
  o_chapters : list str;
  o_cache : gmap str cache_blob;    (* the cache directory afterwards *)
  o_job : option job                (* the background thread, if started *)
}.

(** The body of the [try] up to the first store; [None] when it raises. *)
Definition process_initial (w : world) (f : font) (path : str)
    : option (str * list page * list str) :=
  match read_epub w path with
  | None => None
  | Some b =>
      let chapters := extract_chapters_from_epub w path in
      let parts := quick_items (get_items b) [] 0 in
      let initial_text := join [NL] parts in
      let text := clean_text initial_text in
      match paginate_initial text f DISPLAY_WIDTH DISPLAY_HEIGHT DISPLAY_MARGIN with
      | None => None
      | Some pages => Some (text, pages, chapters)
      end
  end.

(** [extract_text_fast(path)] in a run in which the store of the partial
    artifact completes and the thread starts; [None] when [os.stat]
    raises. [extract_text_fast_with] below is the call with the outcomes
    of the store and of the thread start, and with the text of the
    exception in the error message. *)
Definition extract_text_fast (w : world) (f : font) (path : str)
    (fs : gmap str cache_blob) : option opened :=
  match os_stat w path with
  | None => None
  | Some book_stat =>
      let cache_dir := expanduser w (CACHE_DIR w) in
      let cache_hash := hash16 (cache_key path book_stat) in
      let cache_file := cache_file_name cache_dir cache_hash in
      match cache_probe fs cache_file with
      | Some cached_data =>
          Some {| o_text := cd_text cached_data;
                  o_pages := cd_pages cached_data;
                  o_chapters := cd_chapters cached_data;
                  o_cache := fs; o_job := None |}
      | None =>
          match process_initial w f path with
          | Some (text, pages, chapters) =>
              let data :=
                {| cd_text := text; cd_pages := pages;
                   cd_chapters := chapters; cd_partial := true;
                   cd_timestamp := time_now w; cd_book_path := path |} in
              Some {| o_text := text; o_pages := pages;
                      o_chapters := chapters;
                      o_cache := store fs cache_file data;
                      o_job := Some {| job_path := path;
                                       job_cache_file := cache_file;
                                       job_cache_data := data;
                                       job_font := f;
                                       job_chapters := chapters |} |}
          | None =>
              Some {| o_text := txt "Error loading book: ";
                      o_pages := [[txt "Error loading book"]];
                      o_chapters := [];
                      o_cache := fs; o_job := None |}
          end
      end
  end.

(** One run of the thread [process_full] (no callback is registered by
    [main.py], so the result goes to the queue) in which the store
    completes. An exception before the store ends the thread and leaves
    the cache and the queue as they were. [process_full_with] below is
    the run with the outcome of the store. *)
Definition process_full (w : world) (j : job)
    (st : gmap str cache_blob * list completion)
    : gmap str cache_blob * list completion :=
  let '(fs, queue) := st in
  match read_epub w (job_path j) with
  | None => st
  | Some full_book =>
      let full_parts := fold_left full_step (get_items full_book) [] in
      let full_text := join [NL] full_parts in
      let full_text_clean := clean_text full_text in
      match paginate_full full_text_clean (job_font j)
              DISPLAY_WIDTH DISPLAY_HEIGHT DISPLAY_MARGIN with
      | None => st
      | Some full_pages =>
          let d := job_cache_data j in
          let data :=
            {| cd_text := full_text_clean; cd_pages := full_pages;
               cd_chapters := cd_chapters d; cd_partial := false;
               cd_timestamp := cd_timestamp d;
               cd_book_path := cd_book_path d |} in
          (store fs (job_cache_file j) data,
           queue ++ [{| c_book_path := job_path j; c_pages := full_pages;
                        c_chapters := job_chapters j |}])
      end
  end.

(** [check_processing_complete]: [get_nowait] on the queue. *)
Definition check_processing_complete (queue : list completion)
    : option completion * list completion :=
  match queue with
  | [] => (None, [])
  | r :: rest => (Some r, rest)
  end.

(** ** [bookmarks.py] *)

(** What a bookmark file holds: a JSON object with the two keys that are
    read (either may be missing), or a file on which [json.load] raises. *)
Inductive bookmark_blob :=
  | BookmarkJson (book_path : option str) (page_num : option Z)
  | BookmarkBroken.

Record BookmarkManager := {
  bookmark_dir : str;
  _cache : gmap str Z
}.

Definition get_bookmark_path (self : BookmarkManager) (book_path : str) : str :=
  path_join (bookmark_dir self)
    (txt "bookmark_" ++ hash16 book_path ++ txt ".json").

(** [load_bookmark] returns the page and the manager, whose [_cache] it
    may fill. *)
Definition load_bookmark (self : BookmarkManager)
    (files : gmap str bookmark_blob) (book_path : str)
    : Z * BookmarkManager :=
  match _cache self !! book_path with
  | Some page => (page, self)
  | None =>
      match files !! get_bookmark_path self book_path with
      | Some (BookmarkJson (Some bp) (Some page)) =>
          if bool_decide (bp = book_path) then
            (page, {| bookmark_dir := bookmark_dir self;
                      _cache := <[book_path := page]> (_cache self) |})
          else (1, self)
      | _ => (1, self)
      end
  end.

(** How the write of the thread [save] ends. *)
Inductive write_outcome :=
  | WriteOk
  | OpenFails       (* [open] raises: the file is untouched *)
  | DumpFails.      (* [json.dump] raises after [open] truncated the file *)

(** The body of the thread started by [save_bookmark_async]. *)
Definition save (book_path : str) (page_num : Z) (io : write_outcome)
    (st : BookmarkManager * gmap str bookmark_blob)
    : BookmarkManager * gmap str bookmark_blob :=
  let '(self, files) := st in
  let bookmark_path := get_bookmark_path self book_path in
  match io with
  | WriteOk =>
      ({| bookmark_dir := bookmark_dir self;
          _cache := <[book_path := page_num]> (_cache self) |},
       <[bookmark_path := BookmarkJson (Some book_path) (Some page_num)]> files)
  | OpenFails => (self, files)
  | DumpFails => (self, <[bookmark_path := BookmarkBroken]> files)
  end.

(** The bookmark store with the threads that were started and have not
    run yet. *)
Record bookmarks := {
  manager : BookmarkManager;
  files : gmap str bookmark_blob;
  pending : list (str * Z)
}.

(** [save_bookmark_async] only starts the thread. *)
Definition save_bookmark_async (b : bookmarks) (book_path : str)
    (page_num : Z) : bookmarks :=
  {| manager := manager b; files := files b;
     pending := pending b ++ [(book_path, page_num)] |}.

(** The scheduler runs the [i]-th pending thread to its end. *)
Definition run_save (i : nat) (io : write_outcome) (b : bookmarks) : bookmarks :=
  match pending b !! i with
  | Some (book_path, page_num) =>
      let '(m, fl) := save book_path page_num io (manager b, files b) in
      {| manager := m; files := fl; pending := delete i (pending b) |}
  | None => b
  end.

(** [load_bookmark] on the store. *)
Definition load (b : bookmarks) (book_path : str) : Z :=
  fst (load_bookmark (manager b) (files b) book_path).

(** ** [main.py] *)

(** The book state of [CompleteEReader]. *)
Record CompleteEReader := {
  current_page : Z;
  pages : list page;
  book_path : str;
  chapters : list str
}.

(** The reader with the cache directory, the completion queue and the
    background threads that were started. *)
Record system := {
  app : CompleteEReader;
  cache : gmap str cache_blob;
  queue : list completion;
  threads : list job
}.

(** The message taken from the queue and what it does to the book state
    of [check_background_processing] (lines 117-127): the pages, the
    chapters and the page index; whether it was for the open book. *)
Definition take_completion (s : system) : system * bool :=
  let '(result, queue') := check_processing_complete (queue s) in
  match result with
  | Some r =>
      if bool_decide (c_book_path r = book_path (app s)) then
        let pages' := c_pages r in
        let len := Z.of_nat (length pages') in
        ({| app := {| current_page :=
                        (if len <=? current_page (app s) then len - 1
                         else current_page (app s));
                      pages := pages';
                      book_path := book_path (app s);
                      chapters := c_chapters r |};
            cache := cache s; queue := queue'; threads := threads s |}, true)
      else
        ({| app := app s; cache := cache s; queue := queue';
            threads := threads s |}, false)
  | None => (s, false)
  end.

(** [refresh_current_book]; [None] when [extract_text_fast] raises. *)
Definition refresh_current_book (w : world) (f : font) (s : system)
    : option system :=
  if negb (truthy (book_path (app s))) then Some s
  else
    let book_hash := hash16 (book_path (app s)) in
    let cache_file := cache_file_name (CACHE_DIR w) book_hash in
    let cache' :=
      if bool_decide (is_Some (cache s !! cache_file))
      then delete cache_file (cache s) else cache s in
    match extract_text_fast w f (book_path (app s)) cache' with
    | None => None
    | Some o =>
        Some {| app := {| current_page := 0;
                          pages := o_pages o;
                          book_path := book_path (app s);
                          chapters := o_chapters o |};
                cache := o_cache o;
                queue := queue s;
                threads := threads s ++ option_list (o_job o) |}
    end.

(** A fixed-pitch font for examples: every character is [w] wide and the
    box of any text is [h] high. *)
Definition mono_font (w h : Z) : font :=
  {| getbbox := fun s => (0, 0, w * Z.of_nat (length s), h);
     getlength := fun s => inject_Z (w * Z.of_nat (length s)) |}.

(** ** Reference definitions used in the statements *)

(** Every title kept at its first occurrence only. *)
Fixpoint first_occurrences (l : list str) : list str :=
  match l with
  | [] => []
  | x :: t => x :: filter (fun y => y ≠ x) (first_occurrences t)
  end.

(** The trimmed, non-empty candidate titles of a book, in the order in
    which [extract_chapters_from_epub] collects them. *)
Definition trimmed_titles (b : book) : list str :=
  filter (fun t => truthy t = true) (strip <$> candidate_chapters b).

(** The stripped texts of the documents that decode, in document order:
    what the background pass concatenates. *)
Definition doc_texts (items : list item) : list str :=
  fold_left full_step items [].

(** The non-blank lines of a page sequence, in reading order. *)
Definition nonblank (ls : list str) : list str :=
  filter (fun l => truthy l = true) ls.

Definition nonblank_lines (pages : list page) : list str :=
  nonblank (concat pages).

(** The words of a list of lines, line by line. *)
Definition lines_words (ls : list str) : list str :=
  concat (split_ws <$> ls).

(** The pattern of [m] has an occurrence somewhere in [s]. *)
Fixpoint has_match (m : matcher) (s : str) : bool :=
  match s with
  | [] => false
  | _ :: t => bool_decide (is_Some (m s)) || has_match m t
  end.

(** Rewriting the maximal runs of white space of a text one by one:
    [g prev run] replaces the run [run] that follows the character [prev]
    ([None] at the start of the text); [run] accumulates the run that is
    being read. *)
Fixpoint map_runs (g : option ascii -> str -> str) (prev : option ascii)
    (run : str) (s : str) : str :=
  match s with
  | [] => g prev run
  | c :: t =>
      if is_space c then map_runs g prev (run ++ [c]) t
      else g prev run ++ c :: map_runs g (Some c) [] t
  end.

(** What the rules [:\s+] and [\.\s{2,}] do to the run after [prev]. *)
Definition colon_run (prev : option ascii) (run : str) : str :=
  if bool_decide (prev = Some COLON) && truthy run then [SP] else run.

Definition period_run (prev : option ascii) (run : str) : str :=
  if bool_decide (prev = Some DOT) && (2 <=? length run)%nat then [SP] else run.

(** What the rule [\n\s*\n\s*\n+] does to a run: with three line feeds or
    more, everything from the first to the last of them becomes two. *)
Fixpoint squeeze (run : str) : str :=
  match run with
  | [] => []
  | c :: t =>
      if bool_decide (c = NL) then
        if (2 <=? count_nl t)%nat then NL :: NL :: after_last_nl t else run
      else c :: squeeze t
  end.

Definition blank_run (prev : option ascii) (run : str) : str := squeeze run.

(** The three collapsing rules together, on one run. *)
Definition collapse_run (prev : option ascii) (run : str) : str :=
  blank_run prev (period_run prev (colon_run prev run)).

(** A pattern [K\s...] that starts at the character [K], takes the whole
    run of white space after it when [cond] accepts the run, and is
    replaced by [K] and one space; and what it does to the run. *)
Definition trigger (K : ascii) (cond : str -> bool) : matcher := fun s =>
  match s with
  | c :: t =>
      if bool_decide (c = K) then
        let '(run, rest) := span is_space t in
        if cond run then Some ([K; SP], rest) else None
      else None
  | [] => None
  end.

Definition trigger_run (K : ascii) (cond : str -> bool)
    (prev : option ascii) (run : str) : str :=
  if bool_decide (prev = Some K) && cond run then [SP] else run.

(** The rules 3 to 5 of [clean_text]. *)
Definition collapse (s : str) : str :=
  re_sub blank_lines (re_sub period_space (re_sub colon_space s)).

(** ** Auxiliary predicates and example data *)


Definition sample_data (partial : bool) : cache_data :=
  {| cd_text := txt "Call me Ishmael.";
     cd_pages := [[txt "Call me Ishmael."]];
     cd_chapters := [txt "Loomings"];
     cd_partial := partial;
     cd_timestamp := 0%Q;
     cd_book_path := txt "/home/pi/books/moby.epub" |}.

Definition fresh_bookmarks : bookmarks :=
  {| manager := {| bookmark_dir := txt "/home/pi/.ebook_reader"; _cache := ∅ |};
     files := ∅;
     pending := [] |}.

Definition moby_path : str := txt "/home/pi/books/moby.epub".

Definition moby_world : world :=
  {| home := txt "/home/pi";
     os_stat := fun _ => Some {| st_mtime := txt "1700000000.5";
                                 st_size := 1048576 |};
     read_epub := fun _ =>
       Some {| toc := [TocLink (Some (txt "Loomings"))];
               get_items :=
                 [Document (Some {| doc_text := txt "Call me Ishmael.";
                                    doc_headings := [txt "Loomings"] |})] |};
     time_now := 0%Q |}.

(** A world in which every EPUB has one document and no text. *)
Definition empty_world : world :=
  {| home := txt "/home/pi";
     os_stat := fun _ => Some {| st_mtime := txt "1700000000.5";
                                 st_size := 1048576 |};
     read_epub := fun _ =>
       Some {| toc := [];
               get_items :=
                 [Document (Some {| doc_text := [NL; SP];
                                    doc_headings := [] |})] |};
     time_now := 0%Q |}.

(** The file that [extract_text_fast] reads and writes for [moby_path]. *)
Definition moby_cache_file : str :=
  txt "/home/pi/.ebook_cache/0f9119d780bce014.pkl.gz".

Definition moby_full : cache_data := sample_data false.

(** The book is open and its full artifact is cached. *)
Definition moby_open : system :=
  {| app := {| current_page := 0;
               pages := cd_pages moby_full;
               book_path := moby_path;
               chapters := cd_chapters moby_full |};
     cache := {[moby_cache_file := Pickled moby_full]};
     queue := [];
     threads := [] |}.

(** Forty one-word documents, with an image and a document that fails to
    decode among them: the quick pass takes the first thirty that decode. *)
Definition forty_docs : list item :=
  OtherItem :: Document None ::
  repeat (Document (Some {| doc_text := txt " word "; doc_headings := [] |})) 40.

(** A word: not empty and free of white space. *)
Definition is_word_token (w : str) : Prop :=
  w ≠ [] /\ Forall (fun c => is_space c = false) w.

Definition state_lines (st : list page * page) : list str :=
  concat st.1 ++ st.2.

Definition state_words (st : list str * str) : list str :=
  lines_words st.1 ++ split_ws st.2.

Definition sample_text : str :=
  txt "Call me Ishmael.  Some years ago: never mind how long precisely" ++
  [NL; NL; NL] ++ txt " having little or no money in my purse " ++ [NL].

(** What is known of a line while it is built: nothing yet, or it fits. *)
Definition line_ok (f : font) (W margin : Z) (l : str) : Prop :=
  l = [] \/ fits f W margin l = true.

Definition state_ok (f : font) (W margin : Z) (st : list str * str) : Prop :=
  Forall (line_ok f W margin) st.1 /\ line_ok f W margin st.2.

(** Scenario A: paragraphs of 40, 5 and 200 words; eight of the words and
    the spaces between them fill a line exactly. *)
Definition scenario_a : str :=
  join [SP] (repeat (txt "word") 40) ++ [NL; NL] ++
  join [SP] (repeat (txt "word") 5) ++ [NL; NL] ++
  join [SP] (repeat (txt "word") 200).

(** A match consumes at least one character. *)
Definition shrinking (m : matcher) : Prop :=
  forall s repl rest, m s = Some (repl, rest) -> (length rest < length s)%nat.

(** A text that does not start with white space. *)
Definition no_lead_space (s : str) : Prop :=
  match s with [] => True | d :: _ => is_space d = false end.

(** A run of white space. *)
Definition all_space (run : str) : Prop :=
  Forall (fun c => is_space c = true) run.

Definition untidy_text : str :=
  txt "It' s Ahab' s:   the whale.    The   end" ++ [NL; SP; NL; NL; NL]
  ++ txt "finis 'quoted' x" ++ [NL; NL].

(** A replacement is never longer than what it replaces. *)
Definition nonexpanding (m : matcher) : Prop :=
  forall s repl rest, m s = Some (repl, rest) ->
    (length repl + length rest <= length s)%nat.

Definition contracting (m : matcher) : Prop :=
  forall s repl rest, m s = Some (repl, rest) ->
    (length repl + length rest < length s)%nat.

(** ** Further reference definitions *)

(** No two blank lines in a row. *)
Fixpoint no_double_blank (ls : list str) : Prop :=
  match ls with
  | l1 :: rest =>
      match rest with
      | l2 :: _ => ~ (l1 = [] /\ l2 = [])
      | [] => True
      end /\ no_double_blank rest
  | [] => True
  end.

(** A line list that does not start with a blank line and has no two
    blank lines in a row. *)
Definition tidy (ls : list str) : Prop :=
  head ls ≠ Some [] /\ no_double_blank ls.

(** The lines that [paginate_initial] collects before it groups them into
    pages ([all_lines] after its first loop). *)
Definition initial_lines (f : font) (W margin maxl : Z) (text : str)
    : list str :=
  initial_paras f W margin (maxl * 50) (split_on NL text) [] 0.

(** A page of at most [maxl] lines, or of one line when [maxl] is not
    positive. *)
Definition page_fits (maxl : Z) (pg : page) : Prop :=
  Z.of_nat (length pg) <= Z.max 1 maxl.

(** The text starts with a character that is not white space. *)
Definition starts_word (s : str) : bool :=
  match s with
  | c :: _ => negb (is_space c)
  | [] => false
  end.


(** The cache file of [extract_text_fast] for a path and its [os.stat]
    ([cache_file], lines 90-96). *)
Definition cache_file_of (w : world) (path : str) (st : stat_result) : str :=
  cache_file_name (expanduser w (CACHE_DIR w)) (hash16 (cache_key path st)).

(** ** [display.py] *)

Definition FULL_REFRESH_INTERVAL : Z := 100.

(** The calls made on the panel driver ([self.epd]). *)
Inductive epd_call := EpdInit | EpdClear | EpdDisplay | EpdDisplayPartial.

(** The refresh state of [EReaderDisplay]. *)
Record EReaderDisplay := {
  use_partial : bool;
  needs_clear : bool;
  page_counter : Z;
  full_refresh_interval : Z;
  _display_initialized : bool
}.

(** [__init__] *)
Definition new_display : EReaderDisplay :=
  {| use_partial := true; needs_clear := false; page_counter := 0;
     full_refresh_interval := FULL_REFRESH_INTERVAL;
     _display_initialized := false |}.

(** [init_display]: the panel is initialised once. *)
Definition init_display (self : EReaderDisplay)
    : EReaderDisplay * list epd_call :=
  if _display_initialized self then (self, [])
  else ({| use_partial := use_partial self; needs_clear := needs_clear self;
           page_counter := page_counter self;
           full_refresh_interval := full_refresh_interval self;
           _display_initialized := true |}, [EpdInit]).

Definition clear_display (self : EReaderDisplay)
    : EReaderDisplay * list epd_call :=
  ({| use_partial := use_partial self; needs_clear := false;
      page_counter := 0;
      full_refresh_interval := full_refresh_interval self;
      _display_initialized := _display_initialized self |},
   [EpdInit; EpdClear]).

Definition check_full_refresh_needed (self : EReaderDisplay)
    : EReaderDisplay * bool :=
  let counter := page_counter self + 1 in
  if full_refresh_interval self <=? counter then
    ({| use_partial := use_partial self; needs_clear := needs_clear self;
        page_counter := 0;
        full_refresh_interval := full_refresh_interval self;
        _display_initialized := _display_initialized self |}, true)
  else
    ({| use_partial := use_partial self; needs_clear := needs_clear self;
        page_counter := counter;
        full_refresh_interval := full_refresh_interval self;
        _display_initialized := _display_initialized self |}, false).

(** [display_page(img, force_full)]: the display afterwards, the calls
    made on the panel and the value returned. [partial_ok] tells whether
    [epd.display_Partial] returns; when it raises, the [except] falls back
    to [epd.display]. *)
Definition display_page (self : EReaderDisplay) (force_full partial_ok : bool)
    : EReaderDisplay * list epd_call * bool :=
  let '(self1, periodic_full) := check_full_refresh_needed self in
  let needs_full := needs_clear self1 || force_full || periodic_full in
  if needs_full then
    let '(self2, calls) := clear_display self1 in
    (self2, calls ++ [EpdDisplay], false)
  else if use_partial self1 then
    if partial_ok then (self1, [EpdDisplayPartial], true)
    else (self1, [EpdDisplayPartial; EpdDisplay], false)
  else (self1, [EpdDisplay], false).

(** [bbox[3]] of ["Hg"] *)
Definition font_height (f : font) : Z :=
  let '(_, _, _, bottom) := getbbox f (txt "Hg") in bottom.

(** [l[i]] of Python: a negative index counts from the end, an index out
    of range raises [IndexError]. *)
Definition py_index {A} (l : list A) (i : Z) : option A :=
  if 0 <=? i then l !! Z.to_nat i
  else if - Z.of_nat (length l) <=? i
       then l !! Z.to_nat (Z.of_nat (length l) + i)
       else None.

(** The loop of [render_reading_page] over the lines of the page: the
    lines drawn with their [y]. The test
    [y + font_height > H - margin - font_height * 2.5] is written with
    both sides doubled. *)
Fixpoint draw_lines (fh lh H margin y : Z) (page_content : list str)
    : list (Z * str) :=
  match page_content with
  | [] => []
  | line :: rest =>
      if 2 * (H - margin) - 5 * fh <? 2 * (y + fh) then []
      else if truthy line
           then (y, line) :: draw_lines fh lh H margin (y + lh) rest
           else draw_lines fh lh H margin y rest
  end.

(** What [render_reading_page] draws of the book: the lines of the page
    and the page number of the footer. The clock and the progress bar,
    which depend on the time and on floating-point rounding, are left
    out. *)
Record reading_image := {
  body : list (Z * str);
  page_info : str
}.

(** [render_reading_page(font, pages, page_index, margin)] with the
    display dimensions as parameters; [None] when it raises: [IndexError]
    at [pages[page_index]], [ZeroDivisionError] at the progress of an
    empty [pages]. *)
Definition render_reading_page (f : font) (H : Z) (pages : list page)
    (page_index margin : Z) : option reading_image :=
  let len := Z.of_nat (length pages) in
  match (if page_index <? len then py_index pages page_index
         else Some [txt "Page not found"]) with
  | None => None
  | Some page_content =>
      if len =? 0 then None
      else Some {| body := draw_lines (font_height f) (line_height f) H
                             margin margin page_content;
                   page_info := decimal (page_index + 1) ++ txt "/"
                                ++ decimal len |}
  end.

(** ** Reference definitions for the display *)

(** A run of [display_page] calls, one [(force_full, partial_ok)] per
    call: the display afterwards and the panel calls of each. *)
Fixpoint display_pages (d : EReaderDisplay) (calls : list (bool * bool))
    : EReaderDisplay * list (list epd_call) :=
  match calls with
  | [] => (d, [])
  | (force_full, partial_ok) :: rest =>
      let '(d1, trace, _) := display_page d force_full partial_ok in
      let '(d2, traces) := display_pages d1 rest in
      (d2, trace :: traces)
  end.

(** The number of lines that the renderer has room for below [y]. *)
Definition line_slots (fh lh H margin y : Z) : nat :=
  let room := 2 * (H - margin - y) - 7 * fh in
  if room <? 0 then 0%nat else Z.to_nat (room / (2 * lh) + 1).

(** Twenty-one words of sixteen letters, one to a line on the display,
    and the pages of the full pass for them. *)
Definition long_words : str :=
  concat (replicate 21 (txt "abcdefghijklmnop ")).

Definition long_pages : list page :=
  default [] (paginate_full long_words (mono_font 10 17) DISPLAY_WIDTH
                DISPLAY_HEIGHT DISPLAY_MARGIN).

(** ** [config.py]: the menus *)

Module config.

Definition MAIN_MENU : list str :=
  [txt "Resume"; txt "Jump Pages"; txt "Skip to Chapter"; txt "Refresh Book";
   txt "Select Book"; txt "Sleep"; txt "Shutdown"].

Definition JUMP_MENU : list str :=
  [txt "+5 pages"; txt "+10 pages"; txt "+50 pages"; txt "+100 pages";
   txt "-5 pages"; txt "-10 pages"; txt "-50 pages"; txt "-100 pages";
   txt "Back"].

Definition SLEEP_MENU : list str := [txt "Sleep Now"; txt "Cancel"].

Definition SHUTDOWN_MENU : list str := [txt "Shutdown Now"; txt "Cancel"].

End config.

(** ** [controls.py] *)

(** The values of [current_state]. *)
Inductive state :=
  | READING | MAIN_MENU | JUMP_MENU | CHAPTER_MENU | BROWSER_MENU
  | SLEEP_MENU | SHUTDOWN_CONFIRM.

(** The names under which [_monitor_buttons] reports a button. *)
Inductive button := Prev | Next | Menu | Back.

(** A call of one of the callbacks, with its arguments. [main.py]
    registers all five before the first button is read. *)
Inductive callback :=
  | state_changed (new_state : state) (selected_index : Z)
  | menu_action (action : str)
  | page_change (delta : Z)
  | chapter_select (chapter_index : Z)
  | book_select (book_index : Z).

(** The application state of [FourButtonControls]; [chapter_page_map],
    which is written by [set_chapters] and read nowhere, is left out. *)
Record FourButtonControls := {
  current_state : state;
  menu_index : Z;
  submenu_index : Z;
  chapter_menu_index : Z;
  browser_index : Z;
  browser_page : Z;
  browser_menu : list str;
  chapter_menu : list str
}.

(** [__init__] *)
Definition new_controls : FourButtonControls :=
  {| current_state := READING; menu_index := 0; submenu_index := 0;
     chapter_menu_index := 0; browser_index := 0; browser_page := 0;
     browser_menu := []; chapter_menu := [] |}.

(** Assignments to one attribute. *)
Definition set_current_state (s : state) (self : FourButtonControls) :=
  {| current_state := s; menu_index := menu_index self;
     submenu_index := submenu_index self;
     chapter_menu_index := chapter_menu_index self;
     browser_index := browser_index self; browser_page := browser_page self;
     browser_menu := browser_menu self; chapter_menu := chapter_menu self |}.

Definition set_menu_index (i : Z) (self : FourButtonControls) :=
  {| current_state := current_state self; menu_index := i;
     submenu_index := submenu_index self;
     chapter_menu_index := chapter_menu_index self;
     browser_index := browser_index self; browser_page := browser_page self;
     browser_menu := browser_menu self; chapter_menu := chapter_menu self |}.

Definition set_submenu_index (i : Z) (self : FourButtonControls) :=
  {| current_state := current_state self; menu_index := menu_index self;
     submenu_index := i;
     chapter_menu_index := chapter_menu_index self;
     browser_index := browser_index self; browser_page := browser_page self;
     browser_menu := browser_menu self; chapter_menu := chapter_menu self |}.

Definition set_chapter_menu_index (i : Z) (self : FourButtonControls) :=
  {| current_state := current_state self; menu_index := menu_index self;
     submenu_index := submenu_index self;
     chapter_menu_index := i;
     browser_index := browser_index self; browser_page := browser_page self;
     browser_menu := browser_menu self; chapter_menu := chapter_menu self |}.

Definition set_browser_index (i : Z) (self : FourButtonControls) :=
  {| current_state := current_state self; menu_index := menu_index self;
     submenu_index := submenu_index self;
     chapter_menu_index := chapter_menu_index self;
     browser_index := i; browser_page := browser_page self;
     browser_menu := browser_menu self; chapter_menu := chapter_menu self |}.

Definition set_browser_page (i : Z) (self : FourButtonControls) :=
  {| current_state := current_state self; menu_index := menu_index self;
     submenu_index := submenu_index self;
     chapter_menu_index := chapter_menu_index self;
     browser_index := browser_index self; browser_page := i;
     browser_menu := browser_menu self; chapter_menu := chapter_menu self |}.

(** [set_chapters(chapters)] *)
Definition set_chapters (chapters : list str) (self : FourButtonControls) :=
  {| current_state := current_state self; menu_index := menu_index self;
     submenu_index := submenu_index self;
     chapter_menu_index := chapter_menu_index self;
     browser_index := browser_index self; browser_page := browser_page self;
     browser_menu := browser_menu self; chapter_menu := chapters |}.

(** [set_books(books)] *)
Definition set_books (books : list str) (self : FourButtonControls) :=
  {| current_state := current_state self; menu_index := menu_index self;
     submenu_index := submenu_index self;
     chapter_menu_index := chapter_menu_index self;
     browser_index := 0; browser_page := 0;
     browser_menu := txt "Back to Reading" :: books;
     chapter_menu := chapter_menu self |}.

Definition is_digit (c : ascii) : bool :=
  ((48 <=? ord c) && (ord c <=? 57))%N.

(** The digits of a decimal literal, single underscores allowed between
    two digits. *)
Fixpoint digits_value (acc : Z) (after_digit : bool) (s : str) : option Z :=
  match s with
  | [] => if after_digit then Some acc else None
  | c :: t =>
      if is_digit c
      then digits_value (acc * 10 + (Z.of_N (ord c) - 48)) true t
      else if bool_decide (c = "_"%char) && after_digit
           then match t with
                | [] => None
                | _ => digits_value acc false t
                end
           else None
  end.

(** The white space that [int] skips at both ends: that of [str.isspace]
    without the separators U+001C to U+001F. *)
Definition int_space (c : ascii) : bool :=
  is_space c && negb ((28 <=? ord c) && (ord c <=? 31))%N.

Fixpoint int_lstrip (s : str) : str :=
  match s with
  | [] => []
  | c :: t => if int_space c then int_lstrip t else s
  end.

Definition int_strip (s : str) : str :=
  rev (int_lstrip (rev (int_lstrip s))).

(** [int(s)] on a string of code points below U+0100; [None] is
    [ValueError]. (CPython from 3.11 on also refuses more than 4300
    digits; the entries of the menus have at most three.) *)
Definition py_int (s : str) : option Z :=
  match int_strip s with
  | c :: t =>
      if bool_decide (c = "+"%char) then digits_value 0 false t
      else if bool_decide (c = "-"%char)
           then Z.opp <$> digits_value 0 false t
           else digits_value 0 false (c :: t)
  | [] => None
  end.

(** [int(selected[1:].split()[0])]; [None] when it raises. *)
Definition jump_amount (selected : str) : option Z :=
  match split_ws (drop 1 selected) with
  | word :: _ => py_int word
  | [] => None
  end.

(** The handlers in summary: the controls after the assignments of the
    handler and the calls of the callbacks in the order in which they are
    made, which is how a press ends when the callbacks return and leave
    the controls alone; [None] when an index or a conversion raises. The
    handlers step by step, with the callbacks run in their places, follow
    below ([_handle_button_steps], [button_pressed]). *)
Definition _handle_reading_mode (self : FourButtonControls) (b : button)
    (long_press : bool) : option (FourButtonControls * list callback) :=
  match b with
  | Prev => Some (self, [page_change (if long_press then -10 else -1)])
  | Next => Some (self, [page_change (if long_press then 10 else 1)])
  | Menu =>
      Some (set_menu_index 0 (set_current_state MAIN_MENU self),
            [state_changed MAIN_MENU 0])
  | Back => Some (self, [])
  end.

Definition _handle_main_menu (self : FourButtonControls) (b : button)
    (long_press : bool) : option (FourButtonControls * list callback) :=
  let n := Z.of_nat (length config.MAIN_MENU) in
  match b with
  | Prev =>
      let i := (menu_index self - 1) mod n in
      Some (set_menu_index i self, [state_changed (current_state self) i])
  | Next =>
      let i := (menu_index self + 1) mod n in
      Some (set_menu_index i self, [state_changed (current_state self) i])
  | Menu =>
      match py_index config.MAIN_MENU (menu_index self) with
      | None => None
      | Some selected =>
          if str_eqb selected (txt "Resume") then
            Some (set_current_state READING self, [state_changed READING 0])
          else if str_eqb selected (txt "Jump Pages") then
            Some (set_submenu_index 0 (set_current_state JUMP_MENU self),
                  [state_changed JUMP_MENU 0])
          else if str_eqb selected (txt "Skip to Chapter") then
            if truthy (chapter_menu self) then
              Some (set_chapter_menu_index 0
                      (set_current_state CHAPTER_MENU self),
                    [state_changed CHAPTER_MENU 0])
            else Some (self, [])
          else if str_eqb selected (txt "Refresh Book") then
            Some (self, [menu_action (txt "refresh")])
          else if str_eqb selected (txt "Select Book") then
            Some (set_browser_index 0 (set_current_state BROWSER_MENU self),
                  [state_changed BROWSER_MENU 0])
          else if str_eqb selected (txt "Sleep") then
            Some (set_submenu_index 0 (set_current_state SLEEP_MENU self),
                  [state_changed SLEEP_MENU 0])
          else if str_eqb selected (txt "Shutdown") then
            Some (set_submenu_index 0
                    (set_current_state SHUTDOWN_CONFIRM self),
                  [state_changed SHUTDOWN_CONFIRM 0])
          else Some (self, [])
      end
  | Back => Some (set_current_state READING self, [state_changed READING 0])
  end.

Definition _handle_jump_menu (self : FourButtonControls) (b : button)
    (long_press : bool) : option (FourButtonControls * list callback) :=
  let n := Z.of_nat (length config.JUMP_MENU) in
  match b with
  | Prev =>
      let i := (submenu_index self - 1) mod n in
      Some (set_submenu_index i self, [state_changed (current_state self) i])
  | Next =>
      let i := (submenu_index self + 1) mod n in
      Some (set_submenu_index i self, [state_changed (current_state self) i])
  | Menu =>
      match py_index config.JUMP_MENU (submenu_index self) with
      | None => None
      | Some selected =>
          if str_eqb selected (txt "Back") then
            Some (set_menu_index 1 (set_current_state MAIN_MENU self),
                  [state_changed MAIN_MENU 1])
          else
            let leave := (set_current_state READING self,
                          [state_changed READING 0]) in
            match selected with
            | c :: _ =>
                if bool_decide (c = "+"%char) then
                  pages ← jump_amount selected;
                  Some (leave.1, page_change pages :: leave.2)
                else if bool_decide (c = "-"%char) then
                  pages ← jump_amount selected;
                  Some (leave.1, page_change (- pages) :: leave.2)
                else Some leave
            | [] => Some leave
            end
      end
  | Back =>
      Some (set_menu_index 1 (set_current_state MAIN_MENU self),
            [state_changed MAIN_MENU 1])
  end.

Definition _handle_chapter_menu (self : FourButtonControls) (b : button)
    (long_press : bool) : option (FourButtonControls * list callback) :=
  if negb (truthy (chapter_menu self)) then
    Some (set_current_state MAIN_MENU self,
          [state_changed MAIN_MENU (menu_index self)])
  else
    let n := Z.of_nat (length (chapter_menu self)) in
    match b with
    | Prev =>
        let i := (chapter_menu_index self - 1) mod n in
        Some (set_chapter_menu_index i self,
              [state_changed (current_state self) i])
    | Next =>
        let i := (chapter_menu_index self + 1) mod n in
        Some (set_chapter_menu_index i self,
              [state_changed (current_state self) i])
    | Menu =>
        Some (set_current_state READING self,
              [chapter_select (chapter_menu_index self);
               state_changed READING 0])
    | Back =>
        Some (set_menu_index 2 (set_current_state MAIN_MENU self),
              [state_changed MAIN_MENU 2])
    end.

Definition _handle_browser_menu (self : FourButtonControls) (b : button)
    (long_press : bool) : option (FourButtonControls * list callback) :=
  if negb (truthy (browser_menu self)) then
    Some (set_current_state MAIN_MENU self,
          [state_changed MAIN_MENU (menu_index self)])
  else
    let items_per_page := 6 in
    let total_items := Z.of_nat (length (browser_menu self)) in
    match b with
    | Prev =>
        let i := (browser_index self - 1) mod total_items in
        Some (set_browser_page (i / items_per_page)
                (set_browser_index i self),
              [state_changed (current_state self) i])
    | Next =>
        let i := (browser_index self + 1) mod total_items in
        Some (set_browser_page (i / items_per_page)
                (set_browser_index i self),
              [state_changed (current_state self) i])
    | Menu =>
        if browser_index self =? 0 then
          Some (set_current_state READING self, [state_changed READING 0])
        else
          let book_index := browser_index self - 1 in
          if book_index <? total_items - 1
          then Some (self, [book_select book_index])
          else Some (self, [])
    | Back =>
        Some (set_menu_index 3 (set_current_state MAIN_MENU self),
              [state_changed MAIN_MENU 3])
    end.

(** [_handle_sleep_menu] and [_handle_shutdown_menu] differ in the menu,
    the entry that acts, the action and the index they go back to. *)
Definition handle_confirm_menu (items : list str) (now action : str)
    (position : Z) (self : FourButtonControls) (b : button)
    : option (FourButtonControls * list callback) :=
  let n := Z.of_nat (length items) in
  match b with
  | Prev =>
      let i := (submenu_index self - 1) mod n in
      Some (set_submenu_index i self, [state_changed (current_state self) i])
  | Next =>
      let i := (submenu_index self + 1) mod n in
      Some (set_submenu_index i self, [state_changed (current_state self) i])
  | Menu =>
      match py_index items (submenu_index self) with
      | None => None
      | Some selected =>
          if str_eqb selected now then Some (self, [menu_action action])
          else if str_eqb selected (txt "Cancel") then
            Some (set_menu_index position (set_current_state MAIN_MENU self),
                  [state_changed MAIN_MENU position])
          else Some (self, [])
      end
  | Back =>
      Some (set_menu_index position (set_current_state MAIN_MENU self),
            [state_changed MAIN_MENU position])
  end.

Definition _handle_sleep_menu (self : FourButtonControls) (b : button)
    (long_press : bool) : option (FourButtonControls * list callback) :=
  handle_confirm_menu config.SLEEP_MENU (txt "Sleep Now") (txt "sleep") 4
    self b.

Definition _handle_shutdown_menu (self : FourButtonControls) (b : button)
    (long_press : bool) : option (FourButtonControls * list callback) :=
  handle_confirm_menu config.SHUTDOWN_MENU (txt "Shutdown Now")
    (txt "shutdown") 5 self b.

(** [_handle_button(button, duration)], with [long_press] for
    [duration >= 0.5]. *)
Definition _handle_button (self : FourButtonControls) (b : button)
    (long_press : bool) : option (FourButtonControls * list callback) :=
  match current_state self with
  | READING => _handle_reading_mode self b long_press
  | MAIN_MENU => _handle_main_menu self b long_press
  | JUMP_MENU => _handle_jump_menu self b long_press
  | CHAPTER_MENU => _handle_chapter_menu self b long_press
  | BROWSER_MENU => _handle_browser_menu self b long_press
  | SLEEP_MENU => _handle_sleep_menu self b long_press
  | SHUTDOWN_CONFIRM => _handle_shutdown_menu self b long_press
  end.

(** ** [display.py]: the rows of the list menus *)

(** [range(a, b)] *)
Definition py_range (a b : Z) : list Z :=
  (fun k => a + Z.of_nat k) <$> seq 0 (Z.to_nat (b - a)).

(** [name[:22] + "..."] for a name of more than 25 characters. *)
Definition shorten (name : str) : str :=
  if (25 <? length name)%nat then take 22 name ++ txt "..." else name.

(** A row of a menu: its index, its text and whether it is highlighted. *)
Record row := {
  row_index : Z;
  row_text : str;
  row_selected : bool
}.

(** The loop over the entries of [render_browser_menu]; [None] when
    [books[i]] raises. *)
Definition render_browser_menu (books : list str)
    (selected_index current_page : Z) : option (list row) :=
  let items_per_page := 6 in
  let start_index := current_page * items_per_page in
  let end_index :=
    Z.min (start_index + items_per_page) (Z.of_nat (length books)) in
  mapM (fun i =>
          book_name ← py_index books i;
          Some {| row_index := i;
                  row_text := shorten book_name;
                  row_selected := i =? selected_index |})
       (py_range start_index end_index).

(** The loop over the entries of [render_chapter_menu]. *)
Definition render_chapter_menu (chapters : list str) (selected_index : Z)
    : option (list row) :=
  let items_per_page := 6 in
  let start_index := selected_index / items_per_page * items_per_page in
  mapM (fun i =>
          chapter ← py_index chapters i;
          Some {| row_index := i;
                  row_text := decimal (i + 1) ++ txt ". " ++ shorten chapter;
                  row_selected := i =? selected_index |})
       (py_range start_index
          (Z.min (start_index + items_per_page)
             (Z.of_nat (length chapters)))).

(** ** Reference definitions for the controls *)

Definition in_range {A} (i : Z) (l : list A) : Prop :=
  0 <= i < Z.of_nat (length l).

(** The index that a handler uses to pick the selected entry is inside
    its menu. *)
Definition controls_ok (c : FourButtonControls) : Prop :=
  in_range (menu_index c) config.MAIN_MENU /\
  match current_state c with
  | JUMP_MENU => in_range (submenu_index c) config.JUMP_MENU
  | SLEEP_MENU => in_range (submenu_index c) config.SLEEP_MENU
  | SHUTDOWN_CONFIRM => in_range (submenu_index c) config.SHUTDOWN_MENU
  | _ => True
  end.

(** The cursor of the menu that is open is on one of its entries, and the
    browser shows the page of its cursor. *)
Definition cursor_ok (c : FourButtonControls) : Prop :=
  match current_state c with
  | READING => True
  | MAIN_MENU => in_range (menu_index c) config.MAIN_MENU
  | JUMP_MENU => in_range (submenu_index c) config.JUMP_MENU
  | CHAPTER_MENU => in_range (chapter_menu_index c) (chapter_menu c)
  | BROWSER_MENU =>
      in_range (browser_index c) (browser_menu c) /\
      browser_page c = browser_index c / 6
  | SLEEP_MENU => in_range (submenu_index c) config.SLEEP_MENU
  | SHUTDOWN_CONFIRM => in_range (submenu_index c) config.SHUTDOWN_MENU
  end.

(** A sequence of short presses. *)
Fixpoint press (c : FourButtonControls) (bs : list button)
    : option FourButtonControls :=
  match bs with
  | [] => Some c
  | b :: rest =>
      match _handle_button c b false with
      | Some (c', _) => press c' rest
      | None => None
      end
  end.

(** The controls with two books in the browser, the browser open. *)
Definition browsing : FourButtonControls :=
  set_current_state BROWSER_MENU
    (set_books [txt "a.epub"; txt "b.epub"] new_controls).

(** ** [main.py]: rendering and the callbacks of the reading page *)

(** What a render method was asked to draw. *)
Inductive screen :=
  | reading_screen (img : reading_image)
  | menu_screen (title : str) (items : list str) (selected_index : Z)
  | rows_screen (rows : list row)
  | confirmation_screen (title : str) (options : list str)
      (selected_index : Z).

(** [CompleteEReader] with its display, controls and bookmark manager,
    the calls made on the panel so far and the screens sent to it. *)
Record reader := {
  sys : system;
  display : EReaderDisplay;
  controls : FourButtonControls;
  bookmark_manager : bookmarks;
  panel : list epd_call;
  shown : list screen
}.

(** [self.display.display_page(img, force_full)] *)
Definition show (r : reader) (img : screen) (force_full partial_ok : bool)
    : reader * bool :=
  let '(d, trace, used_partial) :=
    display_page (display r) force_full partial_ok in
  ({| sys := sys r; display := d; controls := controls r;
      bookmark_manager := bookmark_manager r;
      panel := panel r ++ trace;
      shown := shown r ++ [img] |}, used_partial).

(** [render_current_state(force_full)]; [None] when a render method
    raises. *)
Definition render_current_state (f : font) (r : reader)
    (force_full partial_ok : bool) : option (reader * bool) :=
  let c := controls r in
  let a := app (sys r) in
  img ← match current_state c with
        | READING =>
            reading_screen <$>
              render_reading_page f DISPLAY_HEIGHT (pages a) (current_page a)
                DISPLAY_MARGIN
        | MAIN_MENU =>
            Some (menu_screen (txt "MAIN MENU") config.MAIN_MENU
                    (menu_index c))
        | JUMP_MENU =>
            Some (menu_screen (txt "JUMP PAGES") config.JUMP_MENU
                    (submenu_index c))
        | CHAPTER_MENU =>
            if truthy (chapters a) then
              rows_screen <$>
                render_chapter_menu (chapters a) (chapter_menu_index c)
            else Some (confirmation_screen (txt "NO CHAPTERS") [txt "OK"] 0)
        | BROWSER_MENU =>
            rows_screen <$>
              render_browser_menu (browser_menu c) (browser_index c)
                (browser_page c)
        | SLEEP_MENU =>
            Some (confirmation_screen (txt "SLEEP") config.SLEEP_MENU
                    (submenu_index c))
        | SHUTDOWN_CONFIRM =>
            Some (confirmation_screen (txt "SHUTDOWN") config.SHUTDOWN_MENU
                    (submenu_index c))
        end;
  Some (show r img force_full partial_ok).

Definition set_needs_clear (self : EReaderDisplay) : EReaderDisplay :=
  {| use_partial := use_partial self; needs_clear := true;
     page_counter := page_counter self;
     full_refresh_interval := full_refresh_interval self;
     _display_initialized := _display_initialized self |}.

Definition set_current_page (n : Z) (s : system) : system :=
  {| app := {| current_page := n; pages := pages (app s);
               book_path := book_path (app s);
               chapters := chapters (app s) |};
     cache := cache s; queue := queue s; threads := threads s |}.

(** [on_page_change(delta)] *)
Definition on_page_change (f : font) (r : reader) (delta : Z)
    (partial_ok : bool) : option reader :=
  let a := app (sys r) in
  if negb (truthy (pages a)) then Some r
  else
    let new_page :=
      Z.max 0 (Z.min (current_page a + delta)
                 (Z.of_nat (length (pages a)) - 1)) in
    if new_page =? current_page a then Some r
    else
      let page_diff := Z.abs (new_page - current_page a) in
      let d := if 3 <? page_diff then set_needs_clear (display r)
               else display r in
      let r1 := {| sys := set_current_page new_page (sys r); display := d;
                   controls := controls r;
                   bookmark_manager := bookmark_manager r;
                   panel := panel r; shown := shown r |} in
      '(r2, _) ← render_current_state f r1 false partial_ok;
      Some {| sys := sys r2; display := display r2; controls := controls r2;
              bookmark_manager :=
                save_bookmark_async (bookmark_manager r2) (book_path a)
                  (new_page + 1);
              panel := panel r2; shown := shown r2 |}.

(** [check_background_processing]: the book state is replaced, the
    chapters are handed to the controls, [needs_clear] is set and the
    current state is rendered with a full refresh; [None] when the render
    raises. *)
Definition check_background_processing (f : font) (r : reader)
    (partial_ok : bool) : option (reader * bool) :=
  let '(s, found) := take_completion (sys r) in
  if found then
    let r1 := {| sys := s;
                 display := set_needs_clear (display r);
                 controls := set_chapters (chapters (app s)) (controls r);
                 bookmark_manager := bookmark_manager r;
                 panel := panel r; shown := shown r |} in
    '(r2, _) ← render_current_state f r1 true partial_ok;
    Some (r2, true)
  else
    Some ({| sys := s; display := display r; controls := controls r;
             bookmark_manager := bookmark_manager r;
             panel := panel r; shown := shown r |}, false).

(** [show_no_books_message] *)
Definition show_no_books_message (r : reader) (partial_ok : bool) : reader :=
  (show r (confirmation_screen (txt "NO BOOKS") [txt "OK"] 0) true
     partial_ok).1.

(** [load_book(book_path)]; the empty string stands for [None] as well.
    [last_book] is what [get_last_book()] returns, [abspath] is
    [os.path.abspath]; the file of [save_last_book], which only
    [get_last_book] reads, is left out. [None] when it raises. *)
Definition load_book (w : world) (abspath : str -> str) (f : font)
    (r : reader) (book_path last_book : str) (partial_ok : bool)
    : option (reader * bool) :=
  let book_path := if truthy book_path then book_path else last_book in
  if negb (truthy book_path) then
    Some (show_no_books_message r partial_ok, false)
  else if negb (bool_decide (is_Some (os_stat w book_path))) then
    Some (r, false)
  else
    o ← extract_text_fast w f book_path (cache (sys r));
    let '(saved_page, m) :=
      load_bookmark (manager (bookmark_manager r))
        (files (bookmark_manager r)) book_path in
    let current :=
      Z.max 0 (Z.min (saved_page - 1)
                 (Z.of_nat (length (o_pages o)) - 1)) in
    let '(d1, init_calls) := init_display (display r) in
    let '(d2, clear_calls) := clear_display d1 in
    let r1 :=
      {| sys := {| app := {| current_page := current;
                             pages := o_pages o;
                             book_path := abspath book_path;
                             chapters := o_chapters o |};
                   cache := o_cache o;
                   queue := queue (sys r);
                   threads := threads (sys r) ++ option_list (o_job o) |};
         display := d2;
         controls := set_chapters (o_chapters o) (controls r);
         bookmark_manager :=
           {| manager := m; files := files (bookmark_manager r);
              pending := pending (bookmark_manager r) |};
         panel := panel r ++ init_calls ++ clear_calls;
         shown := shown r |} in
    '(r2, _) ← render_current_state f r1 false partial_ok;
    Some (r2, true).

(** ** Example data for the callbacks *)

(** A reader at the first of five pages of [moby_path], nothing saved. *)
Definition reading_moby : reader :=
  {| sys := {| app := {| current_page := 0;
                         pages := [[txt "one"]; [txt "two"]; [txt "three"];
                                   [txt "four"]; [txt "five"]];
                         book_path := moby_path;
                         chapters := [] |};
               cache := ∅; queue := []; threads := [] |};
     display := new_display;
     controls := new_controls;
     bookmark_manager := fresh_bookmarks;
     panel := []; shown := [] |}.


(** The reader of [reading_moby] two pages further. *)
Definition moved_moby : reader :=
  default reading_moby (on_page_change (mono_font 10 17) reading_moby 2 true).

(** The full artifact of the five pages. *)
Definition moby_five : cache_data :=
  {| cd_text := txt "one two three four five";
     cd_pages := pages (app (sys reading_moby));
     cd_chapters := [];
     cd_partial := false;
     cd_timestamp := 0%Q;
     cd_book_path := moby_path |}.

(** A new process: nothing in memory, the artifact in the cache directory
    and the bookmark files as the save of [moved_moby] leaves them. *)
Definition restarted_moby : reader :=
  {| sys := {| app := {| current_page := 0; pages := []; book_path := [];
                         chapters := [] |};
               cache := {[moby_cache_file := Pickled moby_five]};
               queue := []; threads := [] |};
     display := new_display;
     controls := new_controls;
     bookmark_manager :=
       {| manager := manager fresh_bookmarks;
          files := files (run_save 0 WriteOk (bookmark_manager moved_moby));
          pending := [] |};
     panel := []; shown := [] |}.

(** What [extract_text_fast] returns for it. *)
Definition reopened_moby : opened :=
  {| o_text := cd_text moby_five;
     o_pages := cd_pages moby_five;
     o_chapters := cd_chapters moby_five;
     o_cache := {[moby_cache_file := Pickled moby_five]};
     o_job := None |}.

(** ** [book.py]: the open and the background pass when a write fails *)

(** [with gzip.open(cache_file, 'wb') as f: pickle.dump(cache_data, f)]
    with its outcome: the cache directory afterwards and whether the
    store completed. [OpenFails]: [gzip.open] raises and the file is
    untouched; [DumpFails]: [pickle.dump] raises after the file was
    truncated. *)
Definition try_store (io : write_outcome) (fs : gmap str cache_blob)
    (cache_file : str) (d : cache_data) : gmap str cache_blob * bool :=
  match io with
  | WriteOk => (store fs cache_file d, true)
  | OpenFails => (fs, false)
  | DumpFails => (open_wb fs cache_file, false)
  end.

(** What the environment decides in a call of [extract_text_fast]: how
    the store of lines 163-164 ends, whether [Thread.start] of line 217
    returns, and [str(e)] of the exception that the [except] of line 221
    catches. *)
Record outcomes := {
  store_outcome : write_outcome;
  thread_starts : bool;
  exception_text : str
}.

Definition all_ok : outcomes :=
  {| store_outcome := WriteOk; thread_starts := true; exception_text := [] |}.

(** The return of the [except] branch. *)
Definition error_result (e : outcomes) (fs : gmap str cache_blob) : opened :=
  {| o_text := txt "Error loading book: " ++ exception_text e;
     o_pages := [[txt "Error loading book"]];
     o_chapters := [];
     o_cache := fs; o_job := None |}.

(** [extract_text_fast(path)]: the store and the start of the thread are
    inside the [try], so a failure of either returns the error page, with
    the cache file as the store left it. *)
Definition extract_text_fast_with (e : outcomes) (w : world) (f : font)
    (path : str) (fs : gmap str cache_blob) : option opened :=
  match os_stat w path with
  | None => None
  | Some book_stat =>
      let cache_dir := expanduser w (CACHE_DIR w) in
      let cache_hash := hash16 (cache_key path book_stat) in
      let cache_file := cache_file_name cache_dir cache_hash in
      match cache_probe fs cache_file with
      | Some cached_data =>
          Some {| o_text := cd_text cached_data;
                  o_pages := cd_pages cached_data;
                  o_chapters := cd_chapters cached_data;
                  o_cache := fs; o_job := None |}
      | None =>
          match process_initial w f path with
          | Some (text, pages, chapters) =>
              let data :=
                {| cd_text := text; cd_pages := pages;
                   cd_chapters := chapters; cd_partial := true;
                   cd_timestamp := time_now w; cd_book_path := path |} in
              let '(fs', stored) :=
                try_store (store_outcome e) fs cache_file data in
              if stored && thread_starts e then
                Some {| o_text := text; o_pages := pages;
                        o_chapters := chapters;
                        o_cache := fs';
                        o_job := Some {| job_path := path;
                                         job_cache_file := cache_file;
                                         job_cache_data := data;
                                         job_font := f;
                                         job_chapters := chapters |} |}
              else Some (error_result e fs')
          | None => Some (error_result e fs)
          end
      end
  end.

(** One run of the thread [process_full] with the outcome of its store
    (lines 200-201, outside any [try]): when the store raises the thread
    ends, the file is left as the store left it and nothing is put on the
    queue. *)
Definition process_full_with (io : write_outcome) (w : world) (j : job)
    (st : gmap str cache_blob * list completion)
    : gmap str cache_blob * list completion :=
  let '(fs, queue) := st in
  match read_epub w (job_path j) with
  | None => st
  | Some full_book =>
      let full_parts := fold_left full_step (get_items full_book) [] in
      let full_text := join [NL] full_parts in
      let full_text_clean := clean_text full_text in
      match paginate_full full_text_clean (job_font j)
              DISPLAY_WIDTH DISPLAY_HEIGHT DISPLAY_MARGIN with
      | None => st
      | Some full_pages =>
          let d := job_cache_data j in
          let data :=
            {| cd_text := full_text_clean; cd_pages := full_pages;
               cd_chapters := cd_chapters d; cd_partial := false;
               cd_timestamp := cd_timestamp d;
               cd_book_path := cd_book_path d |} in
          let '(fs', stored) := try_store io fs (job_cache_file j) data in
          if stored then
            (fs', queue ++ [{| c_book_path := job_path j;
                               c_pages := full_pages;
                               c_chapters := job_chapters j |}])
          else (fs', queue)
      end
  end.


(** ** [controls.py]: the handlers step by step *)

(** A step of a handler: assignments to attributes of the controls, or
    the call of a callback. *)
Inductive step :=
  | Assign (f : FourButtonControls -> FourButtonControls)
  | Call (cb : callback).

(** Every handler reads the controls before its first callback; after a
    callback it only assigns constants. Its steps are therefore given
    from the controls at the press; [None] when an index or a conversion
    raises, which happens before any step. *)
Definition _handle_reading_mode_steps (self : FourButtonControls)
    (b : button) (long_press : bool) : option (list step) :=
  match b with
  | Prev => Some [Call (page_change (if long_press then -10 else -1))]
  | Next => Some [Call (page_change (if long_press then 10 else 1))]
  | Menu =>
      Some [Assign (fun c => set_menu_index 0 (set_current_state MAIN_MENU c));
            Call (state_changed MAIN_MENU 0)]
  | Back => Some []
  end.

Definition _handle_main_menu_steps (self : FourButtonControls) (b : button)
    (long_press : bool) : option (list step) :=
  let n := Z.of_nat (length config.MAIN_MENU) in
  match b with
  | Prev =>
      let i := (menu_index self - 1) mod n in
      Some [Assign (set_menu_index i);
            Call (state_changed (current_state self) i)]
  | Next =>
      let i := (menu_index self + 1) mod n in
      Some [Assign (set_menu_index i);
            Call (state_changed (current_state self) i)]
  | Menu =>
      match py_index config.MAIN_MENU (menu_index self) with
      | None => None
      | Some selected =>
          if str_eqb selected (txt "Resume") then
            Some [Assign (set_current_state READING);
                  Call (state_changed READING 0)]
          else if str_eqb selected (txt "Jump Pages") then
            Some [Assign (fun c => set_submenu_index 0
                                     (set_current_state JUMP_MENU c));
                  Call (state_changed JUMP_MENU 0)]
          else if str_eqb selected (txt "Skip to Chapter") then
            if truthy (chapter_menu self) then
              Some [Assign (fun c => set_chapter_menu_index 0
                                       (set_current_state CHAPTER_MENU c));
                    Call (state_changed CHAPTER_MENU 0)]
            else Some []
          else if str_eqb selected (txt "Refresh Book") then
            Some [Call (menu_action (txt "refresh"))]
          else if str_eqb selected (txt "Select Book") then
            Some [Assign (fun c => set_browser_index 0
                                     (set_current_state BROWSER_MENU c));
                  Call (state_changed BROWSER_MENU 0)]
          else if str_eqb selected (txt "Sleep") then
            Some [Assign (fun c => set_submenu_index 0
                                     (set_current_state SLEEP_MENU c));
                  Call (state_changed SLEEP_MENU 0)]
          else if str_eqb selected (txt "Shutdown") then
            Some [Assign (fun c => set_submenu_index 0
                                     (set_current_state SHUTDOWN_CONFIRM c));
                  Call (state_changed SHUTDOWN_CONFIRM 0)]
          else Some []
      end
  | Back =>
      Some [Assign (set_current_state READING);
            Call (state_changed READING 0)]
  end.

Definition _handle_jump_menu_steps (self : FourButtonControls) (b : button)
    (long_press : bool) : option (list step) :=
  let n := Z.of_nat (length config.JUMP_MENU) in
  match b with
  | Prev =>
      let i := (submenu_index self - 1) mod n in
      Some [Assign (set_submenu_index i);
            Call (state_changed (current_state self) i)]
  | Next =>
      let i := (submenu_index self + 1) mod n in
      Some [Assign (set_submenu_index i);
            Call (state_changed (current_state self) i)]
  | Menu =>
      match py_index config.JUMP_MENU (submenu_index self) with
      | None => None
      | Some selected =>
          if str_eqb selected (txt "Back") then
            Some [Assign (fun c => set_menu_index 1
                                     (set_current_state MAIN_MENU c));
                  Call (state_changed MAIN_MENU 1)]
          else
            let leave := [Assign (set_current_state READING);
                          Call (state_changed READING 0)] in
            match selected with
            | c :: _ =>
                if bool_decide (c = "+"%char) then
                  pages ← jump_amount selected;
                  Some (Call (page_change pages) :: leave)
                else if bool_decide (c = "-"%char) then
                  pages ← jump_amount selected;
                  Some (Call (page_change (- pages)) :: leave)
                else Some leave
            | [] => Some leave
            end
      end
  | Back =>
      Some [Assign (fun c => set_menu_index 1
                               (set_current_state MAIN_MENU c));
            Call (state_changed MAIN_MENU 1)]
  end.

Definition _handle_chapter_menu_steps (self : FourButtonControls)
    (b : button) (long_press : bool) : option (list step) :=
  if negb (truthy (chapter_menu self)) then
    Some [Assign (set_current_state MAIN_MENU);
          Call (state_changed MAIN_MENU (menu_index self))]
  else
    let n := Z.of_nat (length (chapter_menu self)) in
    match b with
    | Prev =>
        let i := (chapter_menu_index self - 1) mod n in
        Some [Assign (set_chapter_menu_index i);
              Call (state_changed (current_state self) i)]
    | Next =>
        let i := (chapter_menu_index self + 1) mod n in
        Some [Assign (set_chapter_menu_index i);
              Call (state_changed (current_state self) i)]
    | Menu =>
        Some [Call (chapter_select (chapter_menu_index self));
              Assign (set_current_state READING);
              Call (state_changed READING 0)]
    | Back =>
        Some [Assign (fun c => set_menu_index 2
                                 (set_current_state MAIN_MENU c));
              Call (state_changed MAIN_MENU 2)]
    end.

Definition _handle_browser_menu_steps (self : FourButtonControls)
    (b : button) (long_press : bool) : option (list step) :=
  if negb (truthy (browser_menu self)) then
    Some [Assign (set_current_state MAIN_MENU);
          Call (state_changed MAIN_MENU (menu_index self))]
  else
    let items_per_page := 6 in
    let total_items := Z.of_nat (length (browser_menu self)) in
    match b with
    | Prev =>
        let i := (browser_index self - 1) mod total_items in
        Some [Assign (fun c => set_browser_page (i / items_per_page)
                                 (set_browser_index i c));
              Call (state_changed (current_state self) i)]
    | Next =>
        let i := (browser_index self + 1) mod total_items in
        Some [Assign (fun c => set_browser_page (i / items_per_page)
                                 (set_browser_index i c));
              Call (state_changed (current_state self) i)]
    | Menu =>
        if browser_index self =? 0 then
          Some [Assign (set_current_state READING);
                Call (state_changed READING 0)]
        else
          let book_index := browser_index self - 1 in
          if book_index <? total_items - 1
          then Some [Call (book_select book_index)]
          else Some []
    | Back =>
        Some [Assign (fun c => set_menu_index 3
                                 (set_current_state MAIN_MENU c));
              Call (state_changed MAIN_MENU 3)]
    end.

Definition handle_confirm_menu_steps (items : list str) (now action : str)
    (position : Z) (self : FourButtonControls) (b : button)
    : option (list step) :=
  let n := Z.of_nat (length items) in
  match b with
  | Prev =>
      let i := (submenu_index self - 1) mod n in
      Some [Assign (set_submenu_index i);
            Call (state_changed (current_state self) i)]
  | Next =>
      let i := (submenu_index self + 1) mod n in
      Some [Assign (set_submenu_index i);
            Call (state_changed (current_state self) i)]
  | Menu =>
      match py_index items (submenu_index self) with
      | None => None
      | Some selected =>
          if str_eqb selected now then Some [Call (menu_action action)]
          else if str_eqb selected (txt "Cancel") then
            Some [Assign (fun c => set_menu_index position
                                     (set_current_state MAIN_MENU c));
                  Call (state_changed MAIN_MENU position)]
          else Some []
      end
  | Back =>
      Some [Assign (fun c => set_menu_index position
                               (set_current_state MAIN_MENU c));
            Call (state_changed MAIN_MENU position)]
  end.

Definition _handle_button_steps (self : FourButtonControls) (b : button)
    (long_press : bool) : option (list step) :=
  match current_state self with
  | READING => _handle_reading_mode_steps self b long_press
  | MAIN_MENU => _handle_main_menu_steps self b long_press
  | JUMP_MENU => _handle_jump_menu_steps self b long_press
  | CHAPTER_MENU => _handle_chapter_menu_steps self b long_press
  | BROWSER_MENU => _handle_browser_menu_steps self b long_press
  | SLEEP_MENU =>
      handle_confirm_menu_steps config.SLEEP_MENU (txt "Sleep Now")
        (txt "sleep") 4 self b
  | SHUTDOWN_CONFIRM =>
      handle_confirm_menu_steps config.SHUTDOWN_MENU (txt "Shutdown Now")
        (txt "shutdown") 5 self b
  end.

(** The steps read with callbacks that return and leave the controls
    alone. *)
Fixpoint summary (steps : list step) (c : FourButtonControls)
    : FourButtonControls * list callback :=
  match steps with
  | [] => (c, [])
  | Assign f :: rest => summary rest (f c)
  | Call cb :: rest =>
      let '(c', calls) := summary rest c in (c', cb :: calls)
  end.

(** The program around the controls: its state, of which the controls
    are a part, and the registered callbacks as a function on that state;
    [None] when the callback raises or leaves the program, as
    [on_menu_action('shutdown')] does with [sys.exit]. *)
Record program (St : Type) := {
  controls_of : St -> FourButtonControls;
  with_controls : FourButtonControls -> St -> St;
  run_callback : callback -> St -> option St
}.

Arguments controls_of {St}.
Arguments with_controls {St}.
Arguments run_callback {St}.

(** The steps of a handler run in the program. *)
Fixpoint run_steps {St} (p : program St) (steps : list step) (s : St)
    : option St :=
  match steps with
  | [] => Some s
  | Assign f :: rest =>
      run_steps p rest (with_controls p (f (controls_of p s)) s)
  | Call cb :: rest =>
      match run_callback p cb s with
      | Some s' => run_steps p rest s'
      | None => None
      end
  end.

(** How a press of a button ends. *)
Inductive pressed (St : Type) :=
  | Returns (s : St)
  | CallbackRaises
  | HandlerRaises.

Arguments Returns {St}.
Arguments CallbackRaises {St}.
Arguments HandlerRaises {St}.

(** [_handle_button(button, duration)] in the program. *)
Definition button_pressed {St} (p : program St) (s : St) (b : button)
    (long_press : bool) : pressed St :=
  match _handle_button_steps (controls_of p s) b long_press with
  | None => HandlerRaises
  | Some steps =>
      match run_steps p steps s with
      | Some s' => Returns s'
      | None => CallbackRaises
      end
  end.

(** A program that is its controls: the callbacks return, except that the
    action of the shutdown entry leaves the program. *)
Definition bare_program : program FourButtonControls :=
  {| controls_of := fun c => c;
     with_controls := fun c _ => c;
     run_callback := fun cb c =>
       match cb with
       | menu_action action =>
           if str_eqb action (txt "shutdown") then None else Some c
       | _ => Some c
       end |}.

(** The assignments of the steps keep the indices inside their menus
    whatever the controls are by then. *)
Definition steps_keep_ok (steps : list step) : Prop :=
  Forall (fun st => match st with
                    | Assign f => forall c, controls_ok c -> controls_ok (f c)
                    | Call _ => True
                    end) steps.

(** The same, with a first assignment that is made on the controls [c] of
    the press. *)
Definition steps_keep_ok_from (c : FourButtonControls) (steps : list step)
    : Prop :=
  match steps with
  | Assign f :: rest => controls_ok (f c) /\ steps_keep_ok rest
  | _ => steps_keep_ok steps
  end.

(** ** Proof steps for the menus *)

Ltac menu_sizes :=
  change (Z.of_nat (length config.MAIN_MENU)) with 7 in *;
  change (Z.of_nat (length config.JUMP_MENU)) with 9 in *;
  change (Z.of_nat (length config.SLEEP_MENU)) with 2 in *;
  change (Z.of_nat (length config.SHUTDOWN_MENU)) with 2 in *.

Ltac split_index i :=
  match goal with
  | H : 0 <= i < 2 |- _ =>
      assert (i = 0 \/ i = 1) as Hcases by lia; clear H
  | H : 0 <= i < 7 |- _ =>
      assert (i = 0 \/ i = 1 \/ i = 2 \/ i = 3 \/ i = 4 \/ i = 5 \/ i = 6)
        as Hcases by lia; clear H
  | H : 0 <= i < 9 |- _ =>
      assert (i = 0 \/ i = 1 \/ i = 2 \/ i = 3 \/ i = 4 \/ i = 5 \/ i = 6
              \/ i = 7 \/ i = 8) as Hcases by lia; clear H
  end;
  repeat match goal with
         | H : _ \/ _ |- _ => destruct H as [H|H]
         end; subst i.

Ltac ok_goal :=
  unfold controls_ok, in_range in *; cbn -[Z.modulo Z.div] in *; menu_sizes;
  repeat split; try done; try lia; try (apply Z.mod_pos_bound; lia).

Ltac keep_ok :=
  unfold steps_keep_ok_from, steps_keep_ok;
  repeat first
    [ split
    | apply Forall_nil_2
    | apply Forall_cons_2
    | done
    | (intros [] [? ?]; ok_goal)
    | ok_goal ].
(** * Properties *)

(** ** Sanity checks of the string and hash primitives *)

Example split_ws_ex :
  split_ws (txt "  ab  c d ") = [txt "ab"; txt "c"; txt "d"].
Proof. reflexivity. Qed.
Example strip_ex : strip (txt "  ab  c d ") = txt "ab  c d".
Proof. reflexivity. Qed.
Example split_on_ex : split_on NL [NL; "a"%char; NL] = [[]; ["a"%char]; []].
Proof. reflexivity. Qed.
Example md5_empty :
  md5_hexdigest [] = txt "d41d8cd98f00b204e9800998ecf8427e".
Proof. vm_compute. reflexivity. Qed.
Example md5_abc :
  md5_hexdigest (txt "abc") = txt "900150983cd24fb0d6963f7d28e17f72".
Proof. vm_compute. reflexivity. Qed.
Example md5_long :
  md5_hexdigest (repeat "a"%char 70) = txt "0f5c6c4e740bfcc08c3c26ccb2673d46".
Proof. vm_compute. reflexivity. Qed.
Example md5_latin1 :
  md5_hexdigest [chr 233] = txt "66ddcd97cfdeabb2f6fb8a999b4bc76f".
Proof. vm_compute. reflexivity. Qed.
Example md5_path :
  md5_hexdigest (txt "/home/pi/books/moby.epub_1700000000.5_1048576")
  = txt "0f9119d780bce0145d104fd7479f3df2".
Proof. vm_compute. reflexivity. Qed.

(** ** The empty page sequence: excluded by the quick layout, returned by
       the full one *)

Lemma max_lines_mono_font :
  max_lines_per_page (mono_font 10 17) DISPLAY_HEIGHT DISPLAY_MARGIN = Some 20.
Proof. reflexivity. Qed.

Lemma paginate_initial_nonempty text f W H margin :
  paginate_initial text f W H margin ≠ Some [].
Proof.
  unfold paginate_initial.
  destruct (max_lines_per_page f H margin) as [maxl|]; [|discriminate].
  destruct (split_pages maxl _) as [|p ps]; discriminate.
Qed.

(** C2. [paginate_initial] never returns an empty page sequence (it falls
    back to the placeholder page), but [paginate_full] has no such
    fallback: on the empty text and on a text of white space only it
    returns the empty sequence of pages. *)
Theorem paginate_full_empty_pages :
  (forall text f W H margin, paginate_initial text f W H margin ≠ Some []) /\
  paginate_initial [] (mono_font 10 17)
    DISPLAY_WIDTH DISPLAY_HEIGHT DISPLAY_MARGIN = Some placeholder_pages /\
  paginate_full [] (mono_font 10 17)
    DISPLAY_WIDTH DISPLAY_HEIGHT DISPLAY_MARGIN = Some [] /\
  paginate_full [SP; NL; SP] (mono_font 10 17)
    DISPLAY_WIDTH DISPLAY_HEIGHT DISPLAY_MARGIN = Some [].
Proof.
  split; [exact paginate_initial_nonempty|].
  repeat split; reflexivity.
Qed.

(** An EPUB whose only document holds no text: the background pass stores
    a full artifact without pages and delivers an empty page sequence. *)
Example empty_book_full_pass :
  (process_full empty_world
     {| job_path := moby_path; job_cache_file := moby_cache_file;
        job_cache_data := sample_data true; job_font := mono_font 10 17;
        job_chapters := [] |} (∅, [])).2
  = [{| c_book_path := moby_path; c_pages := []; c_chapters := [] |}].
Proof. vm_compute. reflexivity. Qed.

(** ** Stores of the cached artifact *)

(** C3, as stated: every state that a store goes through shows the file
    either as it was or with the complete new artifact. This fails: the
    store of the full artifact over the partial one first leaves a
    truncated file. *)
Lemma store_not_atomic :
  ~ (forall (fs : gmap str cache_blob) (cache_file : str) (d : cache_data)
            (fs' : gmap str cache_blob),
       fs' ∈ store_trace fs cache_file d ->
       fs' !! cache_file = fs !! cache_file \/
       fs' !! cache_file = Some (Pickled d)).
Proof.
  intros H.
  specialize (H {[txt "c.pkl.gz" := Pickled (sample_data true)]}
                (txt "c.pkl.gz") (sample_data false)
                (open_wb {[txt "c.pkl.gz" := Pickled (sample_data true)]}
                   (txt "c.pkl.gz"))).
  unfold open_wb in H. rewrite lookup_insert_eq, lookup_singleton_eq in H.
  destruct H as [H|H]; [apply list_elem_of_here|discriminate|discriminate].
Qed.

(** C3, amended. A store rewrites the file in place, first truncating it
    and then writing it: when the store has finished, the file holds the
    complete new artifact; no other file changes at any step; and in the
    state between the two steps the file is truncated, which the cache
    probe of [extract_text_fast] takes for a miss. Both the store of the
    quick pass and the one of the background pass are this [store]. *)
Theorem store_in_place (fs : gmap str cache_blob) (cache_file : str)
    (d : cache_data) :
  last (store_trace fs cache_file d) = Some (store fs cache_file d) /\
  store fs cache_file d !! cache_file = Some (Pickled d) /\
  Forall (fun fs' : gmap str cache_blob =>
            forall other, other ≠ cache_file -> fs' !! other = fs !! other)
         (store_trace fs cache_file d) /\
  Forall (fun fs' : gmap str cache_blob =>
            fs' !! cache_file = Some Truncated \/
            fs' !! cache_file = Some (Pickled d))
         (store_trace fs cache_file d) /\
  cache_probe (open_wb fs cache_file) cache_file = None.
Proof.
  unfold store_trace, store, dump_close, open_wb, cache_probe.
  split; [reflexivity|]. split; [by rewrite lookup_insert_eq|].
  split; [|split].
  - constructor; [|constructor; [|constructor]];
      intros other Hne; by rewrite ?lookup_insert_ne by done.
  - constructor; [|constructor; [|constructor]];
      rewrite lookup_insert_eq; auto.
  - by rewrite lookup_insert_eq.
Qed.

Lemma store_in_place_witness :
  store {[txt "c.pkl.gz" := Pickled (sample_data true)]} (txt "c.pkl.gz")
        (sample_data false) !! txt "c.pkl.gz"
  = Some (Pickled (sample_data false)) /\
  open_wb {[txt "c.pkl.gz" := Pickled (sample_data true)]} (txt "c.pkl.gz")
    !! txt "d.pkl.gz" = None.
Proof.
  pose proof (store_in_place
    {[txt "c.pkl.gz" := Pickled (sample_data true)]} (txt "c.pkl.gz")
    (sample_data false)) as (_ & Hnew & Hothers & _).
  split; [exact Hnew|].
  apply Forall_cons in Hothers as [Hopen _].
  rewrite (Hopen (txt "d.pkl.gz")) by (vm_compute; discriminate).
  reflexivity.
Defined.

(** ** Bookmarks: what a load sees after an asynchronous save *)

Lemma load_bookmark_cached (self : BookmarkManager)
    (fl : gmap str bookmark_blob) (book_path : str) (page : Z) :
  _cache self !! book_path = Some page ->
  load_bookmark self fl book_path = (page, self).
Proof. intros H. unfold load_bookmark. by rewrite H. Qed.

Lemma pending_after_async (b : bookmarks) (book_path : str) (p : Z) :
  pending (save_bookmark_async b book_path p) !! length (pending b)
  = Some (book_path, p).
Proof. cbn. by apply list_lookup_middle. Qed.

(** C4, as stated, fails on the fresh store: right after
    [save_bookmark_async] the load still gives the default page, and it
    still does after the thread has run with a write that failed. *)
Lemma load_after_save_async_stale :
  load (save_bookmark_async fresh_bookmarks (txt "/home/pi/books/moby.epub") 5)
       (txt "/home/pi/books/moby.epub") ≠ 5 /\
  load (run_save 0 OpenFails
          (save_bookmark_async fresh_bookmarks (txt "/home/pi/books/moby.epub") 5))
       (txt "/home/pi/books/moby.epub") ≠ 5.
Proof. split; vm_compute; discriminate. Qed.

(** C4, amended. [save_bookmark_async] itself changes neither the
    in-memory map nor the files; the in-memory value is set by the
    background thread, after its write has succeeded, and from then on a
    load returns the saved page; when the write fails the in-memory map is
    left as it was. *)
Theorem saved_page_visible_after_write (b : bookmarks) (book_path : str)
    (p : Z) :
  let b1 := save_bookmark_async b book_path p in
  let i := length (pending b) in
  manager b1 = manager b /\ files b1 = files b /\
  load b1 book_path = load b book_path /\
  load (run_save i WriteOk b1) book_path = p /\
  _cache (manager (run_save i OpenFails b1)) = _cache (manager b) /\
  _cache (manager (run_save i DumpFails b1)) = _cache (manager b).
Proof.
  intros b1 i. subst b1 i.
  split; [reflexivity|]. split; [reflexivity|]. split; [reflexivity|].
  unfold run_save. rewrite pending_after_async.
  repeat split.
  unfold load. cbn.
  erewrite load_bookmark_cached; [reflexivity|].
  cbn. by rewrite lookup_insert_eq.
Qed.

(** ** Refresh Book and the cached artifact *)

(** The fingerprint of the cache file covers the path, the modification
    time and the size. *)
Lemma moby_fingerprint :
  cache_file_name (expanduser moby_world (CACHE_DIR moby_world))
    (hash16 (cache_key moby_path {| st_mtime := txt "1700000000.5";
                                    st_size := 1048576 |}))
  = moby_cache_file.
Proof. vm_compute. reflexivity. Qed.

(** [refresh_current_book] hashes the path alone. *)
Lemma moby_refresh_file :
  cache_file_name (CACHE_DIR moby_world) (hash16 moby_path)
  = txt "/home/pi/.ebook_cache/72e2f8b3b23fcb2b.pkl.gz".
Proof. vm_compute. reflexivity. Qed.

(** Whenever the file name that [refresh_current_book] computes differs
    from the one [extract_text_fast] uses, a cached full artifact survives
    the refresh and is what the reload returns: no quick pass runs and no
    background thread is started. *)
Lemma refresh_misses_fingerprint (w : world) (f : font) (s : system)
    (st : stat_result) (d : cache_data) :
  truthy (book_path (app s)) = true ->
  os_stat w (book_path (app s)) = Some st ->
  let fingerprint_file :=
    cache_file_name (expanduser w (CACHE_DIR w))
      (hash16 (cache_key (book_path (app s)) st)) in
  cache_file_name (CACHE_DIR w) (hash16 (book_path (app s))) ≠ fingerprint_file ->
  cache s !! fingerprint_file = Some (Pickled d) ->
  cd_partial d = false ->
  exists s', refresh_current_book w f s = Some s' /\
    cache s' !! fingerprint_file = Some (Pickled d) /\
    pages (app s') = cd_pages d /\
    threads s' = threads s.
Proof.
  intros Hpath Hstat file Hne Hfile Hfull.
  unfold refresh_current_book. rewrite Hpath. cbn [negb].
  set (cache' := if bool_decide _ then _ else _).
  assert (Hc : cache' !! file = Some (Pickled d)).
  { subst cache'. case_bool_decide; [|done]. by rewrite lookup_delete_ne. }
  unfold extract_text_fast. rewrite Hstat. fold file.
  unfold cache_probe. rewrite Hc, Hfull.
  eexists. split; [reflexivity|]. cbn.
  split; [done|]. split; [done|]. by rewrite app_nil_r.
Qed.

(** C1. With the full artifact of the open book in the cache, Refresh Book
    removes nothing: the file that [extract_text_fast] keys by path,
    modification time and size is still there afterwards, the reload
    inside the refresh returns the cached pages without starting a
    background thread, and a later open is served from the cache again. *)
Theorem refresh_keeps_cached_artifact :
  exists s',
    refresh_current_book moby_world (mono_font 10 17) moby_open = Some s' /\
    cache s' !! moby_cache_file = Some (Pickled moby_full) /\
    pages (app s') = cd_pages moby_full /\
    threads s' = [] /\
    (o_job <$> extract_text_fast moby_world (mono_font 10 17) moby_path (cache s'))
      = Some None.
Proof.
  destruct (refresh_misses_fingerprint moby_world (mono_font 10 17) moby_open
              {| st_mtime := txt "1700000000.5"; st_size := 1048576 |}
              moby_full) as (s' & Hr & Hc & Hp & Ht).
  - reflexivity.
  - reflexivity.
  - cbn [app moby_open book_path]. rewrite moby_fingerprint, moby_refresh_file.
    vm_compute. discriminate.
  - cbn [app moby_open book_path cache]. rewrite moby_fingerprint.
    apply lookup_singleton_eq.
  - reflexivity.
  - cbn [app moby_open book_path] in Hc. rewrite moby_fingerprint in Hc.
    exists s'. split; [exact Hr|]. split; [exact Hc|]. split; [exact Hp|].
    split; [exact Ht|].
    unfold extract_text_fast. cbn [os_stat moby_world].
    rewrite moby_fingerprint. unfold cache_probe. rewrite Hc. reflexivity.
Qed.

(** Had the artifact been absent, the same open runs the quick pass, stores
    a partial artifact and starts the background thread. *)
Lemma moby_uncached_open :
  exists o, extract_text_fast moby_world (mono_font 10 17) moby_path ∅ = Some o /\
    o_pages o = [[txt "Call me Ishmael."]] /\
    (cd_partial <$> cache_probe_any (o_cache o) moby_cache_file) = Some true /\
    is_Some (o_job o).
Proof.
  eexists. split; [reflexivity|]. vm_compute. eauto.
Qed.

(** ** Chapter detection *)

Lemma first_occurrences_subset (l : list str) (x : str) :
  x ∈ first_occurrences l -> x ∈ l.
Proof.
  induction l as [|y l IH]; cbn; [done|].
  rewrite !elem_of_cons, list_elem_of_filter. naive_solver.
Qed.

Lemma first_occurrences_NoDup (l : list str) : NoDup (first_occurrences l).
Proof.
  induction l as [|x l IH]; cbn; [constructor|].
  constructor.
  - rewrite list_elem_of_filter. naive_solver.
  - by apply NoDup_filter.
Qed.

(** The loop with the [seen] set computes the first occurrences of the
    trimmed non-empty titles that are not in [seen] yet. *)
Lemma dedup_loop (l : list str) (seen : gset str) (acc : list str) :
  (fold_left dedup_step l (seen, acc)).2
  = acc ++ filter (fun x => x ∉ seen)
             (first_occurrences (filter (fun t => truthy t = true) (strip <$> l))).
Proof.
  revert seen acc. induction l as [|c l IH]; intros seen acc.
  - cbn. by rewrite app_nil_r.
  - cbn [fold_left fmap list_fmap]. unfold dedup_step at 2.
    rewrite filter_cons.
    destruct (truthy (strip c)) eqn:Ht; cbn [andb].
    + rewrite decide_True by done. cbn [first_occurrences].
      rewrite filter_cons. case_bool_decide as Hs.
      * case_decide; [|done].
        rewrite IH, <- app_assoc. cbn. f_equal. f_equal.
        rewrite list_filter_filter. apply list_filter_iff.
        intros x. set_solver.
      * case_decide; [done|].
        rewrite IH. f_equal.
        rewrite list_filter_filter. apply list_filter_iff.
        intros x. split; [|naive_solver].
        intros Hx. split; [done|]. intros ->. done.
    + rewrite decide_False by done. apply IH.
Qed.

Lemma filter_all {A} (P : A -> Prop) `{!∀ x, Decision (P x)} (l : list A) :
  (forall x, P x) -> filter P l = l.
Proof.
  intros HP. induction l as [|x l IH]; [done|].
  rewrite filter_cons_True by done. by rewrite IH.
Qed.

Lemma chapters_of_book_spec (b : book) :
  chapters_of_book b = take 20 (first_occurrences (trimmed_titles b)).
Proof.
  unfold chapters_of_book, trimmed_titles.
  pose proof (dedup_loop (candidate_chapters b) ∅ []) as H.
  destruct (fold_left dedup_step (candidate_chapters b) (∅, [])) as [seen cl].
  cbn in H. rewrite H. f_equal.
  apply filter_all. intros x. set_solver.
Qed.

(** C10. For every document, [extract_chapters_from_epub] returns at most
    20 titles without duplicates: the first 20 of the trimmed non-empty
    candidate titles, each kept at its first occurrence (and no title when
    the document cannot be read). *)
Theorem chapters_capped_unique (w : world) (book_path : str) :
  let r := extract_chapters_from_epub w book_path in
  (length r <= 20)%nat /\ NoDup r /\
  r = match read_epub w book_path with
      | Some b => take 20 (first_occurrences (trimmed_titles b))
      | None => []
      end.
Proof.
  intros r. subst r. unfold extract_chapters_from_epub.
  destruct (read_epub w book_path) as [b|].
  - rewrite chapters_of_book_spec. repeat split.
    + rewrite length_take. lia.
    + eapply sublist_NoDup; [apply first_occurrences_NoDup|apply sublist_take].
  - repeat split; [cbn; lia|constructor].
Qed.

Example chapters_example :
  chapters_of_book
    {| toc := [TocLink (Some (txt " One ")); TocSection; TocLink None;
               TocLink (Some (txt "Two")); TocLink (Some (txt "  "))];
       get_items :=
         [OtherItem; Document None;
          Document (Some {| doc_text := []; doc_headings :=
            [txt "Two"; txt "Three "; txt "One"; repeat "x"%char 100;
             txt "Four"] |})] |}
  = [txt "One"; txt "Two"; txt "Three"; txt "Four"].
Proof. vm_compute. reflexivity. Qed.

(** ** The quick pass *)

Lemma full_step_acc (items : list item) (acc : list str) :
  fold_left full_step items acc = acc ++ doc_texts items.
Proof.
  unfold doc_texts. revert acc.
  induction items as [|it items IH]; intros acc; cbn [fold_left].
  - by rewrite app_nil_r.
  - rewrite IH, (IH (full_step [] it)).
    destruct it as [|[d|]]; cbn; by rewrite <- ?app_assoc, ?app_nil_r.
Qed.

Lemma doc_texts_cons (it : item) (items : list item) :
  doc_texts (it :: items) = full_step [] it ++ doc_texts items.
Proof. unfold doc_texts at 1. cbn [fold_left]. apply full_step_acc. Qed.

Lemma prefix_snoc_inv {A} (p l : list A) (x : A) :
  p `prefix_of` l ++ [x] -> p = l ++ [x] \/ p `prefix_of` l.
Proof.
  intros [k Hk]. destruct k as [|y k _] using rev_ind.
  - left. by rewrite app_nil_r in Hk.
  - right. rewrite app_assoc in Hk. apply app_inj_tail in Hk as [-> _].
    by exists k.
Qed.

(** The loop invariant: so far fewer than 30 documents were taken and no
    prefix of them reaches the word target. *)
Lemma quick_items_inv (items : list item) (parts : list str) (n : Z) :
  n = Z.of_nat (length parts) -> n < 30 ->
  (forall p, p `prefix_of` parts -> word_count p < target_words) ->
  let r := quick_items items parts n in
  (length r <= 30)%nat /\
  (exists k, r = parts ++ take k (doc_texts items)) /\
  (forall p, p `prefix_of` r -> p ≠ r ->
     word_count p < target_words /\ (length p < 30)%nat) /\
  (r ≠ parts ++ doc_texts items ->
     target_words <= word_count r \/ length r = 30%nat).
Proof.
  revert parts n. induction items as [|it items IH]; intros parts n Hn Hlt Hwc.
  - cbn. split; [lia|]. split; [|split].
    + exists 0%nat. cbn. by rewrite app_nil_r.
    + intros p Hp Hne. split; [by apply Hwc|].
      apply prefix_length in Hp. lia.
    + rewrite app_nil_r. done.
  - destruct it as [|[d|]].
    + cbn [quick_items]. rewrite doc_texts_cons. by apply IH.
    + cbn [quick_items]. rewrite doc_texts_cons. cbn [full_step].
      set (t := strip (doc_text d)).
      destruct (orb _ _) eqn:Hbreak.
      * split; [rewrite length_app; cbn; lia|]. split; [|split].
        -- exists 1%nat. reflexivity.
        -- intros p [->|Hp]%prefix_snoc_inv Hne; [done|].
           split; [by apply Hwc|]. apply prefix_length in Hp. lia.
        -- intros _. apply orb_true_iff in Hbreak as [Hb|Hb].
           ++ left. lia.
           ++ right. rewrite length_app. cbn. lia.
      * apply orb_false_iff in Hbreak as [Hb1 Hb2].
        destruct (IH (parts ++ [t]) (n + 1)) as (Hlen & [k Hk] & Hpre & Hstop).
        -- rewrite length_app. cbn. lia.
        -- lia.
        -- intros p [->|Hp]%prefix_snoc_inv; [lia|by apply Hwc].
        -- split; [exact Hlen|]. split; [|split].
           ++ exists (S k). rewrite Hk, <- app_assoc. reflexivity.
           ++ exact Hpre.
           ++ rewrite <- app_assoc in Hstop. exact Hstop.
    + cbn [quick_items]. rewrite doc_texts_cons. by apply IH.
Qed.

(** What an open returns when nothing usable is cached and the document
    can be read: the normalized text of the quick pass, stored as a
    partial artifact, with the background thread started. *)
Lemma extract_text_fast_uncached (w : world) (f : font) (path : str)
    (fs : gmap str cache_blob) (st : stat_result) (b : book) :
  os_stat w path = Some st ->
  cache_probe fs (cache_file_name (expanduser w (CACHE_DIR w))
                    (hash16 (cache_key path st))) = None ->
  read_epub w path = Some b ->
  line_height f ≠ 0 ->
  exists o, extract_text_fast w f path fs = Some o /\
    o_text o = clean_text (join [NL] (quick_items (get_items b) [] 0)) /\
    (cd_partial <$> cache_probe_any (o_cache o)
       (cache_file_name (expanduser w (CACHE_DIR w))
          (hash16 (cache_key path st)))) = Some true /\
    is_Some (o_job o).
Proof.
  intros Hstat Hprobe Hread Hlh.
  unfold extract_text_fast. rewrite Hstat, Hprobe.
  unfold process_initial. rewrite Hread.
  unfold paginate_initial, max_lines_per_page.
  destruct (Z.eqb_spec (line_height f) 0) as [|_]; [done|].
  eexists. split; [reflexivity|]. cbn.
  split; [reflexivity|]. split; [|by eexists].
  unfold cache_probe_any, store, dump_close. by rewrite lookup_insert_eq.
Qed.

(** C8. The quick pass takes the documents that decode in document order
    and stops after the first one with which the running word count
    reaches 10,000, or after the thirtieth: its parts are a prefix of what
    the full pass would take, at most 30 of them, no proper prefix of them
    reaches the word target, and they fall short of the whole document
    only when one of the two caps was hit. *)
Theorem quick_pass_bounded (items : list item) :
  let parts := quick_items items [] 0 in
  (length parts <= 30)%nat /\
  parts `prefix_of` doc_texts items /\
  (forall p, p `prefix_of` parts -> p ≠ parts ->
     word_count p < target_words /\ (length p < 30)%nat) /\
  (parts ≠ doc_texts items ->
     target_words <= word_count parts \/ length parts = 30%nat).
Proof.
  destruct (quick_items_inv items [] 0) as (Hlen & [k Hk] & Hpre & Hstop).
  - reflexivity.
  - lia.
  - intros p ->%prefix_nil_inv. reflexivity.
  - cbn. split; [exact Hlen|]. split; [|split].
    + rewrite Hk. apply prefix_take.
    + exact Hpre.
    + exact Hstop.
Qed.

Lemma quick_pass_bounded_witness :
  length (quick_items forty_docs [] 0) = 30%nat /\
  quick_items forty_docs [] 0 ≠ doc_texts forty_docs.
Proof.
  assert (Hne : quick_items forty_docs [] 0 ≠ doc_texts forty_docs).
  { vm_compute. discriminate. }
  split; [|exact Hne].
  destruct (proj2 (proj2 (proj2 (quick_pass_bounded forty_docs))) Hne)
    as [Hw|Hl]; [|exact Hl].
  vm_compute in Hw. exfalso. apply Hw. reflexivity.
Defined.

(** ** Words of a text *)

Section Words.

Implicit Types (s t w : str) (c : ascii).

Lemma split_ws_space c s : is_space c = true -> split_ws (c :: s) = split_ws s.
Proof. intros H. cbn. by rewrite H. Qed.

Lemma split_ws_head c s : is_space c = false -> split_ws (c :: s) ≠ [].
Proof.
  intros H. cbn. rewrite H. destruct s as [|d s]; [done|].
  destruct (is_space d); [done|]. by destruct (split_ws (d :: s)).
Qed.

Lemma split_ws_cons x d t :
  is_space x = false ->
  split_ws (x :: d :: t) =
    if is_space d then [x] :: split_ws (d :: t)
    else match split_ws (d :: t) with
         | w :: ws => (x :: w) :: ws
         | [] => [[x]]
         end.
Proof. intros H. cbn. rewrite H. reflexivity. Qed.

(** Splitting distributes over a white-space character. *)
Lemma split_ws_app_space s c t :
  is_space c = true -> split_ws (s ++ c :: t) = split_ws s ++ split_ws t.
Proof.
  intros Hc. induction s as [|x s IH].
  - by apply split_ws_space.
  - destruct (is_space x) eqn:Hx.
    + rewrite <- app_comm_cons, !(split_ws_space x) by done. exact IH.
    + destruct s as [|d s].
      * cbn. by rewrite Hx, Hc.
      * rewrite <- !app_comm_cons in *. rewrite !split_ws_cons by done.
        destruct (is_space d) eqn:Hd.
        -- by rewrite IH.
        -- rewrite IH.
           pose proof (split_ws_head d s Hd).
           by destruct (split_ws (d :: s)).
Qed.

Lemma split_ws_token w : is_word_token w -> split_ws w = [w].
Proof.
  intros [Hne Hw]. induction Hw as [|x t Hx Ht IH]; [done|].
  destruct t as [|d t]; [cbn; by rewrite Hx|].
  rewrite split_ws_cons by done.
  inversion Ht as [|? ? Hd _]; subst. rewrite Hd.
  by rewrite IH.
Qed.

Lemma split_ws_tokens s : Forall is_word_token (split_ws s).
Proof.
  induction s as [|x s IH]; [constructor|].
  destruct (is_space x) eqn:Hx; [by rewrite split_ws_space|].
  destruct s as [|d s].
  - cbn. rewrite Hx. repeat constructor; [done|done].
  - rewrite split_ws_cons by done. destruct (is_space d) eqn:Hd.
    + constructor; [|done]. repeat constructor; done.
    + destruct (split_ws (d :: s)) as [|w ws].
      * repeat constructor; done.
      * inversion IH as [|? ? [Hne Hw] Hws]; subst.
        constructor; [|done]. split; [done|]. by constructor.
Qed.

Lemma split_ws_lstrip s : split_ws (lstrip s) = split_ws s.
Proof.
  induction s as [|c s IH]; [done|].
  cbn [lstrip]. destruct (is_space c) eqn:Hc; [|done].
  by rewrite split_ws_space.
Qed.

Lemma rstrip_head s : rstrip s ≠ [] -> head (rstrip s) = head s.
Proof.
  destruct s as [|c s]; [done|]. cbn.
  destruct (rstrip s); [|done]. by destruct (is_space c).
Qed.

Lemma split_ws_rstrip s : split_ws (rstrip s) = split_ws s.
Proof.
  induction s as [|c s IH]; [done|].
  cbn [rstrip]. destruct (rstrip s) as [|d' t'] eqn:Hr.
  - cbn in IH. destruct (is_space c) eqn:Hc.
    + by rewrite split_ws_space.
    + cbn. rewrite Hc. destruct s as [|d s]; [done|].
      destruct (is_space d) eqn:Hd; [by rewrite <- IH|].
      by pose proof (split_ws_head d s Hd).
  - destruct (is_space c) eqn:Hc.
    + rewrite !(split_ws_space c) by done. exact IH.
    + assert (Hh : head (rstrip s) = head s) by (apply rstrip_head; by rewrite Hr).
      rewrite Hr in Hh. destruct s as [|d s]; [done|].
      cbn in Hh. injection Hh as ->.
      rewrite !split_ws_cons by done.
      destruct (is_space d); by rewrite IH.
Qed.

Lemma split_ws_strip s : split_ws (strip s) = split_ws s.
Proof. unfold strip. by rewrite split_ws_rstrip, split_ws_lstrip. Qed.

Lemma join_cons sep p q (ps : list str) :
  join sep (p :: q :: ps) = p ++ sep ++ join sep (q :: ps).
Proof. reflexivity. Qed.

Lemma split_on_nonempty c s : split_on c s ≠ [].
Proof.
  destruct s as [|x s]; [done|]. cbn.
  case_bool_decide; [done|]. by destruct (split_on c s).
Qed.

(** [sep.join(s.split(sep))] is [s]. *)
Lemma join_split_on c s : join [c] (split_on c s) = s.
Proof.
  induction s as [|x s IH]; [done|].
  cbn [split_on]. pose proof (split_on_nonempty c s) as Hne.
  case_bool_decide as Hx.
  - subst x. destruct (split_on c s) as [|p ps]; [done|].
    rewrite join_cons, IH. reflexivity.
  - destruct (split_on c s) as [|p ps]; [done|].
    destruct ps as [|q ps].
    + cbn in *. by rewrite IH.
    + rewrite join_cons in *. rewrite <- IH. reflexivity.
Qed.

(** The words of joined lines are the words of the lines. *)
Lemma split_ws_join (ls : list str) :
  split_ws (join [NL] ls) = concat (split_ws <$> ls).
Proof.
  induction ls as [|p ls IH]; [done|].
  destruct ls as [|q ls].
  - cbn. by rewrite app_nil_r.
  - change (join [NL] (p :: q :: ls)) with (p ++ NL :: join [NL] (q :: ls)).
    rewrite split_ws_app_space by done.
    by rewrite IH.
Qed.

Lemma split_ws_paragraphs s :
  concat (split_ws <$> split_on NL s) = split_ws s.
Proof. by rewrite <- split_ws_join, join_split_on. Qed.

End Words.

(** ** Grouping lines into pages keeps the non-blank lines *)

Section Pages.

Implicit Types (l line : str) (ls cur : list str) (pages : list page).

Lemma nonblank_app ls1 ls2 : nonblank (ls1 ++ ls2) = nonblank ls1 ++ nonblank ls2.
Proof. apply filter_app. Qed.

Lemma nonblank_cons l ls : nonblank (l :: ls) = nonblank [l] ++ nonblank ls.
Proof. exact (nonblank_app [l] ls). Qed.

Lemma nonblank_blank line : str_eqb line [] = true -> nonblank [line] = [].
Proof. intros ->%bool_decide_eq_true. reflexivity. Qed.

Lemma nonblank_line line : str_eqb line [] = false -> nonblank [line] = [line].
Proof. intros H%bool_decide_eq_false. by destruct line. Qed.

Lemma nonblank_elem l ls : l ∈ nonblank ls <-> l ∈ ls /\ l ≠ [].
Proof.
  unfold nonblank. rewrite list_elem_of_filter. destruct l; naive_solver.
Qed.

Lemma split_step_nonblank maxl (st : list page * page) line :
  nonblank (state_lines (split_step maxl st line))
  = nonblank (state_lines st) ++ nonblank [line].
Proof.
  destruct st as [pages cur]. unfold split_step, state_lines.
  destruct (maxl <=? _).
  - destruct cur as [|c cur]; cbn [truthy fst snd];
      destruct (str_eqb line []) eqn:Hb; cbn [fst snd];
      rewrite ?concat_app, ?nonblank_app, ?(nonblank_blank line Hb);
      cbn [concat]; rewrite ?app_nil_r, ?nonblank_app; done.
  - cbn [fst snd]. by rewrite !nonblank_app, app_assoc.
Qed.

Lemma split_loop_nonblank maxl ls (st : list page * page) :
  nonblank (state_lines (fold_left (split_step maxl) ls st))
  = nonblank (state_lines st) ++ nonblank ls.
Proof.
  revert st. induction ls as [|l ls IH]; intros st; cbn [fold_left].
  - by rewrite app_nil_r.
  - by rewrite IH, split_step_nonblank, <- app_assoc, <- nonblank_cons.
Qed.

Lemma split_pages_nonblank maxl ls :
  nonblank_lines (split_pages maxl ls) = nonblank ls.
Proof.
  unfold split_pages, nonblank_lines.
  pose proof (split_loop_nonblank maxl ls ([], [])) as H.
  destruct (fold_left (split_step maxl) ls ([], [])) as [pages cur].
  unfold state_lines in H. cbn [fst snd concat app] in H.
  destruct cur as [|c cur]; cbn [truthy].
  - by rewrite app_nil_r in H.
  - rewrite concat_app. cbn [concat]. by rewrite app_nil_r.
Qed.

Lemma pop_blank_nonblank (p : page) : nonblank (pop_blank p) = nonblank p.
Proof.
  induction p as [|l p IH]; [done|].
  cbn [pop_blank]. destruct (pop_blank p) as [|l' p'].
  - rewrite (nonblank_cons l p), <- IH, app_nil_r.
    destruct (str_eqb l []) eqn:Hb; [|done].
    by rewrite nonblank_blank.
  - by rewrite (nonblank_cons l (l' :: p')), IH, <- nonblank_cons.
Qed.

Lemma clean_pages_nonblank pages :
  nonblank_lines (clean_pages pages) = nonblank_lines pages.
Proof.
  unfold nonblank_lines, clean_pages.
  induction pages as [|p pages IH]; [done|].
  cbn [map concat]. rewrite filter_cons, nonblank_app, <- (pop_blank_nonblank p).
  destruct (pop_blank p) as [|l p'].
  - rewrite decide_False by done. by rewrite IH.
  - rewrite decide_True by done. cbn [concat]. by rewrite nonblank_app, IH.
Qed.

Lemma lines_words_app ls1 ls2 :
  lines_words (ls1 ++ ls2) = lines_words ls1 ++ lines_words ls2.
Proof. unfold lines_words. by rewrite fmap_app, concat_app. Qed.

Lemma lines_words_cons l ls : lines_words (l :: ls) = split_ws l ++ lines_words ls.
Proof. reflexivity. Qed.

Lemma lines_words_snoc ls l : lines_words (ls ++ [l]) = lines_words ls ++ split_ws l.
Proof. by rewrite lines_words_app, lines_words_cons, app_nil_r. Qed.

Lemma lines_words_nonblank ls : lines_words (nonblank ls) = lines_words ls.
Proof.
  induction ls as [|l ls IH]; [done|].
  rewrite nonblank_cons, lines_words_cons, lines_words_app, IH.
  f_equal. destruct l as [|a l]; [reflexivity|].
  rewrite nonblank_line by (by apply bool_decide_eq_false).
  by rewrite lines_words_cons, app_nil_r.
Qed.

End Pages.

(** ** The greedy line filling of the full layout *)

Section Layout.

Variables (f : font) (W margin : Z).

Implicit Types (word cur : str) (all : list str).

Lemma test_line_words cur word :
  is_word_token word ->
  split_ws (test_line cur word) = split_ws cur ++ [word].
Proof.
  intros Hw. unfold test_line. destruct cur as [|c cur]; cbn [truthy].
  - by apply split_ws_token.
  - rewrite split_ws_strip.
    change ((c :: cur) ++ [SP] ++ word) with ((c :: cur) ++ SP :: word).
    rewrite split_ws_app_space by done. by rewrite (split_ws_token word).
Qed.

Lemma pack_word_words (st : list str * str) word :
  is_word_token word ->
  state_words (pack_word f W margin st word) = state_words st ++ [word].
Proof.
  intros Hw. destruct st as [all cur]. unfold pack_word, state_words.
  destruct (fits f W margin _); cbn [fst snd].
  - by rewrite test_line_words, app_assoc.
  - rewrite (split_ws_token word Hw).
    destruct cur as [|c cur]; cbn [truthy].
    + by rewrite app_nil_r.
    + by rewrite lines_words_snoc.
Qed.

Lemma pack_words_words (ws : list str) (st : list str * str) :
  Forall is_word_token ws ->
  state_words (fold_left (pack_word f W margin) ws st) = state_words st ++ ws.
Proof.
  intros Hws. revert st. induction Hws as [|w ws Hw _ IH]; intros st.
  - cbn. by rewrite app_nil_r.
  - cbn [fold_left]. by rewrite IH, pack_word_words, <- app_assoc.
Qed.

Lemma strip_blank (para : str) : truthy (strip para) = false -> split_ws para = [].
Proof.
  intros H. rewrite <- split_ws_strip. by destruct (strip para).
Qed.

Lemma layout_para_words all (para : str) :
  lines_words (layout_para f W margin all para) = lines_words all ++ split_ws para.
Proof.
  unfold layout_para. destruct (truthy (strip para)) eqn:Hp; cbn [negb].
  - pose proof (pack_words_words (split_ws (strip para)) (all, [])
                  (split_ws_tokens _)) as H.
    destruct (fold_left _ _ _) as [all' cur'].
    unfold state_words in H. cbn [fst snd] in H.
    rewrite app_nil_r, split_ws_strip in H. rewrite <- H.
    destruct cur' as [|c cur']; cbn [truthy].
    + by rewrite app_nil_r.
    + by rewrite lines_words_snoc.
  - rewrite (strip_blank para Hp), app_nil_r.
    destruct (last_not_blank all); [|done].
    rewrite lines_words_snoc. apply app_nil_r.
Qed.

Lemma layout_paras_words (paras : list str) all :
  lines_words (fold_left (layout_para f W margin) paras all)
  = lines_words all ++ lines_words paras.
Proof.
  revert all. induction paras as [|p paras IH]; intros all; cbn [fold_left].
  - by rewrite app_nil_r.
  - rewrite IH, layout_para_words, <- app_assoc. reflexivity.
Qed.

Lemma full_lines_words (text : str) :
  lines_words (full_lines f W margin text) = split_ws text.
Proof.
  unfold full_lines. rewrite layout_paras_words. apply split_ws_paragraphs.
Qed.

End Layout.

Lemma paginate_full_total (text : str) (f : font) (W H margin : Z) :
  line_height f ≠ 0 ->
  exists maxl,
    paginate_full text f W H margin
    = Some (clean_pages (split_pages maxl (full_lines f W margin text))).
Proof.
  intros Hlh. unfold paginate_full, max_lines_per_page.
  destruct (Z.eqb_spec (line_height f) 0); [done|]. eauto.
Qed.

Lemma paginate_full_nonblank (maxl : Z) (ls : list str) :
  nonblank_lines (clean_pages (split_pages maxl ls)) = nonblank ls.
Proof. by rewrite clean_pages_nonblank, split_pages_nonblank. Qed.

(** C6. For every text and every font with a non-zero line height,
    [paginate_full] returns pages whose non-blank lines, joined and split
    on white space, give exactly the words of the text in their order. *)
Theorem full_layout_covers_words (text : str) (f : font) (W H margin : Z) :
  line_height f ≠ 0 ->
  exists pages,
    paginate_full text f W H margin = Some pages /\
    split_ws (join [NL] (nonblank_lines pages)) = split_ws text.
Proof.
  intros Hlh. destruct (paginate_full_total text f W H margin Hlh) as [maxl Hp].
  eexists. split; [exact Hp|].
  rewrite split_ws_join, paginate_full_nonblank.
  fold (lines_words (nonblank (full_lines f W margin text))).
  by rewrite lines_words_nonblank, full_lines_words.
Qed.

Lemma full_layout_covers_words_witness :
  exists pages,
    paginate_full sample_text (mono_font 10 17) 100 120 4 = Some pages /\
    split_ws (join [NL] (nonblank_lines pages)) = split_ws sample_text.
Proof.
  apply (full_layout_covers_words sample_text (mono_font 10 17) 100 120 4).
  vm_compute. discriminate.
Defined.

(** ** No line wider than the page *)

Section Width.

Variables (f : font) (W margin : Z).

Lemma pack_word_ok (st : list str * str) (word : str) :
  fits f W margin word = true -> state_ok f W margin st ->
  state_ok f W margin (pack_word f W margin st word).
Proof.
  intros Hw [Hall Hcur]. destruct st as [all cur]. cbn [fst snd] in *.
  unfold pack_word. destruct (fits f W margin (test_line cur word)) eqn:Hfit.
  - split; [exact Hall|]. by right.
  - split; [|by right]. cbn [fst].
    destruct (truthy cur); [|exact Hall].
    apply Forall_app. split; [exact Hall|]. by apply Forall_singleton.
Qed.

Lemma pack_words_ok (ws : list str) (st : list str * str) :
  Forall (fun w => fits f W margin w = true) ws -> state_ok f W margin st ->
  state_ok f W margin (fold_left (pack_word f W margin) ws st).
Proof.
  intros Hws. revert st. induction Hws as [|w ws Hw _ IH]; intros st Hst.
  - exact Hst.
  - cbn [fold_left]. by apply IH, pack_word_ok.
Qed.

Lemma layout_para_ok (all : list str) (para : str) :
  Forall (fun w => fits f W margin w = true) (split_ws para) ->
  Forall (line_ok f W margin) all ->
  Forall (line_ok f W margin) (layout_para f W margin all para).
Proof.
  intros Hws Hall. unfold layout_para.
  destruct (truthy (strip para)); cbn [negb].
  - rewrite <- split_ws_strip in Hws.
    pose proof (pack_words_ok _ (all, []) Hws) as Hst.
    destruct (fold_left _ _ _) as [all' cur'].
    destruct Hst as [Hall' Hcur']; [split; [exact Hall|by left]|].
    cbn [fst snd] in *. destruct (truthy cur'); [|exact Hall'].
    apply Forall_app. split; [exact Hall'|]. by apply Forall_singleton.
  - destruct (last_not_blank all); [|exact Hall].
    apply Forall_app. split; [exact Hall|]. apply Forall_singleton. by left.
Qed.

Lemma layout_paras_ok (paras : list str) (all : list str) :
  Forall (fun w => fits f W margin w = true) (lines_words paras) ->
  Forall (line_ok f W margin) all ->
  Forall (line_ok f W margin) (fold_left (layout_para f W margin) paras all).
Proof.
  revert all. induction paras as [|p paras IH]; intros all Hws Hall.
  - exact Hall.
  - rewrite lines_words_cons in Hws. apply Forall_app in Hws as [Hp Hws].
    cbn [fold_left]. apply IH; [exact Hws|]. by apply layout_para_ok.
Qed.

Lemma full_lines_ok (text : str) :
  Forall (fun w => fits f W margin w = true) (split_ws text) ->
  Forall (line_ok f W margin) (full_lines f W margin text).
Proof.
  intros Hws. unfold full_lines. apply layout_paras_ok; [|constructor].
  unfold lines_words. by rewrite split_ws_paragraphs.
Qed.

End Width.

Lemma elem_of_concat {A} (x : A) (l : list A) (ls : list (list A)) :
  x ∈ l -> l ∈ ls -> x ∈ concat ls.
Proof.
  intros Hx Hl. induction Hl as [l ls|l l' ls _ IH]; cbn;
    apply elem_of_app; auto.
Qed.

Lemma fits_le (f : font) (W margin : Z) (line : str) :
  fits f W margin line = true <->
  (getlength f line <= inject_Z (W - 2 * margin))%Q.
Proof. apply Qle_bool_iff. Qed.

(** C7. For every text all of whose words measure at most
    [W - 2 * margin], and every font with a non-zero line height,
    [paginate_full] returns pages on which every non-blank line measures at
    most [W - 2 * margin]. *)
Theorem lines_within_width (text : str) (f : font) (W H margin : Z) :
  line_height f ≠ 0 ->
  (forall w, w ∈ split_ws text ->
     (getlength f w <= inject_Z (W - 2 * margin))%Q) ->
  exists pages,
    paginate_full text f W H margin = Some pages /\
    forall pg line, pg ∈ pages -> line ∈ pg -> line ≠ [] ->
      (getlength f line <= inject_Z (W - 2 * margin))%Q.
Proof.
  intros Hlh Hwords.
  destruct (paginate_full_total text f W H margin Hlh) as [maxl Hp].
  eexists. split; [exact Hp|].
  intros pg line Hpg Hline Hne.
  assert (Hin : line ∈ nonblank_lines
            (clean_pages (split_pages maxl (full_lines f W margin text)))).
  { apply nonblank_elem. split; [|exact Hne]. by eapply elem_of_concat. }
  rewrite paginate_full_nonblank in Hin. apply nonblank_elem in Hin as [Hin _].
  assert (Hok : Forall (line_ok f W margin) (full_lines f W margin text)).
  { apply full_lines_ok. apply Forall_forall. intros w Hw.
    apply fits_le. by apply Hwords. }
  rewrite Forall_forall in Hok. destruct (Hok line Hin) as [->|Hfit]; [done|].
  by apply fits_le.
Qed.

Lemma lines_within_width_witness :
  exists pages,
    paginate_full scenario_a (mono_font 7 17)
      DISPLAY_WIDTH DISPLAY_HEIGHT DISPLAY_MARGIN = Some pages /\
    forall pg line, pg ∈ pages -> line ∈ pg -> line ≠ [] ->
      (getlength (mono_font 7 17) line
       <= inject_Z (DISPLAY_WIDTH - 2 * DISPLAY_MARGIN))%Q.
Proof.
  apply (lines_within_width scenario_a (mono_font 7 17)
           DISPLAY_WIDTH DISPLAY_HEIGHT DISPLAY_MARGIN).
  - vm_compute. discriminate.
  - intros w Hw. apply fits_le. revert w Hw. apply Forall_forall.
    vm_compute. repeat constructor.
Defined.

(** ** The text normalizer *)

(** C5, as stated, fails: the first rule leaves a second apostrophe gap
    that overlaps the one it closes, and a second pass closes it. *)
Lemma clean_text_not_idempotent :
  clean_text (txt "a' b' c") = txt "a'b' c" /\
  clean_text (clean_text (txt "a' b' c")) = txt "a'b'c" /\
  clean_text (clean_text (txt "a' b' c")) ≠ clean_text (txt "a' b' c").
Proof.
  split; [vm_compute; reflexivity|].
  split; [vm_compute; reflexivity|vm_compute; discriminate].
Qed.

Section Substitution.

Implicit Types (m : matcher) (s t run rest : str) (c : ascii).

Lemma sub_from_fuel m (n1 n2 : nat) s :
  shrinking m -> (length s <= n1)%nat -> (length s <= n2)%nat ->
  sub_from m n1 s = sub_from m n2 s.
Proof.
  intros Hm. revert n2 s. induction n1 as [|n1 IH]; intros n2 s H1 H2.
  - destruct s; [|cbn in H1; lia]. by destruct n2.
  - destruct n2 as [|n2]; [destruct s; [done|cbn in H2; lia]|].
    destruct s as [|c t]; [done|]. cbn [sub_from].
    destruct (m (c :: t)) as [[repl rest]|] eqn:Hmatch.
    + apply Hm in Hmatch. cbn in *. f_equal. apply IH; lia.
    + cbn in *. f_equal. apply IH; lia.
Qed.

Lemma re_sub_copy m c t :
  shrinking m -> m (c :: t) = None -> re_sub m (c :: t) = c :: re_sub m t.
Proof.
  intros Hm Hnone. unfold re_sub. cbn [length sub_from]. by rewrite Hnone.
Qed.

Lemma re_sub_match m s repl rest :
  shrinking m -> m s = Some (repl, rest) ->
  re_sub m s = repl ++ re_sub m rest.
Proof.
  intros Hm Hmatch. pose proof (Hm _ _ _ Hmatch) as Hlen.
  unfold re_sub. destruct s as [|c t]; [cbn in Hlen; lia|].
  cbn [length sub_from]. rewrite Hmatch. f_equal.
  apply sub_from_fuel; [done|cbn in Hlen; lia|lia].
Qed.

Lemma has_match_false_id m s :
  shrinking m -> has_match m s = false -> re_sub m s = s.
Proof.
  intros Hm. induction s as [|c t IH]; [done|].
  cbn [has_match]. intros [Hhere Hlater]%orb_false_iff.
  apply bool_decide_eq_false in Hhere.
  destruct (m (c :: t)) eqn:Hmatch; [by destruct Hhere|].
  rewrite re_sub_copy by done. by rewrite IH.
Qed.

(** [span] *)
Lemma span_app (p : ascii -> bool) s :
  s = (span p s).1 ++ (span p s).2.
Proof.
  induction s as [|c t IH]; [done|]. cbn.
  destruct (p c); [|done]. destruct (span p t). cbn in *. by f_equal.
Qed.

Lemma span_all (p : ascii -> bool) s : Forall (fun c => p c = true) (span p s).1.
Proof.
  induction s as [|c t IH]; [constructor|]. cbn.
  destruct (p c) eqn:Hc; [|constructor]. destruct (span p t). by constructor.
Qed.

Lemma span_stop (p : ascii -> bool) s :
  match (span p s).2 with [] => True | d :: _ => p d = false end.
Proof.
  induction s as [|c t IH]; [done|]. cbn.
  destruct (p c) eqn:Hc; [|done]. by destruct (span p t).
Qed.

Lemma span_space_of_app run rest :
  Forall (fun c => is_space c = true) run -> no_lead_space rest ->
  span is_space (run ++ rest) = (run, rest).
Proof.
  intros Hrun Hrest. induction Hrun as [|c run Hc _ IH].
  - change ([] ++ rest) with rest.
    destruct rest as [|d rest]; [done|]. cbn [span]. cbn in Hrest.
    by rewrite Hrest.
  - rewrite <- app_comm_cons. cbn [span]. by rewrite Hc, IH.
Qed.

Lemma after_last_nl_length run : (length (after_last_nl run) <= length run)%nat.
Proof.
  induction run as [|c t IH]; [done|]. cbn.
  case_bool_decide; [lia|]. case_bool_decide; cbn; lia.
Qed.

Lemma apostrophe_word_shrinking : shrinking apostrophe_word.
Proof.
  intros s repl rest. unfold apostrophe_word.
  destruct s as [|a [|q t]]; [done|done|].
  destruct (_ && _); [|done].
  pose proof (span_app is_space t) as Ht.
  destruct (span is_space t) as [[|w ws] [|b r]]; try done.
  destruct (is_word b); [|done]. intros [= <- <-].
  rewrite Ht. cbn. rewrite length_app. cbn. lia.
Qed.

Lemma apostrophe_suffix_shrinking : shrinking apostrophe_suffix.
Proof.
  intros s repl rest. unfold apostrophe_suffix.
  destruct s as [|a [|q t]]; [done|done|].
  destruct (_ && _); [|done].
  pose proof (span_app is_space t) as Ht.
  destruct (span is_space t) as [[|w ws] [|b r]]; try done.
  destruct (_ && _); [|done]. intros [= <- <-].
  rewrite Ht. cbn. rewrite length_app. cbn. lia.
Qed.

Lemma colon_space_shrinking : shrinking colon_space.
Proof.
  intros s repl rest. unfold colon_space.
  destruct s as [|c t]; [done|]. case_bool_decide; [|done].
  pose proof (span_app is_space t) as Ht.
  destruct (span is_space t) as [[|w ws] r]; [done|]. intros [= <- <-].
  rewrite Ht. cbn. rewrite length_app. lia.
Qed.

Lemma period_space_shrinking : shrinking period_space.
Proof.
  intros s repl rest. unfold period_space.
  destruct s as [|c t]; [done|]. case_bool_decide; [|done].
  pose proof (span_app is_space t) as Ht.
  destruct (span is_space t) as [[|w [|w' ws]] r]; [done|done|].
  intros [= <- <-]. rewrite Ht. cbn. rewrite length_app. lia.
Qed.

Lemma blank_lines_shrinking : shrinking blank_lines.
Proof.
  intros s repl rest. unfold blank_lines.
  destruct s as [|c t]; [done|]. case_bool_decide; [|done].
  pose proof (span_app is_space t) as Ht.
  destruct (span is_space t) as [run r]. destruct (_ <=? _)%nat; [|done].
  intros [= <- <-]. rewrite Ht. cbn.
  pose proof (after_last_nl_length run). rewrite !length_app. lia.
Qed.

End Substitution.

Section Runs.

Implicit Types (g : option ascii -> str -> str) (prev : option ascii).
Implicit Types (acc run s rest : str) (c : ascii).

Lemma all_space_snoc acc c : all_space acc -> is_space c = true -> all_space (acc ++ [c]).
Proof. intros Ha Hc. apply Forall_app. split; [done|]. by constructor. Qed.

Lemma map_runs_space g prev acc run s :
  all_space run ->
  map_runs g prev acc (run ++ s) = map_runs g prev (acc ++ run) s.
Proof.
  intros H. revert acc. induction H as [|c run Hc _ IH]; intros acc.
  - by rewrite app_nil_r.
  - rewrite <- app_comm_cons. cbn [map_runs]. rewrite Hc, IH.
    by rewrite <- app_assoc.
Qed.

Lemma map_runs_run g prev run s :
  all_space run -> map_runs g prev [] (run ++ s) = map_runs g prev run s.
Proof. intros H. by rewrite map_runs_space. Qed.

Lemma map_runs_flush g prev prev' acc rest :
  (forall p, g p [] = []) -> no_lead_space rest ->
  map_runs g prev acc rest = g prev acc ++ map_runs g prev' [] rest.
Proof.
  intros Hg Hrest. destruct rest as [|d rest]; cbn [map_runs].
  - by rewrite Hg, app_nil_r.
  - cbn in Hrest. by rewrite Hrest, Hg.
Qed.

(** Two run-wise rewritings in a row are one, when the first produces
    white space only. *)
Lemma map_runs_compose g g' prev acc s :
  (forall p run, all_space run -> all_space (g p run)) ->
  all_space acc ->
  map_runs g' prev [] (map_runs g prev acc s)
  = map_runs (fun p run => g' p (g p run)) prev acc s.
Proof.
  intros Hg. revert prev acc. induction s as [|c t IH]; intros prev acc Hacc;
    cbn [map_runs].
  - rewrite <- (app_nil_r (g prev acc)) at 1.
    rewrite map_runs_run by auto. reflexivity.
  - destruct (is_space c) eqn:Hc.
    + apply IH. by apply all_space_snoc.
    + rewrite map_runs_run by auto. cbn [map_runs].
      rewrite Hc. by rewrite IH by constructor.
Qed.

Lemma map_runs_ext g g' prev acc s :
  (forall p run, all_space run -> g p run = g' p run) ->
  all_space acc ->
  map_runs g prev acc s = map_runs g' prev acc s.
Proof.
  intros Hg. revert prev acc. induction s as [|c t IH]; intros prev acc Hacc;
    cbn [map_runs].
  - by apply Hg.
  - destruct (is_space c) eqn:Hc.
    + apply IH. by apply all_space_snoc.
    + rewrite Hg by done. f_equal. f_equal. apply IH. constructor.
Qed.

Lemma re_sub_ext (m m' : matcher) s :
  (forall t, m t = m' t) -> re_sub m s = re_sub m' s.
Proof.
  intros Hm. unfold re_sub. generalize (length s) as n. intros n. revert s.
  induction n as [|n IH]; intros s; [done|].
  destruct s as [|c t]; [done|]. cbn [sub_from]. rewrite <- Hm.
  destruct (m (c :: t)) as [[repl rest]|]; by rewrite IH.
Qed.

(** *** The rules that start at a colon or a period *)

Section Trigger.

Variables (K : ascii) (cond : str -> bool).
Hypothesis K_not_space : is_space K = false.
Hypothesis cond_nil : cond [] = false.

Lemma trigger_shrinking : shrinking (trigger K cond).
Proof.
  intros s repl rest. unfold trigger.
  destruct s as [|c t]; [done|]. case_bool_decide; [|done].
  pose proof (span_app is_space t) as Ht.
  destruct (span is_space t) as [run r]. destruct (cond run); [|done].
  intros [= <- <-]. rewrite Ht. cbn. rewrite length_app. lia.
Qed.

Lemma trigger_space c t : is_space c = true -> trigger K cond (c :: t) = None.
Proof.
  intros Hc. unfold trigger. case_bool_decide; [|done]. congruence.
Qed.

Lemma trigger_skip_space run rest :
  all_space run ->
  re_sub (trigger K cond) (run ++ rest) = run ++ re_sub (trigger K cond) rest.
Proof.
  intros H. induction H as [|c run Hc _ IH]; [done|].
  rewrite <- !app_comm_cons.
  rewrite re_sub_copy by (auto using trigger_shrinking, trigger_space).
  by rewrite IH.
Qed.

Lemma trigger_run_nil p : trigger_run K cond p [] = [].
Proof. unfold trigger_run. by rewrite cond_nil, andb_false_r. Qed.

Lemma trigger_run_other prev acc :
  prev ≠ Some K -> trigger_run K cond prev acc = acc.
Proof. intros H. unfold trigger_run. by rewrite bool_decide_eq_false_2. Qed.

Lemma trigger_runs_fuel (n : nat) s prev acc :
  (length s <= n)%nat -> all_space acc -> prev ≠ Some K ->
  map_runs (trigger_run K cond) prev acc s
  = acc ++ re_sub (trigger K cond) s.
Proof.
  revert s prev acc. induction n as [|n IH]; intros s prev acc Hlen Hacc Hprev.
  - destruct s; [|cbn in Hlen; lia]. cbn.
    by rewrite trigger_run_other, app_nil_r.
  - destruct s as [|c t].
    { cbn. by rewrite trigger_run_other, app_nil_r. }
    cbn in Hlen. cbn [map_runs]. destruct (is_space c) eqn:Hc.
    + rewrite re_sub_copy by (auto using trigger_shrinking, trigger_space).
      rewrite IH; [|lia|by apply all_space_snoc|done].
      by rewrite <- app_assoc.
    + rewrite trigger_run_other by done. f_equal.
      destruct (decide (c = K)) as [->|Hne].
      * pose proof (span_app is_space t) as Ht.
        pose proof (span_all is_space t) as Hrun.
        pose proof (span_stop is_space t) as Hrest.
        destruct (trigger K cond (K :: t)) as [[repl rest']|] eqn:Hm;
          unfold trigger in Hm; rewrite bool_decide_eq_true_2 in Hm by done;
          destruct (span is_space t) as [run rest]; cbn [fst snd] in *;
          destruct (cond run) eqn:Hcond; try done.
        -- injection Hm as <- <-.
           erewrite re_sub_match; [|apply trigger_shrinking|].
           2:{ unfold trigger. rewrite bool_decide_eq_true_2 by done.
               rewrite Ht, span_space_of_app by done. by rewrite Hcond. }
           rewrite Ht, map_runs_run by done.
           rewrite (map_runs_flush _ _ None) by (auto using trigger_run_nil).
           rewrite IH; [|rewrite Ht, length_app in Hlen; lia|constructor|done].
           unfold trigger_run. rewrite bool_decide_eq_true_2 by done.
           by rewrite Hcond.
        -- rewrite re_sub_copy; [|apply trigger_shrinking|].
           2:{ unfold trigger. rewrite bool_decide_eq_true_2 by done.
               rewrite Ht at 1. rewrite span_space_of_app by done.
               by rewrite Hcond. }
           f_equal. rewrite Ht, map_runs_run, trigger_skip_space by done.
           rewrite (map_runs_flush _ _ None) by (auto using trigger_run_nil).
           rewrite IH; [|rewrite Ht, length_app in Hlen; lia|constructor|done].
           unfold trigger_run. rewrite bool_decide_eq_true_2 by done.
           by rewrite Hcond.
      * rewrite re_sub_copy; [|apply trigger_shrinking|].
        2:{ unfold trigger. by rewrite bool_decide_eq_false_2. }
        f_equal. rewrite IH; [done|lia|constructor|congruence].
Qed.

Lemma trigger_runs s :
  re_sub (trigger K cond) s = map_runs (trigger_run K cond) None [] s.
Proof.
  by rewrite (trigger_runs_fuel (length s)) by (done || constructor).
Qed.

End Trigger.

Lemma colon_space_runs s : re_sub colon_space s = map_runs colon_run None [] s.
Proof.
  rewrite (re_sub_ext _ (trigger COLON truthy)).
  - by apply trigger_runs.
  - intros t. unfold colon_space, trigger. destruct t as [|c t]; [done|].
    case_bool_decide; [|done]. by destruct (span is_space t) as [[|] ?].
Qed.

Lemma period_space_runs s : re_sub period_space s = map_runs period_run None [] s.
Proof.
  rewrite (re_sub_ext _ (trigger DOT (fun run => (2 <=? length run)%nat))).
  - by apply trigger_runs.
  - intros t. unfold period_space, trigger. destruct t as [|c t]; [done|].
    case_bool_decide; [|done]. by destruct (span is_space t) as [[|? [|]] ?].
Qed.

End Runs.

(** *** The rule for blank lines *)

Section BlankLines.

Implicit Types (acc run s rest : str) (c : ascii) (prev : option ascii).

Lemma count_nl_cons c t :
  count_nl (c :: t) = if bool_decide (c = NL) then S (count_nl t) else count_nl t.
Proof.
  unfold count_nl. rewrite filter_cons.
  case_decide; case_bool_decide; done.
Qed.

Lemma count_nl_none s : NL ∉ s -> count_nl s = 0%nat.
Proof.
  induction s as [|c t IH]; [done|]. intros [Hc Ht]%not_elem_of_cons.
  rewrite count_nl_cons, bool_decide_eq_false_2 by done. auto.
Qed.

Lemma after_last_nl_none s : NL ∉ after_last_nl s.
Proof.
  induction s as [|c t IH]; cbn; [apply not_elem_of_nil|].
  case_bool_decide as Ht; [done|]. case_bool_decide as Hc; [done|].
  apply not_elem_of_cons. split; [congruence|done].
Qed.

Lemma after_last_nl_space s : all_space s -> all_space (after_last_nl s).
Proof.
  intros H. induction H as [|c t Hc Ht IH]; cbn; [constructor|].
  case_bool_decide; [done|]. case_bool_decide; [done|]. by constructor.
Qed.

Lemma squeeze_none run : NL ∉ run -> squeeze run = run.
Proof.
  induction run as [|c t IH]; [done|]. intros [Hc Ht]%not_elem_of_cons.
  cbn [squeeze]. rewrite bool_decide_eq_false_2 by (by intros ->).
  by rewrite IH.
Qed.

Lemma squeeze_app acc run : NL ∉ acc -> squeeze (acc ++ run) = acc ++ squeeze run.
Proof.
  induction acc as [|c t IH]; [done|]. intros [Hc Ht]%not_elem_of_cons.
  rewrite <- !app_comm_cons. cbn [squeeze].
  rewrite bool_decide_eq_false_2 by (by intros ->). by rewrite IH.
Qed.

Lemma squeeze_space run : all_space run -> all_space (squeeze run).
Proof.
  intros H. induction H as [|c t Hc Ht IH]; cbn [squeeze]; [constructor|].
  case_bool_decide as Hnl.
  - destruct (_ <=? _)%nat; [|by constructor].
    subst c. constructor; [done|]. constructor; [done|].
    by apply after_last_nl_space.
  - by constructor.
Qed.

Lemma squeeze_idem run : squeeze (squeeze run) = squeeze run.
Proof.
  induction run as [|c t IH]; [done|]. cbn [squeeze].
  case_bool_decide as Hnl.
  - destruct (2 <=? count_nl t)%nat eqn:Hn.
    + cbn [squeeze]. rewrite bool_decide_eq_true_2 by done.
      rewrite count_nl_cons, bool_decide_eq_true_2 by done.
      by rewrite (count_nl_none _ (after_last_nl_none t)).
    + cbn [squeeze]. by rewrite bool_decide_eq_true_2, Hn by done.
  - cbn [squeeze]. rewrite bool_decide_eq_false_2 by done. by rewrite IH.
Qed.

Lemma squeeze_short run : (length run < 2)%nat -> squeeze run = run.
Proof.
  destruct run as [|c [|d t]]; cbn; [done| |lia].
  intros _. by case_bool_decide.
Qed.

Lemma blank_lines_not_nl c t : c ≠ NL -> blank_lines (c :: t) = None.
Proof. intros H. unfold blank_lines. by rewrite bool_decide_eq_false_2. Qed.

Lemma blank_lines_nl run rest :
  all_space run -> no_lead_space rest ->
  blank_lines (NL :: run ++ rest) =
    if (2 <=? count_nl run)%nat
    then Some ([NL; NL], after_last_nl run ++ rest) else None.
Proof.
  intros Hrun Hrest. unfold blank_lines.
  rewrite bool_decide_eq_true_2 by done.
  by rewrite span_space_of_app.
Qed.

(** Within a run with fewer than two line feeds the rule finds nothing. *)
Lemma blank_skip run rest :
  all_space run -> (count_nl run < 2)%nat -> no_lead_space rest ->
  re_sub blank_lines (run ++ rest) = run ++ re_sub blank_lines rest.
Proof.
  intros Hrun. induction Hrun as [|c run Hc Hrun IH]; intros Hn Hrest; [done|].
  rewrite <- !app_comm_cons. rewrite count_nl_cons in Hn.
  rewrite re_sub_copy; [|apply blank_lines_shrinking|].
  - rewrite IH; [done| |done]. case_bool_decide; lia.
  - case_bool_decide as Hnl; [|by apply blank_lines_not_nl].
    subst c. rewrite blank_lines_nl by done.
    destruct (Nat.leb_spec 2 (count_nl run)); [lia|done].
Qed.

Lemma blank_runs_fuel (n : nat) s prev acc :
  (length s <= n)%nat -> all_space acc -> NL ∉ acc ->
  map_runs blank_run prev acc s = acc ++ re_sub blank_lines s.
Proof.
  revert s prev acc. induction n as [|n IH]; intros s prev acc Hlen Hacc Hnl.
  - destruct s; [|cbn in Hlen; lia]. cbn. unfold blank_run.
    by rewrite squeeze_none, app_nil_r.
  - destruct s as [|c t].
    { cbn. unfold blank_run. by rewrite squeeze_none, app_nil_r. }
    cbn in Hlen. cbn [map_runs]. destruct (is_space c) eqn:Hc.
    + destruct (decide (c = NL)) as [->|Hne].
      * pose proof (span_app is_space t) as Ht.
        pose proof (span_all is_space t) as Hrun.
        pose proof (span_stop is_space t) as Hrest.
        destruct (span is_space t) as [run rest]. cbn [fst snd] in *.
        fold (all_space run) in Hrun. fold (no_lead_space rest) in Hrest.
        subst t. rewrite map_runs_space by done.
        rewrite (map_runs_flush _ _ None) by done.
        rewrite (IH rest None []);
          [|rewrite length_app in Hlen; lia|constructor|apply not_elem_of_nil].
        unfold blank_run at 1. rewrite <- app_assoc, squeeze_app by done.
        rewrite <- app_assoc. f_equal.
        change ([NL] ++ run) with (NL :: run). rewrite app_nil_l.
        cbn [squeeze]. rewrite bool_decide_eq_true_2 by done.
        destruct (2 <=? count_nl run)%nat eqn:Hn.
        -- rewrite (re_sub_match blank_lines (NL :: run ++ rest) [NL; NL]
                      (after_last_nl run ++ rest));
             [|apply blank_lines_shrinking|].
           2:{ rewrite blank_lines_nl by done. by rewrite Hn. }
           rewrite blank_skip; [done| | |done].
           ++ by apply after_last_nl_space.
           ++ rewrite (count_nl_none _ (after_last_nl_none run)). lia.
        -- rewrite (re_sub_copy blank_lines NL (run ++ rest));
             [|apply blank_lines_shrinking|].
           2:{ rewrite blank_lines_nl by done. by rewrite Hn. }
           rewrite blank_skip; [done|done| |done].
           by apply Nat.leb_gt in Hn.
      * rewrite re_sub_copy;
          [|apply blank_lines_shrinking|by apply blank_lines_not_nl].
        rewrite IH; [by rewrite <- app_assoc|lia|by apply all_space_snoc|].
        rewrite not_elem_of_app, not_elem_of_cons. split; [done|].
        split; [congruence|apply not_elem_of_nil].
    + unfold blank_run at 1. rewrite squeeze_none by done. f_equal.
      rewrite re_sub_copy; [|apply blank_lines_shrinking|].
      * f_equal. rewrite IH; [done|lia|constructor|apply not_elem_of_nil].
      * apply blank_lines_not_nl. intros ->. done.
Qed.

Lemma blank_lines_runs s : re_sub blank_lines s = map_runs blank_run None [] s.
Proof.
  by rewrite (blank_runs_fuel (length s))
    by (done || constructor || apply not_elem_of_nil).
Qed.

End BlankLines.

(** *** The three collapsing rules, run by run *)

Section Collapse.

Implicit Types (run s : str) (p : option ascii).

Lemma colon_run_space p run : all_space run -> all_space (colon_run p run).
Proof.
  intros H. unfold colon_run. destruct (_ && _); [|done]. by repeat constructor.
Qed.

Lemma period_run_space p run : all_space run -> all_space (period_run p run).
Proof.
  intros H. unfold period_run. destruct (_ && _); [|done]. by repeat constructor.
Qed.

Lemma collapse_run_space p run : all_space run -> all_space (collapse_run p run).
Proof.
  intros H. unfold collapse_run, blank_run.
  by apply squeeze_space, period_run_space, colon_run_space.
Qed.

Lemma collapse_runs s : collapse s = map_runs collapse_run None [] s.
Proof.
  unfold collapse.
  rewrite colon_space_runs, period_space_runs, blank_lines_runs.
  rewrite (map_runs_compose colon_run period_run)
    by (auto using colon_run_space || constructor).
  rewrite (map_runs_compose _ blank_run); [reflexivity| |constructor].
  intros p run Hrun. by apply period_run_space, colon_run_space.
Qed.

Lemma collapse_run_idem p run :
  collapse_run p (collapse_run p run) = collapse_run p run.
Proof.
  unfold collapse_run, blank_run, colon_run, period_run.
  destruct (decide (p = Some COLON)) as [->|Hcolon].
  - destruct run; reflexivity.
  - rewrite !(bool_decide_eq_false_2 (p = Some COLON)) by done. cbn [andb].
    destruct (decide (p = Some DOT)) as [->|Hdot].
    + rewrite !bool_decide_eq_true_2 by done. cbn [andb].
      destruct (2 <=? length run)%nat eqn:Hlen; [reflexivity|].
      assert (Hs : squeeze run = run)
        by (apply squeeze_short; by apply Nat.leb_gt).
      rewrite !Hs, Hlen. exact Hs.
    + rewrite !(bool_decide_eq_false_2 (p = Some DOT)) by done. cbn [andb].
      apply squeeze_idem.
Qed.

(** The rules 3 to 5 are idempotent together. *)
Lemma collapse_idem s : collapse (collapse s) = collapse s.
Proof.
  rewrite !collapse_runs.
  rewrite map_runs_compose by (auto using collapse_run_space || constructor).
  apply map_runs_ext; [|constructor].
  intros p run _. apply collapse_run_idem.
Qed.

Lemma clean_text_rules s :
  clean_text s = collapse (re_sub apostrophe_suffix (re_sub apostrophe_word s)).
Proof. reflexivity. Qed.

Lemma is_tsmd_word (b : ascii) : is_tsmd b = true -> is_word b = true.
Proof.
  unfold is_tsmd. intros H%bool_decide_eq_true.
  repeat (apply elem_of_cons in H as [->|H]; [reflexivity|]).
  by apply elem_of_nil in H.
Qed.

Lemma suffix_match_word s :
  is_Some (apostrophe_suffix s) -> is_Some (apostrophe_word s).
Proof.
  unfold apostrophe_suffix, apostrophe_word.
  destruct s as [|a [|q t]]; [done|done|].
  destruct (_ && _); [|done].
  destruct (span is_space t) as [[|w ws] [|b r]]; try done.
  destruct (is_tsmd b) eqn:Hb; [|by intros [? [=]]].
  by rewrite (is_tsmd_word b Hb).
Qed.

Lemma has_match_suffix s :
  has_match apostrophe_word s = false -> has_match apostrophe_suffix s = false.
Proof.
  induction s as [|c t IH]; [done|]. cbn [has_match].
  intros [Hhere Hlater]%orb_false_iff. rewrite IH by done.
  rewrite orb_false_r. apply bool_decide_eq_false in Hhere.
  apply bool_decide_eq_false. intros H. by apply Hhere, suffix_match_word.
Qed.

End Collapse.

(** C5, amended. A second pass of [clean_text] changes nothing whenever
    the first apostrophe pattern, a word character, an apostrophe, white
    space and a word character, occurs nowhere in the result of the first
    pass. *)
Theorem clean_text_idempotent_without_gap (x : str) :
  has_match apostrophe_word (clean_text x) = false ->
  clean_text (clean_text x) = clean_text x.
Proof.
  intros Hgap. rewrite (clean_text_rules (clean_text x)).
  rewrite (has_match_false_id apostrophe_word)
    by auto using apostrophe_word_shrinking.
  rewrite (has_match_false_id apostrophe_suffix)
    by auto using apostrophe_suffix_shrinking, has_match_suffix.
  rewrite clean_text_rules. apply collapse_idem.
Qed.

Lemma clean_text_idempotent_without_gap_witness :
  clean_text untidy_text =
    txt "It's Ahab's: the whale. The   end" ++ [NL; NL]
    ++ txt "finis 'quoted'x" ++ [NL; NL] /\
  clean_text (clean_text untidy_text) = clean_text untidy_text.
Proof.
  split; [vm_compute; reflexivity|].
  apply (clean_text_idempotent_without_gap untidy_text).
  vm_compute. reflexivity.
Defined.

(** *** A remaining apostrophe gap is closed by the second pass *)

Section Lengths.

Implicit Types (m : matcher) (s t : str).

Lemma re_sub_length_fuel m (n : nat) s :
  shrinking m -> nonexpanding m -> (length s <= n)%nat ->
  (length (re_sub m s) <= length s)%nat.
Proof.
  intros Hs Hn. revert s. induction n as [|n IH]; intros s Hlen.
  - destruct s; [done|cbn in Hlen; lia].
  - destruct s as [|c t]; [done|].
    destruct (m (c :: t)) as [[repl rest]|] eqn:Hm.
    + rewrite (re_sub_match m _ repl rest) by done. rewrite length_app.
      pose proof (Hs _ _ _ Hm). pose proof (Hn _ _ _ Hm).
      assert (length (re_sub m rest) <= length rest)%nat by (apply IH; lia).
      lia.
    + rewrite re_sub_copy by done. cbn in *.
      assert (length (re_sub m t) <= length t)%nat by (apply IH; lia). lia.
Qed.

Lemma re_sub_length m s :
  shrinking m -> nonexpanding m -> (length (re_sub m s) <= length s)%nat.
Proof. intros Hs Hn. by apply (re_sub_length_fuel m (length s)). Qed.

Lemma re_sub_shorter m s :
  shrinking m -> contracting m -> has_match m s = true ->
  (length (re_sub m s) < length s)%nat.
Proof.
  intros Hs Hc.
  assert (Hn : nonexpanding m).
  { intros s' repl rest Hm. apply Hc in Hm. lia. }
  induction s as [|c t IH]; [done|]. cbn [has_match].
  destruct (m (c :: t)) as [[repl rest]|] eqn:Hm.
  - intros _. rewrite (re_sub_match m _ repl rest) by done.
    rewrite length_app. pose proof (Hc _ _ _ Hm).
    pose proof (re_sub_length m rest Hs Hn). lia.
  - rewrite bool_decide_eq_false_2 by (by intros [? [=]]). cbn [orb].
    intros Ht. rewrite re_sub_copy by done. cbn. apply IH in Ht. lia.
Qed.

Lemma apostrophe_word_contracting : contracting apostrophe_word.
Proof.
  intros s repl rest. unfold apostrophe_word.
  destruct s as [|a [|q t]]; [done|done|].
  destruct (_ && _); [|done].
  pose proof (span_app is_space t) as Ht.
  destruct (span is_space t) as [[|w ws] [|b r]]; try done.
  destruct (is_word b); [|done]. intros [= <- <-].
  rewrite Ht. cbn. rewrite length_app. cbn. lia.
Qed.

Lemma apostrophe_suffix_nonexpanding : nonexpanding apostrophe_suffix.
Proof.
  intros s repl rest. unfold apostrophe_suffix.
  destruct s as [|a [|q t]]; [done|done|].
  destruct (_ && _); [|done].
  pose proof (span_app is_space t) as Ht.
  destruct (span is_space t) as [[|w ws] [|b r]]; try done.
  destruct (_ && _); [|done]. intros [= <- <-].
  rewrite Ht. cbn. rewrite length_app. cbn. lia.
Qed.

Lemma colon_space_nonexpanding : nonexpanding colon_space.
Proof.
  intros s repl rest. unfold colon_space.
  destruct s as [|c t]; [done|]. case_bool_decide; [|done].
  pose proof (span_app is_space t) as Ht.
  destruct (span is_space t) as [[|w ws] r]; [done|]. intros [= <- <-].
  rewrite Ht. cbn. rewrite length_app. lia.
Qed.

Lemma period_space_nonexpanding : nonexpanding period_space.
Proof.
  intros s repl rest. unfold period_space.
  destruct s as [|c t]; [done|]. case_bool_decide; [|done].
  pose proof (span_app is_space t) as Ht.
  destruct (span is_space t) as [[|w [|w' ws]] r]; [done|done|].
  intros [= <- <-]. rewrite Ht. cbn. rewrite length_app. lia.
Qed.

Lemma after_last_nl_shorter s :
  (0 < count_nl s)%nat -> (length (after_last_nl s) < length s)%nat.
Proof.
  induction s as [|c t IH]; [cbn; lia|].
  rewrite count_nl_cons. cbn [after_last_nl].
  destruct (decide (NL ∈ t)) as [Ht|Ht];
    [rewrite (bool_decide_eq_true_2 (NL ∈ t)) by done
    |rewrite (bool_decide_eq_false_2 (NL ∈ t)) by done].
  - intros _. assert (Hpos : (0 < count_nl t)%nat).
    { destruct (count_nl t) eqn:Hn; [|lia].
      apply length_zero_iff_nil in Hn.
      assert (Hin : NL ∈ filter (fun c => c = NL) t).
      { apply list_elem_of_filter. split; [reflexivity|exact Ht]. }
      rewrite Hn in Hin. by apply elem_of_nil in Hin. }
    cbn. apply IH in Hpos. lia.
  - case_bool_decide; cbn; [lia|].
    rewrite (count_nl_none t) by done. lia.
Qed.

Lemma blank_lines_nonexpanding : nonexpanding blank_lines.
Proof.
  intros s repl rest. unfold blank_lines.
  destruct s as [|c t]; [done|]. case_bool_decide; [|done].
  pose proof (span_app is_space t) as Ht.
  destruct (span is_space t) as [run r].
  destruct (Nat.leb_spec 2 (count_nl run)); [|done].
  intros [= <- <-]. rewrite Ht. cbn.
  pose proof (after_last_nl_shorter run). rewrite !length_app. lia.
Qed.

Lemma clean_text_length s :
  (length (clean_text s) <= length (re_sub apostrophe_word s))%nat.
Proof.
  rewrite clean_text_rules. unfold collapse.
  etrans; [apply re_sub_length;
           auto using blank_lines_shrinking, blank_lines_nonexpanding|].
  etrans; [apply re_sub_length;
           auto using period_space_shrinking, period_space_nonexpanding|].
  etrans; [apply re_sub_length;
           auto using colon_space_shrinking, colon_space_nonexpanding|].
  apply re_sub_length;
    auto using apostrophe_suffix_shrinking, apostrophe_suffix_nonexpanding.
Qed.

End Lengths.

(** The condition of the amended C5 is also necessary: while the first
    apostrophe pattern still occurs, another pass shortens the text. *)
Lemma clean_text_gap_not_fixed (y : str) :
  has_match apostrophe_word y = true -> clean_text y ≠ y.
Proof.
  intros Hgap Heq.
  pose proof (clean_text_length y) as H1.
  pose proof (re_sub_shorter apostrophe_word y apostrophe_word_shrinking
                apostrophe_word_contracting Hgap) as H2.
  rewrite Heq in H1. lia.
Qed.

(** * Further properties of the code *)

(** ** The quick layout is a prefix of the full layout *)

Section Prefix.

Variables (f : font) (W margin maxlines : Z).

Lemma pack_word_extends (st : list str * str) (word : str) :
  exists ext, (pack_word f W margin st word).1 = st.1 ++ ext.
Proof.
  destruct st as [all cur]. unfold pack_word.
  destruct (fits f W margin _); [exists []; by rewrite app_nil_r|].
  destruct (truthy cur); [by exists [cur]|exists []; by rewrite app_nil_r].
Qed.

Lemma pack_words_extends (ws : list str) (st : list str * str) :
  exists ext, (fold_left (pack_word f W margin) ws st).1 = st.1 ++ ext.
Proof.
  revert st. induction ws as [|w ws IH]; intros st; cbn [fold_left].
  - exists []. by rewrite app_nil_r.
  - destruct (IH (pack_word f W margin st w)) as [e1 H1].
    destruct (pack_word_extends st w) as [e2 H2].
    exists (e2 ++ e1). by rewrite H1, H2, app_assoc.
Qed.

Lemma layout_para_extends (all : list str) (para : str) :
  exists ext, layout_para f W margin all para = all ++ ext.
Proof.
  unfold layout_para. destruct (negb _).
  - destruct (last_not_blank all); [by exists [[]]|]. exists []. by rewrite app_nil_r.
  - destruct (pack_words_extends (split_ws (strip para)) (all, [])) as [e He].
    destruct (fold_left _ _ _) as [all' cur']. cbn [fst] in He. subst all'.
    destruct (truthy cur').
    + exists (e ++ [cur']). by rewrite app_assoc.
    + by exists e.
Qed.

Lemma layout_paras_extends (paras : list str) (all : list str) :
  exists ext, fold_left (layout_para f W margin) paras all = all ++ ext.
Proof.
  revert all. induction paras as [|p paras IH]; intros all; cbn [fold_left].
  - exists []. by rewrite app_nil_r.
  - destruct (IH (layout_para f W margin all p)) as [e1 H1].
    destruct (layout_para_extends all p) as [e2 H2].
    exists (e2 ++ e1). by rewrite H1, H2, app_assoc.
Qed.

Lemma take_extension {A} (l ext : list A) (n : nat) :
  (n <= length l)%nat -> take n (l ++ ext) = take n l.
Proof. intros H. by rewrite take_app_le. Qed.

(** The word loop of [paginate_initial] against the one of
    [paginate_full], from the same state. *)
Lemma initial_words_spec (ws : list str) (all : list str) (n : Z) (cur : str) :
  n = Z.of_nat (length all) -> n <= maxlines ->
  let r := initial_words f W margin maxlines ws all n cur in
  let r' := fold_left (pack_word f W margin) ws (all, cur) in
  r.1.2 = Z.of_nat (length r.1.1) /\
  r.1.1 = take (Z.to_nat maxlines) r'.1 /\
  (Z.of_nat (length r'.1) < maxlines -> r.2 = r'.2).
Proof.
  revert all n cur. induction ws as [|w ws IH]; intros all n cur Hn Hle.
  - cbn. split; [done|]. split; [|done].
    rewrite take_ge; [done|lia].
  - cbn [initial_words fold_left].
    destruct (Z.leb_spec maxlines n) as [Hfull|Hroom].
    + cbn [fst snd]. split; [done|].
      destruct (pack_words_extends ws (pack_word f W margin (all, cur) w))
        as [e1 H1].
      destruct (pack_word_extends (all, cur) w) as [e2 H2].
      cbn [fst] in H2. rewrite H1, H2, <- app_assoc.
      split.
      * rewrite take_extension by lia. rewrite take_ge; [done|lia].
      * rewrite !length_app. lia.
    + unfold pack_word at 2 4 6.
      destruct (fits f W margin (test_line cur w)).
      * by apply IH.
      * destruct (truthy cur).
        -- apply IH; [rewrite length_app; cbn; lia|lia].
        -- by apply IH.
Qed.

Lemma initial_paras_full (paras : list str) (all : list str) (n : Z) :
  maxlines <= n -> initial_paras f W margin maxlines paras all n = all.
Proof.
  intros H. destruct paras as [|p paras]; [done|]. cbn [initial_paras].
  by rewrite (proj2 (Z.leb_le maxlines n)).
Qed.

(** The paragraph loop of [paginate_initial] collects the first
    [maxlines] lines of what the paragraph loop of [paginate_full]
    produces. *)
Lemma initial_paras_spec (paras : list str) (all : list str) (n : Z) :
  n = Z.of_nat (length all) -> n <= maxlines ->
  initial_paras f W margin maxlines paras all n
  = take (Z.to_nat maxlines) (fold_left (layout_para f W margin) paras all).
Proof.
  revert all n. induction paras as [|p paras IH]; intros all n Hn Hle.
  - cbn. rewrite take_ge; [done|lia].
  - cbn [initial_paras fold_left].
    destruct (Z.leb_spec maxlines n) as [Hfull|Hroom].
    + destruct (layout_paras_extends paras (layout_para f W margin all p))
        as [e1 H1].
      destruct (layout_para_extends all p) as [e2 H2].
      rewrite H1, H2, <- app_assoc, take_extension by lia.
      rewrite take_ge; [done|lia].
    + unfold layout_para at 2.
      destruct (truthy (strip p)); cbn [negb].
      * pose proof (initial_words_spec (split_ws (strip p)) all n [] Hn Hle)
          as (Hcount & Htake & Hcur).
        destruct (initial_words _ _ _ _ _ _ _ _) as [[all' n'] cur'].
        destruct (fold_left (pack_word f W margin) _ _) as [A C].
        cbn [fst snd] in *.
        destruct (Z.ltb_spec (Z.of_nat (length A)) maxlines) as [Hlt|Hge].
        -- rewrite take_ge in Htake by lia. subst all'.
           rewrite (Hcur Hlt), Hcount.
           rewrite (proj2 (Z.ltb_lt _ _) Hlt), andb_true_r.
           destruct (truthy C).
           ++ apply IH; [rewrite length_app; cbn; lia|lia].
           ++ apply IH; [done|lia].
        -- assert (Hn' : n' = maxlines).
           { rewrite Hcount, Htake, length_take. lia. }
           rewrite (proj2 (Z.ltb_ge n' maxlines)), andb_false_r by lia.
           rewrite initial_paras_full by lia.
           destruct (layout_paras_extends paras
                       (if truthy C then A ++ [C] else A)) as [e He].
           rewrite He, Htake.
           destruct (truthy C); rewrite <- ?app_assoc;
             by rewrite take_extension by lia.
      * destruct (last_not_blank all).
        -- apply IH; [rewrite length_app; cbn; lia|lia].
        -- by apply IH.
Qed.

End Prefix.

Lemma initial_lines_take (f : font) (W margin maxl : Z) (text : str) :
  initial_lines f W margin maxl text
  = take (Z.to_nat (maxl * 50)) (full_lines f W margin text).
Proof.
  unfold initial_lines, full_lines.
  destruct (Z.le_gt_cases 0 (maxl * 50)) as [Hpos|Hneg].
  - by apply initial_paras_spec.
  - rewrite initial_paras_full by lia.
    replace (Z.to_nat (maxl * 50)) with 0%nat by lia. reflexivity.
Qed.

(** X1. The quick layout and the full layout break the same text into the
    same lines: [paginate_initial] groups into pages the first
    [50 * max_lines_per_page] lines of the line sequence that
    [paginate_full] groups (and falls back to the placeholder when there
    is none). *)
Theorem initial_layout_is_prefix (text : str) (f : font) (W H margin maxl : Z) :
  max_lines_per_page f H margin = Some maxl ->
  paginate_initial text f W H margin
  = Some (let pages :=
            split_pages maxl
              (take (Z.to_nat (maxl * 50)) (full_lines f W margin text)) in
          if truthy pages then pages else placeholder_pages) /\
  paginate_full text f W H margin
  = Some (clean_pages (split_pages maxl (full_lines f W margin text))).
Proof.
  intros Hmax. unfold paginate_initial, paginate_full. rewrite Hmax.
  split; [|reflexivity].
  fold (initial_lines f W margin maxl text). by rewrite initial_lines_take.
Qed.

Lemma initial_layout_is_prefix_witness :
  paginate_initial sample_text (mono_font 10 17) 100 120 4
  = Some (let pages :=
            split_pages 4
              (take 200 (full_lines (mono_font 10 17) 100 4 sample_text)) in
          if truthy pages then pages else placeholder_pages).
Proof.
  exact (proj1 (initial_layout_is_prefix sample_text (mono_font 10 17)
                  100 120 4 4 eq_refl)).
Defined.

(** ** Blank lines on the pages of the full layout *)

Section Tidy.

Implicit Types (l line : str) (ls all cur rest : list str).

Lemma no_double_blank_app ls1 ls2 :
  no_double_blank (ls1 ++ ls2) <->
  no_double_blank ls1 /\ no_double_blank ls2 /\
  ~ (last ls1 = Some [] /\ head ls2 = Some []).
Proof.
  induction ls1 as [|x ls1 IH].
  - cbn. naive_solver.
  - destruct ls1 as [|y ls1].
    + cbn. destruct ls2 as [|z ls2]; cbn; naive_solver.
    + change ((x :: y :: ls1) ++ ls2) with (x :: (y :: ls1) ++ ls2).
      change (no_double_blank (x :: (y :: ls1) ++ ls2))
        with (~ (x = [] /\ y = []) /\ no_double_blank ((y :: ls1) ++ ls2)).
      change (no_double_blank (x :: y :: ls1))
        with (~ (x = [] /\ y = []) /\ no_double_blank (y :: ls1)).
      change (last (x :: y :: ls1)) with (last (y :: ls1)).
      rewrite IH. naive_solver.
Qed.

Lemma tidy_nil : tidy [].
Proof. split; [discriminate|exact I]. Qed.

Lemma tidy_prefix ls1 ls2 : tidy (ls1 ++ ls2) -> tidy ls1.
Proof.
  intros [Hh Hn]. apply no_double_blank_app in Hn as (Hn & _ & _).
  split; [|done]. by destruct ls1.
Qed.

Lemma last_not_blank_true ls :
  last_not_blank ls = true -> last ls ≠ Some [].
Proof.
  unfold last_not_blank. destruct (last ls) as [l|]; [|done].
  intros Hl [= ->]. unfold str_eqb in Hl.
  by rewrite bool_decide_eq_true_2 in Hl.
Qed.

Lemma last_not_blank_nonempty ls : last_not_blank ls = true -> ls ≠ [].
Proof. by destruct ls. Qed.

Lemma tidy_snoc_line ls l : tidy ls -> l ≠ [] -> tidy (ls ++ [l]).
Proof.
  intros [Hh Hn] Hl. split.
  - destruct ls; cbn; [congruence|done].
  - apply no_double_blank_app. cbn. naive_solver.
Qed.

Lemma tidy_snoc_blank ls : tidy ls -> last_not_blank ls = true -> tidy (ls ++ [[]]).
Proof.
  intros [Hh Hn] Hl. split.
  - pose proof (last_not_blank_nonempty ls Hl). by destruct ls.
  - apply no_double_blank_app. cbn.
    pose proof (last_not_blank_true ls Hl). naive_solver.
Qed.

Lemma truthy_nonempty {A} (x : list A) : truthy x = true -> x ≠ [].
Proof. by destruct x. Qed.

Lemma pack_word_tidy f W margin (st : list str * str) (word : str) :
  tidy st.1 -> tidy (pack_word f W margin st word).1.
Proof.
  destruct st as [all cur]. cbn [fst]. intros Ht. unfold pack_word.
  destruct (fits f W margin _); [done|]. cbn [fst].
  destruct (truthy cur) eqn:Hc; [|done].
  by apply tidy_snoc_line, truthy_nonempty.
Qed.

Lemma pack_words_tidy f W margin (ws : list str) (st : list str * str) :
  tidy st.1 -> tidy (fold_left (pack_word f W margin) ws st).1.
Proof.
  revert st. induction ws as [|w ws IH]; intros st Ht; [done|].
  cbn [fold_left]. by apply IH, pack_word_tidy.
Qed.

Lemma layout_para_tidy f W margin all (para : str) :
  tidy all -> tidy (layout_para f W margin all para).
Proof.
  intros Ht. unfold layout_para. destruct (negb _).
  - destruct (last_not_blank all) eqn:Hl; [|done]. by apply tidy_snoc_blank.
  - pose proof (pack_words_tidy f W margin (split_ws (strip para)) (all, []) Ht)
      as Ht'.
    destruct (fold_left _ _ _) as [all' cur']. cbn [fst] in Ht'.
    destruct (truthy cur') eqn:Hc; [|done].
    by apply tidy_snoc_line, truthy_nonempty.
Qed.

Lemma full_lines_tidy f W margin (text : str) : tidy (full_lines f W margin text).
Proof.
  unfold full_lines. generalize (split_on NL text) as paras.
  assert (H : forall paras all, tidy all ->
            tidy (fold_left (layout_para f W margin) paras all)).
  { induction paras as [|p paras IH]; intros all Ht; [done|].
    cbn [fold_left]. by apply IH, layout_para_tidy. }
  intros paras. apply H, tidy_nil.
Qed.

Lemma str_eqb_true l : str_eqb l [] = true -> l = [].
Proof. apply bool_decide_eq_true. Qed.

Lemma str_eqb_false l : str_eqb l [] = false -> l ≠ [].
Proof. apply bool_decide_eq_false. Qed.

Lemma split_step_tidy maxl (pages : list page) cur line rest :
  Forall tidy pages -> tidy (cur ++ line :: rest) ->
  Forall tidy (split_step maxl (pages, cur) line).1 /\
  tidy ((split_step maxl (pages, cur) line).2 ++ rest).
Proof.
  intros Hp Ht. unfold split_step.
  assert (Hsnoc : tidy ((cur ++ [line]) ++ rest)) by by rewrite <- app_assoc.
  destruct (maxl <=? _); [|done].
  assert (Hcur : tidy cur) by by apply tidy_prefix in Ht.
  assert (Hline : line ≠ [] -> tidy ([line] ++ rest)).
  { intros Hne. destruct Ht as [_ Hn].
    apply no_double_blank_app in Hn as (_ & Hn & _). split; [|done].
    cbn. congruence. }
  assert (Hrest : cur ≠ [] -> line = [] -> tidy rest).
  { intros Hne ->. destruct Ht as [_ Hn].
    apply no_double_blank_app in Hn as (_ & Hn & _).
    destruct Hn as [Hn1 Hn2]. split; [|done].
    destruct rest as [|r rest]; [done|]. cbn. intros [= ->]. by apply Hn1. }
  destruct cur as [|c cur]; cbn [truthy fst snd];
    destruct (str_eqb line []) eqn:Hb; cbn [fst snd].
  - apply str_eqb_true in Hb. subst line. by destruct Ht as [[] _].
  - split; [done|]. by apply Hline, str_eqb_false.
  - split; [apply Forall_app_2; [done|by apply Forall_singleton]|].
    by apply Hrest, str_eqb_true.
  - split; [apply Forall_app_2; [done|by apply Forall_singleton]|].
    by apply Hline, str_eqb_false.
Qed.

Lemma split_loop_tidy maxl ls (pages : list page) cur :
  Forall tidy pages -> tidy (cur ++ ls) ->
  Forall tidy (fold_left (split_step maxl) ls (pages, cur)).1 /\
  tidy (fold_left (split_step maxl) ls (pages, cur)).2.
Proof.
  revert pages cur. induction ls as [|line ls IH]; intros pages cur Hp Ht.
  - cbn. by rewrite app_nil_r in Ht.
  - cbn [fold_left].
    destruct (split_step_tidy maxl pages cur line ls Hp Ht) as [Hp' Ht'].
    destruct (split_step maxl (pages, cur) line) as [pages' cur'].
    by apply IH.
Qed.

Lemma split_pages_tidy maxl ls : tidy ls -> Forall tidy (split_pages maxl ls).
Proof.
  intros Ht. unfold split_pages.
  destruct (split_loop_tidy maxl ls [] []) as [Hp Hc]; [constructor|done|].
  destruct (fold_left _ _ _) as [pages cur]. cbn [fst snd] in *.
  destruct (truthy cur); [|done].
  apply Forall_app_2; [done|by apply Forall_singleton].
Qed.

Lemma pop_blank_prefix (p : page) : exists ext, p = pop_blank p ++ ext.
Proof.
  induction p as [|l p [ext IH]]; [by exists []|]. cbn [pop_blank].
  destruct (pop_blank p) as [|l' p'].
  - destruct (str_eqb l []); [by exists (l :: p)|].
    exists p. reflexivity.
  - exists ext. cbn. by rewrite IH at 1.
Qed.

Lemma pop_blank_last (p : page) : last (pop_blank p) ≠ Some [].
Proof.
  induction p as [|l p IH]; [done|]. cbn [pop_blank].
  destruct (pop_blank p) as [|l' p'] eqn:Hp.
  - destruct (str_eqb l []) eqn:Hb; [done|]. cbn.
    apply str_eqb_false in Hb. congruence.
  - exact IH.
Qed.

(** What [clean_pages] guarantees of each page: it is not empty and does
    not end with a blank line. *)
Lemma clean_pages_trimmed (pages : list page) :
  Forall (fun pg => pg ≠ [] /\ last pg ≠ Some []) (clean_pages pages).
Proof.
  unfold clean_pages. apply Forall_forall. intros pg Hin.
  apply list_elem_of_filter in Hin as [Hne Hin].
  apply list_elem_of_fmap in Hin as (p & -> & _).
  split; [by apply truthy_nonempty|apply pop_blank_last].
Qed.

Lemma clean_pages_tidy (pages : list page) :
  Forall tidy pages -> Forall tidy (clean_pages pages).
Proof.
  intros Hp. unfold clean_pages. apply Forall_forall. intros pg Hin.
  apply list_elem_of_filter in Hin as [_ Hin].
  apply list_elem_of_fmap in Hin as (p & -> & Hp').
  rewrite Forall_forall in Hp. specialize (Hp p Hp').
  destruct (pop_blank_prefix p) as [ext He]. rewrite He in Hp.
  by apply tidy_prefix in Hp.
Qed.

End Tidy.

(** X2. On the pages of the full layout no page is empty, no page starts
    or ends with a blank line, and no page holds two blank lines in a
    row. *)
Theorem full_pages_blank_lines (text : str) (f : font) (W H margin : Z) :
  line_height f ≠ 0 ->
  exists pages,
    paginate_full text f W H margin = Some pages /\
    Forall (fun pg => pg ≠ [] /\ head pg ≠ Some [] /\ last pg ≠ Some [] /\
                      no_double_blank pg) pages.
Proof.
  intros Hlh. destruct (paginate_full_total text f W H margin Hlh) as [maxl Hp].
  eexists. split; [exact Hp|].
  pose proof (clean_pages_trimmed
                (split_pages maxl (full_lines f W margin text))) as H1.
  pose proof (clean_pages_tidy _
                (split_pages_tidy maxl _ (full_lines_tidy f W margin text)))
    as H2.
  rewrite Forall_forall in H1, H2. apply Forall_forall. intros pg Hin.
  destruct (H1 pg Hin) as [Hne Hlast]. destruct (H2 pg Hin) as [Hhead Hndb].
  done.
Qed.

Lemma full_pages_blank_lines_witness :
  exists pages,
    paginate_full sample_text (mono_font 10 17) 100 120 4 = Some pages /\
    Forall (fun pg => pg ≠ [] /\ head pg ≠ Some [] /\ last pg ≠ Some [] /\
                      no_double_blank pg) pages.
Proof.
  apply (full_pages_blank_lines sample_text (mono_font 10 17) 100 120 4).
  vm_compute. discriminate.
Defined.

(** ** The size and the number of pages *)

Section PageSize.

Variable maxl : Z.

Implicit Types (line : str) (ls cur : list str) (pages : list page).

Lemma split_step_size pages cur line :
  Forall (page_fits maxl) pages -> page_fits maxl cur ->
  Forall (page_fits maxl) (split_step maxl (pages, cur) line).1 /\
  page_fits maxl (split_step maxl (pages, cur) line).2.
Proof.
  unfold page_fits. intros Hp Hc. unfold split_step.
  destruct (Z.leb_spec maxl (Z.of_nat (length cur))).
  - destruct cur as [|c cur]; cbn [truthy]; destruct (str_eqb line []);
      cbn [fst snd]; rewrite ?length_app; cbn [length];
      (split; [|lia]); try done;
      apply Forall_app_2; try done; by apply Forall_singleton.
  - cbn [fst snd]. split; [done|]. rewrite length_app. cbn. lia.
Qed.

Lemma split_loop_size ls pages cur :
  Forall (page_fits maxl) pages -> page_fits maxl cur ->
  Forall (page_fits maxl) (fold_left (split_step maxl) ls (pages, cur)).1 /\
  page_fits maxl (fold_left (split_step maxl) ls (pages, cur)).2.
Proof.
  revert pages cur. induction ls as [|line ls IH]; intros pages cur Hp Hc;
    [done|].
  cbn [fold_left].
  destruct (split_step_size pages cur line Hp Hc) as [Hp' Hc'].
  destruct (split_step maxl (pages, cur) line) as [pages' cur'].
  by apply IH.
Qed.

Lemma split_pages_size ls : Forall (page_fits maxl) (split_pages maxl ls).
Proof.
  unfold split_pages.
  destruct (split_loop_size ls [] []) as [Hp Hc];
    [constructor|unfold page_fits; cbn; lia|].
  destruct (fold_left _ _ _) as [pages cur]. cbn [fst snd] in *.
  destruct (truthy cur); [|done].
  apply Forall_app_2; [done|by apply Forall_singleton].
Qed.

Lemma pop_blank_length (p : page) : (length (pop_blank p) <= length p)%nat.
Proof.
  induction p as [|l p IH]; [done|]. cbn [pop_blank].
  destruct (pop_blank p); [destruct (str_eqb l [])|]; cbn in *; lia.
Qed.

Lemma clean_pages_size pages :
  Forall (page_fits maxl) pages -> Forall (page_fits maxl) (clean_pages pages).
Proof.
  intros Hp. unfold clean_pages. apply Forall_forall. intros pg Hin.
  apply list_elem_of_filter in Hin as [_ Hin].
  apply list_elem_of_fmap in Hin as (p & -> & Hp').
  rewrite Forall_forall in Hp. specialize (Hp p Hp').
  unfold page_fits in *. pose proof (pop_blank_length p). lia.
Qed.

(** With at least one line per page, the pages that are closed are full:
    after [k] more lines the count of pages times [maxl] plus the lines
    of the open page is at most what it was plus [k]. *)
Lemma split_loop_count ls pages cur :
  1 <= maxl -> Z.of_nat (length cur) <= maxl ->
  let r := fold_left (split_step maxl) ls (pages, cur) in
  maxl * Z.of_nat (length r.1) + Z.of_nat (length r.2)
  <= maxl * Z.of_nat (length pages) + Z.of_nat (length cur)
     + Z.of_nat (length ls) /\
  Z.of_nat (length r.2) <= maxl.
Proof.
  intros Hmax. revert pages cur.
  induction ls as [|line ls IH]; intros pages cur Hc; [cbn; lia|].
  cbn [fold_left]. unfold split_step at 2 4 6.
  destruct (Z.leb_spec maxl (Z.of_nat (length cur))).
  - destruct cur as [|c cur]; [cbn in *; lia|]. cbn [truthy].
    destruct (str_eqb line []).
    + destruct (IH (pages ++ [c :: cur]) []) as [H1 H2]; [cbn; lia|].
      cbn zeta in *. split; [|done].
      rewrite length_app in H1. cbn [length] in *. lia.
    + destruct (IH (pages ++ [c :: cur]) ([] ++ [line])) as [H1 H2];
        [cbn; lia|].
      cbn zeta in *. split; [|done].
      rewrite !length_app in H1. cbn [length] in *. lia.
  - destruct (IH pages (cur ++ [line])) as [H1 H2];
      [rewrite length_app; cbn; lia|].
    cbn zeta in *. split; [|done].
    rewrite length_app in H1. cbn [length] in *. lia.
Qed.

Lemma split_pages_count ls :
  1 <= maxl ->
  maxl * Z.of_nat (length (split_pages maxl ls))
  <= Z.of_nat (length ls) + maxl - 1.
Proof.
  intros Hmax. unfold split_pages.
  destruct (split_loop_count ls [] [] Hmax) as [H1 H2]; [cbn; lia|].
  destruct (fold_left _ _ _) as [pages cur]. cbn [fst snd length] in *.
  destruct cur as [|c cur]; cbn [truthy].
  - cbn [length] in *. lia.
  - rewrite length_app. cbn [length] in *. lia.
Qed.

End PageSize.

(** X3. No page of either layout holds more lines than
    [max_lines_per_page], or more than one line when that number is not
    positive. *)
Theorem pages_within_height (text : str) (f : font) (W H margin maxl : Z) :
  max_lines_per_page f H margin = Some maxl ->
  (exists pages, paginate_full text f W H margin = Some pages /\
     Forall (fun pg => Z.of_nat (length pg) <= Z.max 1 maxl) pages) /\
  (exists pages, paginate_initial text f W H margin = Some pages /\
     Forall (fun pg => Z.of_nat (length pg) <= Z.max 1 maxl) pages).
Proof.
  intros Hmax. unfold paginate_full, paginate_initial. rewrite Hmax. split.
  - eexists. split; [reflexivity|].
    apply clean_pages_size, split_pages_size.
  - eexists. split; [reflexivity|]. cbn zeta.
    destruct (split_pages maxl _) as [|p ps] eqn:Hs.
    + cbn. apply Forall_singleton. cbn. lia.
    + cbn [truthy]. rewrite <- Hs. apply split_pages_size.
Qed.

Lemma pages_within_height_witness :
  exists pages,
    paginate_full scenario_a (mono_font 7 17)
      DISPLAY_WIDTH DISPLAY_HEIGHT DISPLAY_MARGIN = Some pages /\
    Forall (fun pg => Z.of_nat (length pg) <= 20) pages.
Proof.
  exact (proj1 (pages_within_height scenario_a (mono_font 7 17)
                  DISPLAY_WIDTH DISPLAY_HEIGHT DISPLAY_MARGIN 20 eq_refl)).
Defined.

(** X4. The quick layout returns at least one and at most 50 pages,
    whatever the length of the text. *)
Theorem initial_pages_capped (text : str) (f : font) (W H margin : Z) :
  line_height f ≠ 0 ->
  exists pages,
    paginate_initial text f W H margin = Some pages /\
    (1 <= length pages <= 50)%nat.
Proof.
  intros Hlh.
  destruct (max_lines_per_page f H margin) as [maxl|] eqn:Hmax.
  2:{ unfold max_lines_per_page in Hmax.
      by destruct (Z.eqb_spec (line_height f) 0). }
  unfold paginate_initial. rewrite Hmax. eexists. split; [reflexivity|].
  cbn zeta. fold (initial_lines f W margin maxl text).
  rewrite initial_lines_take.
  set (ls := take _ _).
  destruct (split_pages maxl ls) as [|p ps] eqn:Hs; [cbn; lia|].
  cbn [truthy]. rewrite <- Hs. split; [rewrite Hs; cbn; lia|].
  destruct (Z.le_gt_cases 1 maxl) as [Hpos|Hneg].
  - pose proof (split_pages_count maxl ls Hpos) as Hc.
    assert (Z.of_nat (length ls) <= maxl * 50).
    { subst ls. rewrite length_take. lia. }
    nia.
  - subst ls. replace (Z.to_nat (maxl * 50)) with 0%nat in Hs by lia.
    done.
Qed.

Lemma initial_pages_capped_witness :
  exists pages,
    paginate_initial scenario_a (mono_font 7 17)
      DISPLAY_WIDTH DISPLAY_HEIGHT DISPLAY_MARGIN = Some pages /\
    (1 <= length pages <= 50)%nat.
Proof.
  apply (initial_pages_capped scenario_a (mono_font 7 17)
           DISPLAY_WIDTH DISPLAY_HEIGHT DISPLAY_MARGIN).
  vm_compute. discriminate.
Defined.

(** ** What the normalizer keeps *)

Section Kept.

Implicit Types (s t run acc : str) (c : ascii).

Lemma split_ws_all_space run s : all_space run -> split_ws (run ++ s) = split_ws s.
Proof.
  intros H. induction H as [|c run Hc _ IH]; [done|].
  rewrite <- app_comm_cons. by rewrite split_ws_space.
Qed.

Lemma starts_word_all_space run s :
  all_space run -> run ≠ [] -> starts_word (run ++ s) = false.
Proof.
  intros H Hne. destruct H as [|c run Hc _]; [done|]. cbn. by rewrite Hc.
Qed.

(** The words of [c :: t] depend on [t] only through its words and through
    whether it starts with one. *)
Lemma split_ws_cons_word c s t :
  starts_word s = starts_word t -> split_ws s = split_ws t ->
  split_ws (c :: s) = split_ws (c :: t).
Proof.
  intros Hs Hw. destruct (is_space c) eqn:Hc.
  { by rewrite !split_ws_space. }
  destruct s as [|a s], t as [|b t].
  - done.
  - cbn in Hs. rewrite split_ws_cons by done.
    destruct (is_space b); [|done]. rewrite <- Hw. cbn. by rewrite Hc.
  - cbn in Hs. rewrite split_ws_cons by done.
    destruct (is_space a); [|done]. rewrite Hw. cbn. by rewrite Hc.
  - cbn in Hs. rewrite !split_ws_cons by done.
    destruct (is_space a), (is_space b); try done; by rewrite Hw.
Qed.

(** A run-wise rewriting that maps runs to runs and keeps a run from
    vanishing or appearing does not change the words. *)
Lemma map_runs_words (g : option ascii -> str -> str) s :
  (forall p run, all_space run -> all_space (g p run)) ->
  (forall p run, all_space run -> g p run = [] <-> run = []) ->
  forall prev acc, all_space acc ->
    split_ws (map_runs g prev acc s) = split_ws s /\
    starts_word (map_runs g prev acc s) = starts_word (acc ++ s).
Proof.
  intros Hsp Hnil. induction s as [|c t IH]; intros prev acc Hacc;
    cbn [map_runs].
  - rewrite app_nil_r.
    pose proof (Hsp prev acc Hacc) as Hout. split.
    + rewrite <- (app_nil_r (g prev acc)). by rewrite split_ws_all_space.
    + destruct Hacc as [|a acc Ha _].
      * by rewrite (proj2 (Hnil prev [] (Forall_nil_2 _)) eq_refl).
      * cbn [starts_word]. rewrite Ha. cbn.
        destruct Hout as [|b out Hb _]; [done|]. cbn. by rewrite Hb.
  - destruct (is_space c) eqn:Hc.
    + destruct (IH prev (acc ++ [c])) as [Hw Hs]; [by apply all_space_snoc|].
      rewrite Hw, Hs, <- app_assoc. by rewrite split_ws_space.
    + destruct (IH (Some c) []) as [Hw Hs]; [constructor|].
      split.
      * rewrite split_ws_all_space by auto. by apply split_ws_cons_word.
      * destruct acc as [|a acc].
        -- rewrite (proj2 (Hnil prev [] (Forall_nil_2 _)) eq_refl).
           cbn. by rewrite Hc.
        -- rewrite !starts_word_all_space; auto.
           intros Hg. by apply Hnil in Hg.
Qed.

Lemma squeeze_nil run : squeeze run = [] <-> run = [].
Proof.
  destruct run as [|c t]; [done|]. cbn [squeeze].
  case_bool_decide; [destruct (2 <=? count_nl t)%nat|]; done.
Qed.

Lemma collapse_run_nil p run : collapse_run p run = [] <-> run = [].
Proof.
  unfold collapse_run, blank_run, period_run, colon_run.
  rewrite squeeze_nil.
  destruct run as [|c t]; [by rewrite !andb_false_r|].
  cbn [truthy]. destruct (_ && true); [by destruct (_ && _)|].
  by destruct (_ && _).
Qed.

(** The three collapsing rules rewrite white space only. *)
Lemma collapse_words s : split_ws (collapse s) = split_ws s.
Proof.
  rewrite collapse_runs.
  apply map_runs_words; [|intros; apply collapse_run_nil|constructor].
  intros p run. apply collapse_run_space.
Qed.

End Kept.

(** X5. The normalizer never makes a text longer. *)
Theorem clean_text_never_longer (s : str) :
  (length (clean_text s) <= length s)%nat.
Proof.
  etrans; [apply clean_text_length|].
  apply re_sub_length; [apply apostrophe_word_shrinking|].
  intros t repl rest Hm. apply apostrophe_word_contracting in Hm. lia.
Qed.

(** X6. The colon, period and blank-line rules of the normalizer change
    white space only: the words of [clean_text s] are the words that the
    text has after the two apostrophe rules. *)
Theorem clean_text_words (s : str) :
  split_ws (clean_text s)
  = split_ws (re_sub apostrophe_suffix (re_sub apostrophe_word s)).
Proof. rewrite clean_text_rules. apply collapse_words. Qed.

(** Without an apostrophe gap the normalizer keeps every word. *)
Lemma clean_text_words_without_gap (s : str) :
  has_match apostrophe_word s = false ->
  split_ws (clean_text s) = split_ws s.
Proof.
  intros Hgap. rewrite clean_text_rules, collapse_words.
  rewrite (has_match_false_id apostrophe_word)
    by auto using apostrophe_word_shrinking.
  by rewrite (has_match_false_id apostrophe_suffix)
    by auto using apostrophe_suffix_shrinking, has_match_suffix.
Qed.

(** ** Chapter titles *)

Lemma lstrip_id (s : str) : starts_word s = true -> lstrip s = s.
Proof. destruct s as [|c t]; [done|]. cbn. by destruct (is_space c). Qed.

Lemma lstrip_starts (s : str) : lstrip s = [] \/ starts_word (lstrip s) = true.
Proof.
  induction s as [|c t IH]; [by left|]. cbn [lstrip].
  destruct (is_space c) eqn:Hc; [done|]. right. cbn. by rewrite Hc.
Qed.

Lemma rstrip_idem (s : str) : rstrip (rstrip s) = rstrip s.
Proof.
  induction s as [|c t IH]; [done|]. cbn [rstrip].
  destruct (rstrip t) as [|d t'] eqn:Ht.
  - destruct (is_space c) eqn:Hc; [done|]. cbn. by rewrite Hc.
  - cbn [rstrip]. cbn [rstrip] in IH. by rewrite IH.
Qed.

Lemma rstrip_starts (s : str) :
  starts_word s = true -> rstrip s = [] \/ starts_word (rstrip s) = true.
Proof.
  intros Hs. destruct (rstrip s) as [|d t] eqn:Hr; [by left|]. right.
  assert (Hh : head (rstrip s) = head s) by (apply rstrip_head; by rewrite Hr).
  rewrite Hr in Hh. destruct s as [|c s]; [done|]. cbn in Hh.
  by injection Hh as ->.
Qed.

(** [s.strip().strip()] is [s.strip()]. *)
Lemma strip_idem (s : str) : strip (strip s) = strip s.
Proof.
  unfold strip. destruct (lstrip_starts s) as [Hl|Hl].
  - by rewrite Hl.
  - destruct (rstrip_starts _ Hl) as [Hr|Hr].
    + by rewrite Hr.
    + by rewrite (lstrip_id _ Hr), rstrip_idem.
Qed.

(** X7. Every chapter title that [extract_chapters_from_epub] returns is
    non-empty and has no white space at either end. *)
Theorem chapter_titles_trimmed (w : world) (book_path : str) :
  Forall (fun t => t ≠ [] /\ strip t = t)
         (extract_chapters_from_epub w book_path).
Proof.
  unfold extract_chapters_from_epub.
  destruct (read_epub w book_path) as [b|]; [|constructor].
  rewrite chapters_of_book_spec. apply Forall_forall. intros t Hin.
  apply (subseteq_take 20), first_occurrences_subset in Hin.
  unfold trimmed_titles in Hin.
  apply list_elem_of_filter in Hin as [Hne Hin].
  apply list_elem_of_fmap in Hin as (c & -> & _).
  split; [by apply truthy_nonempty|apply strip_idem].
Qed.

(** ** The open, the background pass and the next open *)

Section Pipeline.

Variables (w : world) (f : font).

(** The calls with every outcome good are the runs modelled above. *)
Lemma extract_text_fast_all_ok (path : str) (fs : gmap str cache_blob) :
  extract_text_fast_with all_ok w f path fs = extract_text_fast w f path fs.
Proof.
  unfold extract_text_fast_with, extract_text_fast.
  destruct (os_stat w path); [|done].
  destruct (cache_probe _ _); [done|].
  by destruct (process_initial w f path) as [[[text pages] chapters]|].
Qed.

Lemma process_full_write_ok (j : job)
    (st : gmap str cache_blob * list completion) :
  process_full_with WriteOk w j st = process_full w j st.
Proof.
  unfold process_full_with, process_full. destruct st as [fs q].
  destruct (read_epub w (job_path j)); [|done].
  by destruct (paginate_full _ _ _ _ _).
Qed.


(** X9. A cache file that is truncated, or that holds a partial artifact,
    counts for nothing: the open returns the same text, pages and chapters
    and starts the same background thread as with an empty cache. *)
Theorem open_ignores_unusable_cache (path : str) (fs : gmap str cache_blob)
    (st : stat_result) :
  os_stat w path = Some st ->
  cache_probe fs (cache_file_of w path st) = None ->
  (fun o => (o_text o, o_pages o, o_chapters o, o_job o))
    <$> extract_text_fast w f path fs
  = (fun o => (o_text o, o_pages o, o_chapters o, o_job o))
    <$> extract_text_fast w f path ∅.
Proof.
  intros Hstat Hprobe. unfold extract_text_fast. rewrite Hstat.
  fold (cache_file_of w path st). rewrite Hprobe.
  unfold cache_probe. rewrite lookup_empty.
  by destruct (process_initial w f path) as [[[text pages] chapters]|].
Qed.

(** X10. A run of the background pass either changes nothing (the
    document could not be read or laid out, or the cache file could not
    be opened); or its store fails after the file was opened, and then
    the cache file is left truncated and nothing is put on the queue; or
    it stores a full artifact in its cache file and appends exactly one
    completion, which carries the stored pages and the chapters of the
    quick pass. No other cache file is changed. *)
Theorem process_full_outcome (io : write_outcome) (j : job)
    (fs : gmap str cache_blob) (q : list completion) :
  (forall other, other ≠ job_cache_file j ->
     (process_full_with io w j (fs, q)).1 !! other = fs !! other) /\
  (process_full_with io w j (fs, q) = (fs, q) \/
   match io with
   | WriteOk =>
       exists d,
         (process_full_with io w j (fs, q)).1 !! job_cache_file j
         = Some (Pickled d) /\
         cd_partial d = false /\
         (process_full_with io w j (fs, q)).2
         = q ++ [{| c_book_path := job_path j; c_pages := cd_pages d;
                    c_chapters := job_chapters j |}]
   | OpenFails => False
   | DumpFails =>
       process_full_with io w j (fs, q)
       = (<[job_cache_file j := Truncated]> fs, q)
   end).
Proof.
  unfold process_full_with.
  destruct (read_epub w (job_path j)) as [b|]; [|split; [done|by left]].
  destruct (paginate_full _ _ _ _ _) as [full_pages|];
    [|split; [done|by left]].
  destruct io; cbn [try_store fst snd]; unfold store, dump_close, open_wb.
  - split; [intros other Hne; by rewrite !lookup_insert_ne|].
    right. eexists. split; [apply lookup_insert_eq|]. done.
  - split; [done|by left].
  - split; [intros other Hne; by rewrite lookup_insert_ne|]. by right.
Qed.

(** X11. From nothing cached to the full artifact: the open starts the
    background thread; when that thread has run, the same open is served
    from the cache with the text of the whole document, the pages of the
    completion and the chapters found by the quick pass, and no thread is
    started again. *)
Theorem open_after_full_pass (path : str) (fs : gmap str cache_blob)
    (st : stat_result) (b : book) :
  os_stat w path = Some st ->
  cache_probe fs (cache_file_of w path st) = None ->
  read_epub w path = Some b ->
  line_height f ≠ 0 ->
  exists o j fs2 c,
    extract_text_fast w f path fs = Some o /\
    o_job o = Some j /\
    process_full w j (o_cache o, []) = (fs2, [c]) /\
    c_book_path c = path /\
    extract_text_fast w f path fs2
    = Some {| o_text := clean_text (join [NL] (doc_texts (get_items b)));
              o_pages := c_pages c;
              o_chapters := o_chapters o;
              o_cache := fs2;
              o_job := None |}.
Proof.
  intros Hstat Hprobe Hread Hlh.
  destruct (paginate_full_total
              (clean_text (join [NL] (doc_texts (get_items b)))) f
              DISPLAY_WIDTH DISPLAY_HEIGHT DISPLAY_MARGIN Hlh) as [maxl Hfull].
  unfold extract_text_fast at 1. rewrite Hstat.
  fold (cache_file_of w path st). rewrite Hprobe.
  unfold process_initial. rewrite Hread.
  unfold paginate_initial, max_lines_per_page.
  destruct (Z.eqb_spec (line_height f) 0) as [|_]; [done|].
  eexists _, _, _, _. split; [reflexivity|]. cbn [o_job o_cache o_chapters].
  split; [reflexivity|].
  unfold process_full. cbn [job_path job_font job_cache_file job_cache_data
    job_chapters cd_chapters cd_timestamp cd_book_path].
  rewrite Hread. fold (doc_texts (get_items b)). rewrite Hfull.
  split; [reflexivity|]. cbn [c_book_path c_pages]. split; [reflexivity|].
  unfold extract_text_fast. rewrite Hstat.
  fold (cache_file_of w path st).
  unfold cache_probe, store, dump_close. rewrite lookup_insert_eq.
  reflexivity.
Qed.

End Pipeline.

(** A truncated file in the place of the artifact of [moby_path]. *)
Lemma moby_truncated_probe :
  cache_probe {[moby_cache_file := Truncated]}
    (cache_file_of moby_world moby_path
       {| st_mtime := txt "1700000000.5"; st_size := 1048576 |}) = None.
Proof. unfold cache_file_of. by rewrite moby_fingerprint. Qed.


Lemma open_ignores_unusable_cache_witness :
  (fun o => (o_text o, o_pages o, o_chapters o, o_job o))
    <$> extract_text_fast moby_world (mono_font 10 17) moby_path
          {[moby_cache_file := Truncated]}
  = (fun o => (o_text o, o_pages o, o_chapters o, o_job o))
    <$> extract_text_fast moby_world (mono_font 10 17) moby_path ∅.
Proof.
  exact (open_ignores_unusable_cache moby_world (mono_font 10 17) moby_path
           _ _ eq_refl moby_truncated_probe).
Defined.

Lemma open_after_full_pass_witness :
  exists o j fs2 c,
    extract_text_fast moby_world (mono_font 10 17) moby_path ∅ = Some o /\
    o_job o = Some j /\
    process_full moby_world j (o_cache o, []) = (fs2, [c]) /\
    c_book_path c = moby_path /\
    extract_text_fast moby_world (mono_font 10 17) moby_path fs2
    = Some {| o_text := txt "Call me Ishmael.";
              o_pages := c_pages c;
              o_chapters := o_chapters o;
              o_cache := fs2;
              o_job := None |}.
Proof.
  apply (open_after_full_pass moby_world (mono_font 10 17) moby_path ∅
           {| st_mtime := txt "1700000000.5"; st_size := 1048576 |}
           {| toc := [TocLink (Some (txt "Loomings"))];
              get_items :=
                [Document (Some {| doc_text := txt "Call me Ishmael.";
                                   doc_headings := [txt "Loomings"] |})] |}).
  - reflexivity.
  - reflexivity.
  - reflexivity.
  - vm_compute. discriminate.
Defined.

(** ** Bookmarks on disk *)

Section BookmarkFiles.

Implicit Types (self fresh : BookmarkManager) (fl : gmap str bookmark_blob).
Implicit Types (path : str) (p : Z).

Lemma get_bookmark_path_dir self fresh path :
  bookmark_dir fresh = bookmark_dir self ->
  get_bookmark_path fresh path = get_bookmark_path self path.
Proof. unfold get_bookmark_path. by intros ->. Qed.

(** X12. A bookmark that was written survives a restart: a manager with
    an empty in-memory map on the same directory reads the saved page back
    from the file, and remembers it. *)
Theorem bookmark_survives_restart self fl path p fresh :
  bookmark_dir fresh = bookmark_dir self ->
  _cache fresh !! path = None ->
  let fl' := (save path p WriteOk (self, fl)).2 in
  (load_bookmark fresh fl' path).1 = p /\
  _cache (load_bookmark fresh fl' path).2 !! path = Some p.
Proof.
  intros Hdir Hfresh. cbn. unfold load_bookmark. rewrite Hfresh.
  rewrite (get_bookmark_path_dir self fresh path Hdir), lookup_insert_eq.
  rewrite bool_decide_eq_true_2 by done. cbn.
  by rewrite lookup_insert_eq.
Qed.

(** X13. Without an in-memory entry, [load_bookmark] answers page 1 and
    leaves the manager as it is when the bookmark file is missing, cannot
    be parsed, lacks the page number, or was written for another book (two
    paths with the same hash share a file name). *)
Theorem bookmark_default self fl path :
  _cache self !! path = None ->
  (fl !! get_bookmark_path self path = None \/
   fl !! get_bookmark_path self path = Some BookmarkBroken \/
   exists bp pn,
     fl !! get_bookmark_path self path = Some (BookmarkJson bp pn) /\
     (bp ≠ Some path \/ pn = None)) ->
  load_bookmark self fl path = (1, self).
Proof.
  intros Hc Hfile. unfold load_bookmark. rewrite Hc.
  destruct Hfile as [->|[->|(bp & pn & -> & Hbad)]]; [done|done|].
  destruct bp as [bp|]; [|done]. destruct pn as [pn|]; [|done].
  destruct Hbad as [Hbp|]; [|done].
  rewrite bool_decide_eq_false_2; [done|congruence].
Qed.

(** X14. A write that fails after the file was opened costs the bookmark
    on disk: the running process still sees what it had in memory, but
    after a restart the book opens at page 1. *)
Theorem failed_dump_loses_bookmark self fl path p fresh :
  bookmark_dir fresh = bookmark_dir self ->
  _cache fresh !! path = None ->
  let st' := save path p DumpFails (self, fl) in
  st'.1 = self /\ load_bookmark fresh st'.2 path = (1, fresh).
Proof.
  intros Hdir Hfresh. cbn. split; [done|].
  unfold load_bookmark. rewrite Hfresh.
  by rewrite (get_bookmark_path_dir self fresh path Hdir), lookup_insert_eq.
Qed.

(** X15. Saving the bookmark of one book does not change what is loaded
    for another, as long as the two bookmark files differ. *)
Theorem bookmarks_independent self fl path other p (io : write_outcome) :
  path ≠ other ->
  get_bookmark_path self path ≠ get_bookmark_path self other ->
  let st' := save path p io (self, fl) in
  (load_bookmark st'.1 st'.2 other).1 = (load_bookmark self fl other).1.
Proof.
  intros Hne Hfile. unfold load_bookmark.
  destruct io; cbn [save fst snd _cache bookmark_dir].
  - rewrite lookup_insert_ne by done.
    destruct (_cache self !! other); [done|].
    change (get_bookmark_path {| bookmark_dir := bookmark_dir self;
                                 _cache := <[path:=p]> (_cache self) |} other)
      with (get_bookmark_path self other).
    rewrite lookup_insert_ne by done.
    destruct (fl !! get_bookmark_path self other) as [[[bp|] [pn|]|]|];
      try done.
    all: by case_bool_decide.
  - done.
  - destruct (_cache self !! other); [done|].
    rewrite lookup_insert_ne by done.
    destruct (fl !! get_bookmark_path self other) as [[[bp|] [pn|]|]|];
      try done.
    all: by case_bool_decide.
Qed.

(** X16. When a save thread has run and its write succeeded, a load
    returns the page of that thread, whatever was saved, cached or pending
    before: of several saves for one book the one whose thread runs last
    wins, which need not be the one that was requested last. *)
Theorem last_run_save_wins (b : bookmarks) (i : nat) path p :
  pending b !! i = Some (path, p) ->
  load (run_save i WriteOk b) path = p.
Proof.
  intros Hi. unfold run_save. rewrite Hi. unfold load. cbn.
  erewrite load_bookmark_cached; [reflexivity|].
  cbn. by rewrite lookup_insert_eq.
Qed.

End BookmarkFiles.

Lemma bookmark_survives_restart_witness :
  (load_bookmark (manager fresh_bookmarks)
     (save moby_path 42 WriteOk (manager fresh_bookmarks, ∅)).2 moby_path).1
  = 42.
Proof.
  exact (proj1 (bookmark_survives_restart (manager fresh_bookmarks) ∅
                  moby_path 42 (manager fresh_bookmarks) eq_refl eq_refl)).
Defined.

Lemma bookmark_default_witness :
  load_bookmark (manager fresh_bookmarks)
    {[get_bookmark_path (manager fresh_bookmarks) moby_path :=
        BookmarkJson (Some (txt "/home/pi/books/other.epub")) (Some 9)]}
    moby_path
  = (1, manager fresh_bookmarks).
Proof.
  apply (bookmark_default (manager fresh_bookmarks)).
  - reflexivity.
  - right. right. eexists _, _. split; [apply lookup_singleton_eq|].
    left. vm_compute. discriminate.
Defined.

Lemma failed_dump_loses_bookmark_witness :
  (save moby_path 43 DumpFails
     ((save moby_path 42 WriteOk (manager fresh_bookmarks, ∅)).1,
      (save moby_path 42 WriteOk (manager fresh_bookmarks, ∅)).2)).1
  = (save moby_path 42 WriteOk (manager fresh_bookmarks, ∅)).1 /\
  load_bookmark (manager fresh_bookmarks)
    (save moby_path 43 DumpFails
       ((save moby_path 42 WriteOk (manager fresh_bookmarks, ∅)).1,
        (save moby_path 42 WriteOk (manager fresh_bookmarks, ∅)).2)).2
    moby_path
  = (1, manager fresh_bookmarks).
Proof.
  apply (failed_dump_loses_bookmark
           (save moby_path 42 WriteOk (manager fresh_bookmarks, ∅)).1
           (save moby_path 42 WriteOk (manager fresh_bookmarks, ∅)).2
           moby_path 43 (manager fresh_bookmarks)).
  - vm_compute. reflexivity.
  - vm_compute. reflexivity.
Defined.

Lemma bookmarks_independent_witness :
  (load_bookmark
     (save moby_path 42 WriteOk (manager fresh_bookmarks, ∅)).1
     (save moby_path 42 WriteOk (manager fresh_bookmarks, ∅)).2
     (txt "/home/pi/books/other.epub")).1
  = (load_bookmark (manager fresh_bookmarks) ∅
       (txt "/home/pi/books/other.epub")).1.
Proof.
  apply (bookmarks_independent (manager fresh_bookmarks) ∅ moby_path
           (txt "/home/pi/books/other.epub") 42 WriteOk).
  - vm_compute. discriminate.
  - vm_compute. discriminate.
Defined.

(** Two saves for one book, requested as 5 then 7; the thread of the
    second runs first. *)
Lemma last_run_save_wins_witness :
  load (run_save 0 WriteOk
          (run_save 1 WriteOk
             (save_bookmark_async
                (save_bookmark_async fresh_bookmarks moby_path 5)
                moby_path 7)))
       moby_path = 5.
Proof.
  apply (last_run_save_wins
           (run_save 1 WriteOk
              (save_bookmark_async
                 (save_bookmark_async fresh_bookmarks moby_path 5)
                 moby_path 7)) 0 moby_path 5).
  reflexivity.
Defined.

(** ** The refresh policy of the display *)

Lemma display_page_interval d force_full partial_ok :
  full_refresh_interval (display_page d force_full partial_ok).1.1
  = full_refresh_interval d.
Proof.
  unfold display_page, check_full_refresh_needed, clear_display.
  destruct (full_refresh_interval d <=? page_counter d + 1); cbn;
    repeat (match goal with |- context [if ?b then _ else _] => destruct b end;
            cbn); done.
Qed.

(** X17. [display_page] always leaves [needs_clear] unset and ends by
    showing the image; it clears the panel first whenever [needs_clear]
    was set or a full refresh was asked for, and it returns [True] only
    when the partial update alone was made. *)
Theorem display_page_outcome (d : EReaderDisplay) (force_full partial_ok : bool) :
  let '(d', trace, used_partial) := display_page d force_full partial_ok in
  needs_clear d' = false /\
  (last trace = Some EpdDisplay \/ trace = [EpdDisplayPartial]) /\
  (needs_clear d || force_full = true ->
   trace = [EpdInit; EpdClear; EpdDisplay] /\ page_counter d' = 0) /\
  (used_partial = true <-> trace = [EpdDisplayPartial]).
Proof.
  unfold display_page, check_full_refresh_needed, clear_display.
  destruct (full_refresh_interval d <=? page_counter d + 1); cbn.
  - rewrite orb_true_r. cbn. naive_solver.
  - rewrite orb_false_r.
    destruct (needs_clear d) eqn:Hn, force_full, (use_partial d), partial_ok;
      cbn; rewrite ?Hn; naive_solver.
Qed.

(** X18. The panel is cleared at least once in every
    [full_refresh_interval] displays: a run of [display_page] calls none
    of which clears the panel is shorter than what is left of the
    interval, and the counter stays below the interval throughout. *)
Theorem full_refresh_periodic (d : EReaderDisplay) (calls : list (bool * bool)) :
  0 <= page_counter d < full_refresh_interval d ->
  (0 <= page_counter (display_pages d calls).1
     < full_refresh_interval (display_pages d calls).1) /\
  (Forall (fun trace => EpdClear ∉ trace) (display_pages d calls).2 ->
   page_counter d + Z.of_nat (length calls) < full_refresh_interval d).
Proof.
  revert d. induction calls as [|[force_full partial_ok] calls IH];
    intros d Hd; [cbn; split; [done|lia]|].
  cbn [display_pages].
  pose proof (display_page_interval d force_full partial_ok) as Hi.
  destruct (display_page d force_full partial_ok) as [[d1 trace] used] eqn:Hp.
  cbn [fst] in Hi.
  assert (0 <= page_counter d1 < full_refresh_interval d1 /\
          (EpdClear ∉ trace -> page_counter d1 = page_counter d + 1))
    as [Hd1 Hstep].
  { revert Hp. unfold display_page, check_full_refresh_needed, clear_display.
    destruct (Z.leb_spec (full_refresh_interval d) (page_counter d + 1)); cbn.
    - rewrite orb_true_r. cbn. intros [= <- <- <-]. cbn.
      split; [lia|]. intros Hn. exfalso. apply Hn. set_solver.
    - rewrite orb_false_r.
      destruct (needs_clear d || force_full); cbn.
      + intros [= <- <- <-]. cbn. split; [lia|].
        intros Hn. exfalso. apply Hn. set_solver.
      + destruct (use_partial d), partial_ok; intros [= <- <- <-]; cbn;
          (split; [lia|done]). }
  specialize (IH d1 Hd1).
  destruct (display_pages d1 calls) as [d2 traces]. cbn [fst snd] in *.
  destruct IH as [IH1 IH2]. split; [done|].
  intros Hall. apply Forall_cons in Hall as [Hc Hall].
  specialize (IH2 Hall). rewrite (Hstep Hc) in IH2.
  rewrite Hi in IH2. cbn [length]. lia.
Qed.

Lemma full_refresh_periodic_witness :
  0 <= page_counter new_display < full_refresh_interval new_display /\
  (0 <= page_counter
          (display_pages new_display [(false, true); (false, false)]).1
     < full_refresh_interval
          (display_pages new_display [(false, true); (false, false)]).1) /\
  (Forall (fun trace => EpdClear ∉ trace)
     (display_pages new_display [(false, true); (false, false)]).2 ->
   page_counter new_display + 2 < full_refresh_interval new_display).
Proof.
  split; [by vm_compute|].
  apply (full_refresh_periodic new_display [(false, true); (false, false)]).
  by vm_compute.
Defined.

(** ** What the renderer draws of a page *)

Lemma line_height_font_height (f : font) : line_height f = font_height f + 1.
Proof.
  unfold line_height, font_height.
  by destruct (getbbox f (txt "Hg")) as [[[? ?] ?] ?].
Qed.

Lemma nonblank_cons_line (l : str) (ls : list str) :
  nonblank (l :: ls) = if truthy l then l :: nonblank ls else nonblank ls.
Proof.
  unfold nonblank. rewrite filter_cons. destruct l; cbn; by case_decide.
Qed.

Lemma line_slots_zero fh lh H margin y :
  2 * (H - margin) - 5 * fh < 2 * (y + fh) ->
  line_slots fh lh H margin y = 0%nat.
Proof.
  intros Hlt. unfold line_slots.
  destruct (Z.ltb_spec (2 * (H - margin - y) - 7 * fh) 0); [done|lia].
Qed.

Lemma line_slots_succ fh lh H margin y :
  0 < lh ->
  2 * (y + fh) <= 2 * (H - margin) - 5 * fh ->
  line_slots fh lh H margin y = S (line_slots fh lh H margin (y + lh)).
Proof.
  intros Hlh Hle. unfold line_slots.
  destruct (Z.ltb_spec (2 * (H - margin - y) - 7 * fh) 0); [lia|].
  destruct (Z.ltb_spec (2 * (H - margin - (y + lh)) - 7 * fh) 0).
  - rewrite Z.div_small by lia. done.
  - replace (2 * (H - margin - y) - 7 * fh)
      with ((2 * (H - margin - (y + lh)) - 7 * fh) + 1 * (2 * lh)) by lia.
    rewrite Z.div_add by lia.
    assert (0 <= (2 * (H - margin - (y + lh)) - 7 * fh) / (2 * lh))
      by (apply Z.div_pos; lia).
    lia.
Qed.

(** The loop draws the non-blank lines in order until the room is used
    up. *)
Lemma draw_lines_spec fh lh H margin y (content : list str) :
  0 < lh ->
  (draw_lines fh lh H margin y content).*2
  = take (line_slots fh lh H margin y) (nonblank content).
Proof.
  intros Hlh. revert y. induction content as [|l ls IH]; intros y.
  - unfold nonblank. cbn. by destruct (line_slots _ _ _ _ _).
  - cbn [draw_lines]. rewrite nonblank_cons_line.
    destruct (Z.ltb_spec (2 * (H - margin) - 5 * fh) (2 * (y + fh))).
    + by rewrite line_slots_zero.
    + destruct (truthy l).
      * rewrite line_slots_succ by done. cbn. by rewrite IH.
      * apply IH.
Qed.

(** Each line is drawn one [line_height] below the one before. *)
Lemma draw_lines_ys fh lh H margin y (content : list str) :
  (draw_lines fh lh H margin y content).*1
  = (fun i => y + Z.of_nat i * lh)
      <$> seq 0 (length (draw_lines fh lh H margin y content)).
Proof.
  revert y. induction content as [|l ls IH]; intros y; [done|].
  cbn [draw_lines].
  destruct (2 * (H - margin) - 5 * fh <? 2 * (y + fh)); [done|].
  destruct (truthy l); [|apply IH].
  cbn [length seq fmap list_fmap fst]. f_equal; [lia|].
  rewrite IH, <- fmap_S_seq, <- list_fmap_compose.
  apply list_fmap_ext. intros _ i _. cbn. lia.
Qed.

Lemma py_index_lookup {A} (l : list A) (i : nat) (x : A) :
  l !! i = Some x -> py_index l (Z.of_nat i) = Some x.
Proof.
  intros Hl. unfold py_index.
  destruct (Z.leb_spec 0 (Z.of_nat i)); [|lia]. by rewrite Nat2Z.id.
Qed.

Lemma render_reading_page_lookup (f : font) (H margin : Z)
    (pages : list page) (i : nat) (pg : page) :
  pages !! i = Some pg ->
  render_reading_page f H pages (Z.of_nat i) margin
  = Some {| body := draw_lines (font_height f) (line_height f) H margin
                      margin pg;
            page_info := decimal (Z.of_nat i + 1) ++ txt "/"
                         ++ decimal (Z.of_nat (length pages)) |}.
Proof.
  intros Hl. unfold render_reading_page.
  pose proof (lookup_lt_Some _ _ _ Hl) as Hlt.
  destruct (Z.ltb_spec (Z.of_nat i) (Z.of_nat (length pages))); [|lia].
  rewrite (py_index_lookup _ _ _ Hl).
  destruct (Z.eqb_spec (Z.of_nat (length pages)) 0); [lia|done].
Qed.

Lemma render_reading_page_empty (f : font) (H page_index margin : Z) :
  render_reading_page f H [] page_index margin = None.
Proof.
  unfold render_reading_page, py_index. cbn [length].
  change (Z.of_nat 0) with 0.
  destruct (Z.ltb_spec page_index 0); [|done].
  destruct (Z.leb_spec 0 page_index); [lia|].
  destruct (Z.leb_spec (- 0) page_index); [lia|done].
Qed.

(** X19. [render_reading_page] raises on an empty list of pages, whatever
    the page asked for. For a page of the book it returns; what it draws
    are the first non-blank lines of the page, as many as there is room
    for above the footer, each one [line_height] below the one before,
    starting at the margin; blank lines take no room. *)
Theorem render_draws_what_fits (f : font) (H margin : Z) (pages : list page) :
  0 <= font_height f ->
  (pages = [] ->
   forall page_index, render_reading_page f H pages page_index margin = None)
  /\
  (forall (i : nat) (pg : page),
     pages !! i = Some pg ->
     exists img,
       render_reading_page f H pages (Z.of_nat i) margin = Some img /\
       (body img).*2
       = take (line_slots (font_height f) (line_height f) H margin margin)
           (nonblank pg) /\
       (body img).*1
       = (fun k => margin + Z.of_nat k * line_height f)
           <$> seq 0 (length (body img))).
Proof.
  intros Hfh. split.
  - intros -> page_index. apply render_reading_page_empty.
  - intros i pg Hl. eexists.
    split; [by apply render_reading_page_lookup|].
    cbn [body]. split; [|apply draw_lines_ys].
    apply draw_lines_spec. rewrite line_height_font_height. lia.
Qed.

Lemma render_draws_what_fits_witness :
  (long_pages = [] ->
   forall page_index,
     render_reading_page (mono_font 10 17) 400 long_pages page_index 4 = None)
  /\
  (forall (i : nat) (pg : page),
     long_pages !! i = Some pg ->
     exists img,
       render_reading_page (mono_font 10 17) 400 long_pages (Z.of_nat i) 4
       = Some img /\
       (body img).*2
       = take (line_slots (font_height (mono_font 10 17))
                 (line_height (mono_font 10 17)) 400 4 4)
           (nonblank pg) /\
       (body img).*1
       = (fun k => 4 + Z.of_nat k * line_height (mono_font 10 17))
           <$> seq 0 (length (body img))).
Proof.
  apply (render_draws_what_fits (mono_font 10 17) 400 4 long_pages).
  vm_compute. discriminate.
Defined.

Section Room.

Variables (f : font) (H margin maxl : Z).

Hypothesis Hmax : max_lines_per_page f H margin = Some maxl.
Hypothesis Hmaxl : 1 <= maxl.
Hypothesis Hfh : 0 <= font_height f.

Lemma maxl_bounds :
  2 * line_height f * maxl <= 2 * H - 4 * margin - 3 * line_height f
  /\ (2 * H - 4 * margin - 3 * line_height f) mod (2 * line_height f)
     = 2 * H - 4 * margin - 3 * line_height f - 2 * line_height f * maxl.
Proof.
  revert Hmax. unfold max_lines_per_page.
  pose proof (line_height_font_height f) as Hlh.
  destruct (Z.eqb_spec (line_height f) 0); [lia|]. intros [= Hq].
  assert (0 <= 2 * H - 4 * margin - 3 * line_height f) as Hpos.
  { destruct (Z.le_gt_cases 0 (2 * H - 4 * margin - 3 * line_height f));
      [done|].
    pose proof (Z.quot_opp_l (-(2 * H - 4 * margin - 3 * line_height f))
                  (2 * line_height f)) as Ho.
    rewrite Z.opp_involutive in Ho. rewrite Ho in Hq by lia.
    assert (0 <= - (2 * H - 4 * margin - 3 * line_height f)
                 ÷ (2 * line_height f)) by (apply Z.quot_pos; lia).
    lia. }
  rewrite Z.quot_div_nonneg in Hq by lia.
  pose proof (Z.div_mod (2 * H - 4 * margin - 3 * line_height f)
                (2 * line_height f)) as Hdm.
  pose proof (Z.mod_pos_bound (2 * H - 4 * margin - 3 * line_height f)
                (2 * line_height f)) as Hb.
  rewrite Hq in Hdm. lia.
Qed.

(** The renderer has room for all but one of the lines of a page. *)
Lemma line_slots_lower :
  maxl - 1
  <= Z.of_nat (line_slots (font_height f) (line_height f) H margin margin).
Proof.
  destruct maxl_bounds as [Hle _].
  pose proof (line_height_font_height f) as Hlh.
  unfold line_slots.
  destruct (Z.ltb_spec (2 * (H - margin - margin) - 7 * font_height f) 0).
  - cbn. nia.
  - rewrite Z2Nat.id by (assert (0 <= (2 * (H - margin - margin)
       - 7 * font_height f) / (2 * line_height f)) by (apply Z.div_pos; lia);
       lia).
    assert (maxl - 2 <= (2 * (H - margin - margin) - 7 * font_height f)
                        / (2 * line_height f)); [|lia].
    apply Z.div_le_lower_bound; nia.
Qed.

(** Whether it has room for the last one depends on what is left of the
    height. *)
Lemma line_slots_short :
  (2 * H - 4 * margin - 3 * line_height f) mod (2 * line_height f)
  < 2 * font_height f - 5 ->
  Z.of_nat (line_slots (font_height f) (line_height f) H margin margin)
  = maxl - 1.
Proof.
  intros Hr. destruct maxl_bounds as [Hle Hmod].
  pose proof (line_height_font_height f) as Hlh.
  rewrite Hmod in Hr. unfold line_slots.
  destruct (Z.ltb_spec (2 * (H - margin - margin) - 7 * font_height f) 0).
  - cbn. nia.
  - assert (0 <= (2 * (H - margin - margin) - 7 * font_height f)
                 / (2 * line_height f)) by (apply Z.div_pos; lia).
    rewrite Z2Nat.id by lia.
    assert ((2 * (H - margin - margin) - 7 * font_height f)
            / (2 * line_height f) < maxl - 1); [|
      assert (maxl - 2 <= (2 * (H - margin - margin) - 7 * font_height f)
                          / (2 * line_height f));
      [apply Z.div_le_lower_bound; nia|lia]].
    apply Z.div_lt_upper_bound; nia.
Qed.

Lemma line_slots_enough :
  2 * font_height f - 5
  <= (2 * H - 4 * margin - 3 * line_height f) mod (2 * line_height f) ->
  maxl
  <= Z.of_nat (line_slots (font_height f) (line_height f) H margin margin).
Proof.
  intros Hr. destruct maxl_bounds as [Hle Hmod].
  pose proof (line_height_font_height f) as Hlh.
  rewrite Hmod in Hr. unfold line_slots.
  destruct (Z.ltb_spec (2 * (H - margin - margin) - 7 * font_height f) 0).
  - nia.
  - assert (0 <= (2 * (H - margin - margin) - 7 * font_height f)
                 / (2 * line_height f)) by (apply Z.div_pos; lia).
    rewrite Z2Nat.id by lia.
    assert (maxl - 1 <= (2 * (H - margin - margin) - 7 * font_height f)
                        / (2 * line_height f)); [|lia].
    apply Z.div_le_lower_bound; nia.
Qed.

End Room.

Lemma nonblank_length (ls : list str) :
  (length (nonblank ls) <= length ls)%nat.
Proof. unfold nonblank. apply length_filter. Qed.

(** X20. A page within the height of the paginator is drawn by
    [render_reading_page] except at most its last non-blank line, and
    completely when the height left over by the paginator is at least
    [2 * font_height - 5] half-pixels. *)
Theorem render_loses_at_most_last_line (f : font) (H margin maxl : Z)
    (pages : list page) (i : nat) (pg : page) :
  max_lines_per_page f H margin = Some maxl ->
  1 <= maxl ->
  0 <= font_height f ->
  pages !! i = Some pg ->
  page_fits maxl pg ->
  exists img rest,
    render_reading_page f H pages (Z.of_nat i) margin = Some img /\
    nonblank pg = (body img).*2 ++ rest /\
    (length rest <= 1)%nat /\
    (2 * font_height f - 5
     <= (2 * H - 4 * margin - 3 * line_height f) mod (2 * line_height f) ->
     rest = []).
Proof.
  intros Hmax Hmaxl Hfh Hl Hfit.
  set (slots := line_slots (font_height f) (line_height f) H margin margin).
  exists {| body := draw_lines (font_height f) (line_height f) H margin
                      margin pg;
            page_info := decimal (Z.of_nat i + 1) ++ txt "/"
                         ++ decimal (Z.of_nat (length pages)) |},
         (drop slots (nonblank pg)).
  split; [by apply render_reading_page_lookup|]. cbn [body].
  rewrite draw_lines_spec by (rewrite line_height_font_height; lia).
  fold slots. split; [by rewrite take_drop|].
  pose proof (nonblank_length pg) as Hnb.
  unfold page_fits in Hfit. rewrite length_drop.
  split.
  - pose proof (line_slots_lower f H margin maxl Hmax Hmaxl Hfh). fold slots in H0. lia.
  - intros Hr.
    pose proof (line_slots_enough f H margin maxl Hmax Hmaxl Hfh Hr) as Hs.
    fold slots in Hs. apply nil_length_inv. rewrite length_drop. lia.
Qed.

(** X21. When the paginator leaves less than [2 * font_height - 5]
    half-pixels over, a page filled with non-blank lines is shown without
    its last line. *)
Theorem full_page_loses_last_line (f : font) (H margin maxl : Z)
    (pages : list page) (i : nat) (pg : page) :
  max_lines_per_page f H margin = Some maxl ->
  1 <= maxl ->
  0 <= font_height f ->
  (2 * H - 4 * margin - 3 * line_height f) mod (2 * line_height f)
  < 2 * font_height f - 5 ->
  pages !! i = Some pg ->
  Z.of_nat (length (nonblank pg)) = maxl ->
  exists img line,
    render_reading_page f H pages (Z.of_nat i) margin = Some img /\
    nonblank pg = (body img).*2 ++ [line].
Proof.
  intros Hmax Hmaxl Hfh Hr Hl Hfull.
  set (slots := line_slots (font_height f) (line_height f) H margin margin).
  pose proof (line_slots_short f H margin maxl Hmax Hmaxl Hfh Hr) as Hs.
  fold slots in Hs.
  destruct (drop slots (nonblank pg)) as [|line rest] eqn:Hd.
  { apply (f_equal length) in Hd. rewrite length_drop in Hd. cbn in Hd. lia. }
  destruct rest as [|line' rest].
  2:{ apply (f_equal length) in Hd. rewrite length_drop in Hd.
      cbn in Hd. lia. }
  eexists _, line.
  split; [by apply render_reading_page_lookup|]. cbn [body].
  rewrite draw_lines_spec by (rewrite line_height_font_height; lia).
  fold slots. by rewrite <- Hd, take_drop.
Qed.

Lemma render_loses_at_most_last_line_witness :
  exists img rest,
    render_reading_page (mono_font 10 17) 400 long_pages (Z.of_nat 1) 4 = Some img /\
    nonblank (default [] (long_pages !! 1%nat)) = (body img).*2 ++ rest /\
    (length rest <= 1)%nat /\
    (2 * font_height (mono_font 10 17) - 5
     <= (2 * 400 - 4 * 4 - 3 * line_height (mono_font 10 17))
        mod (2 * line_height (mono_font 10 17)) ->
     rest = []).
Proof.
  apply (render_loses_at_most_last_line (mono_font 10 17) 400 4 20
           long_pages 1 (default [] (long_pages !! 1%nat))).
  - vm_compute. reflexivity.
  - lia.
  - vm_compute. discriminate.
  - vm_compute. reflexivity.
  - vm_compute. discriminate.
Defined.

Lemma full_page_loses_last_line_witness :
  exists img line,
    render_reading_page (mono_font 10 17) 400 long_pages (Z.of_nat 0) 4 = Some img /\
    nonblank (default [] (long_pages !! 0%nat)) = (body img).*2 ++ [line].
Proof.
  apply (full_page_loses_last_line (mono_font 10 17) 400 4 20
           long_pages 0 (default [] (long_pages !! 0%nat))).
  - vm_compute. reflexivity.
  - lia.
  - vm_compute. discriminate.
  - vm_compute. reflexivity.
  - vm_compute. reflexivity.
  - vm_compute. reflexivity.
Defined.

(** ** The menus of the controls *)

Lemma mod_step_range (i n : Z) (d : Z) : 0 < n -> 0 <= (i + d) mod n < n.
Proof. intros. by apply Z.mod_pos_bound. Qed.

Lemma mod_prev_next (i n : Z) :
  0 <= i < n -> ((i - 1) mod n + 1) mod n = i.
Proof.
  intros Hi. destruct (Z.eq_dec i 0) as [->|Hne].
  - replace (0 - 1) with (-1 + 0) by lia.
    replace (-1 + 0) with (n - 1 + (-1) * n) by lia.
    rewrite Z.mod_add by lia. rewrite (Z.mod_small (n - 1)) by lia.
    replace (n - 1 + 1) with n by lia. apply Z.mod_same. lia.
  - rewrite (Z.mod_small (i - 1)) by lia.
    replace (i - 1 + 1) with i by lia. apply Z.mod_small. lia.
Qed.

Lemma mod_next_prev (i n : Z) :
  0 <= i < n -> ((i + 1) mod n - 1) mod n = i.
Proof.
  intros Hi. destruct (Z.eq_dec i (n - 1)) as [->|Hne].
  - replace (n - 1 + 1) with n by lia. rewrite Z.mod_same by lia.
    replace (0 - 1) with (n - 1 + (-1) * n) by lia.
    rewrite Z.mod_add by lia. apply Z.mod_small. lia.
  - rewrite (Z.mod_small (i + 1)) by lia.
    replace (i + 1 - 1) with i by lia. apply Z.mod_small. lia.
Qed.

(** X23. Two presses of the back button lead to the reading page from
    every state of the controls. *)
Theorem back_twice_reads (c : FourButtonControls) :
  exists c', press c [Back; Back] = Some c' /\ current_state c' = READING.
Proof.
  destruct c as [st mi si ci bi bp bm cm].
  destruct st; cbn; try (eexists; split; [reflexivity|done]).
  - unfold _handle_chapter_menu. destruct cm; cbn;
      eexists; (split; [reflexivity|done]).
  - unfold _handle_browser_menu. destruct bm; cbn;
      eexists; (split; [reflexivity|done]).
Qed.

(** X24. In every menu the previous and the next button undo each other,
    as long as the cursor is on an entry of the menu. *)
Theorem prev_next_inverse (c : FourButtonControls) :
  cursor_ok c ->
  press c [Prev; Next] = Some c /\ press c [Next; Prev] = Some c.
Proof.
  destruct c as [st mi si ci bi bp bm cm].
  unfold cursor_ok, in_range. menu_sizes. cbn [current_state menu_index
    submenu_index chapter_menu_index browser_index browser_page browser_menu
    chapter_menu].
  intros Hc. unfold press, _handle_button.
  destruct st; cbn [current_state].
  - done.
  - unfold _handle_main_menu, set_menu_index. cbn -[Z.modulo]. menu_sizes.
    by rewrite mod_prev_next, mod_next_prev.
  - unfold _handle_jump_menu, set_submenu_index. cbn -[Z.modulo]. menu_sizes.
    by rewrite mod_prev_next, mod_next_prev.
  - unfold _handle_chapter_menu, set_chapter_menu_index.
    destruct cm as [|ch cm]; [cbn in Hc; lia|]. cbn -[Z.modulo length].
    by rewrite mod_prev_next, mod_next_prev.
  - unfold _handle_browser_menu, set_browser_page, set_browser_index.
    destruct Hc as [Hi ->].
    destruct bm as [|bk bm]; [cbn in Hi; lia|]. cbn -[Z.modulo Z.div length].
    by rewrite mod_prev_next, mod_next_prev.
  - unfold _handle_sleep_menu, handle_confirm_menu, set_submenu_index.
    cbn -[Z.modulo]. menu_sizes. by rewrite mod_prev_next, mod_next_prev.
  - unfold _handle_shutdown_menu, handle_confirm_menu, set_submenu_index.
    cbn -[Z.modulo]. menu_sizes. by rewrite mod_prev_next, mod_next_prev.
Qed.

Lemma prev_next_inverse_witness :
  press browsing [Prev; Next] = Some browsing /\
  press browsing [Next; Prev] = Some browsing.
Proof.
  apply (prev_next_inverse browsing).
  unfold cursor_ok, in_range. cbn. split; [lia|done].
Defined.

(** ** The rows of the list menus *)

Lemma py_index_nonneg {A} (l : list A) (i : Z) :
  0 <= i -> py_index l i = l !! Z.to_nat i.
Proof. intros Hi. unfold py_index. by destruct (Z.leb_spec 0 i); [|lia]. Qed.

Lemma elem_of_py_range (a b i : Z) : i ∈ py_range a b <-> a <= i < b.
Proof.
  unfold py_range. rewrite list_elem_of_fmap. split.
  - intros (k & -> & Hk). apply elem_of_seq in Hk. lia.
  - intros Hi. exists (Z.to_nat (i - a)). split; [lia|].
    apply elem_of_seq. lia.
Qed.

Lemma mapM_elem_of {A B} (f : A -> option B) (l : list A) (k : list B) :
  mapM f l = Some k ->
  forall y, y ∈ k <-> exists x, x ∈ l /\ f x = Some y.
Proof.
  intros Hm. apply mapM_Some_1 in Hm.
  induction Hm as [|x y l k Hxy Hlk IH]; intros z.
  - split; [by intros ?%elem_of_nil|]. by intros (? & ?%elem_of_nil & _).
  - rewrite elem_of_cons, IH. split.
    + intros [->|(x' & Hin & Hf)].
      * exists x. split; [by left|done].
      * exists x'. split; [by right|done].
    + intros (x' & Hin & Hf). apply elem_of_cons in Hin as [->|Hin].
      * left. congruence.
      * right. eauto.
Qed.

(** The rows of the browser are the entries of the page asked for. *)
Lemma render_browser_menu_window (books : list str) (sel page : Z)
    (rows : list row) (r : row) :
  render_browser_menu books sel page = Some rows ->
  r ∈ rows ->
  6 * page <= row_index r < 6 * page + 6 /\
  row_selected r = (row_index r =? sel).
Proof.
  unfold render_browser_menu. intros Hm Hin.
  apply (mapM_elem_of _ _ _ Hm) in Hin as (i & Hi & Hf).
  apply elem_of_py_range in Hi.
  destruct (py_index books i) as [name|]; [|done].
  cbn in Hf. injection Hf as <-. cbn. lia.
Qed.

Lemma render_browser_menu_shows (books : list str) (sel page i : Z)
    (name : str) :
  0 <= page ->
  6 * page <= i < 6 * page + 6 ->
  books !! Z.to_nat i = Some name ->
  exists rows,
    render_browser_menu books sel page = Some rows /\
    {| row_index := i; row_text := shorten name; row_selected := i =? sel |}
    ∈ rows.
Proof.
  intros Hp Hi Hl. unfold render_browser_menu.
  pose proof (lookup_lt_Some _ _ _ Hl) as Hlt.
  match goal with |- context [mapM ?f ?l] =>
    destruct (mapM f l) as [rows|] eqn:Hm end.
  - exists rows. split; [done|].
    apply (mapM_elem_of _ _ _ Hm). exists i. split.
    + apply elem_of_py_range. lia.
    + rewrite py_index_nonneg by lia. by rewrite Hl.
  - exfalso. apply mapM_None_1, Exists_exists in Hm as (j & Hj & Hf).
    apply elem_of_py_range in Hj.
    rewrite py_index_nonneg in Hf by lia.
    destruct (lookup_lt_is_Some_2 books (Z.to_nat j)) as [nm Hnm]; [lia|].
    by rewrite Hnm in Hf.
Qed.

(** X25. After the previous or the next button in the book browser the
    cursor is on an entry of the list, and [render_browser_menu] for the
    index and the page of the controls shows that entry highlighted. *)
Theorem browser_cursor_shown (c : FourButtonControls) (b : button)
    (long_press : bool) :
  current_state c = BROWSER_MENU ->
  browser_menu c ≠ [] ->
  b = Prev \/ b = Next ->
  exists c' calls rows name,
    _handle_button c b long_press = Some (c', calls) /\
    current_state c' = BROWSER_MENU /\
    browser_menu c' = browser_menu c /\
    browser_menu c !! Z.to_nat (browser_index c') = Some name /\
    0 <= browser_index c' /\
    render_browser_menu (browser_menu c') (browser_index c')
      (browser_page c') = Some rows /\
    {| row_index := browser_index c'; row_text := shorten name;
       row_selected := true |} ∈ rows.
Proof.
  destruct c as [st mi si ci bi bp bm cm]. cbn.
  intros -> Hne Hb. unfold _handle_button, _handle_browser_menu.
  cbn [current_state browser_menu browser_index].
  destruct bm as [|bk bm]; [done|]. cbn [truthy negb].
  set (n := Z.of_nat (length (bk :: bm))).
  assert (0 < n) as Hn by (unfold n; cbn [length]; lia).
  assert (forall d, exists c' calls rows name,
    Some (set_browser_page ((bi + d) mod n / 6)
            (set_browser_index ((bi + d) mod n)
               {| current_state := BROWSER_MENU; menu_index := mi;
                  submenu_index := si; chapter_menu_index := ci;
                  browser_index := bi; browser_page := bp;
                  browser_menu := bk :: bm; chapter_menu := cm |}),
          [state_changed BROWSER_MENU ((bi + d) mod n)])
    = Some (c', calls) /\
    current_state c' = BROWSER_MENU /\
    browser_menu c' = bk :: bm /\
    (bk :: bm) !! Z.to_nat (browser_index c') = Some name /\
    0 <= browser_index c' /\
    render_browser_menu (browser_menu c') (browser_index c')
      (browser_page c') = Some rows /\
    {| row_index := browser_index c'; row_text := shorten name;
       row_selected := true |} ∈ rows) as Hstep.
  { intros d. pose proof (Z.mod_pos_bound (bi + d) n Hn) as Hi.
    set (i := (bi + d) mod n) in *.
    destruct (lookup_lt_is_Some_2 (bk :: bm) (Z.to_nat i)) as [name Hname];
      [unfold n in Hi; lia|].
    destruct (render_browser_menu_shows (bk :: bm) i (i / 6) i name)
      as (rows & Hrows & Hin); [apply Z.div_pos; lia| |done|].
    { pose proof (Z.div_mod i 6). pose proof (Z.mod_pos_bound i 6). lia. }
    rewrite Z.eqb_refl in Hin.
    eexists _, _, rows, name. split; [reflexivity|]. cbn.
    repeat split; try done; lia. }
  destruct Hb as [-> | ->].
  - replace (bi - 1) with (bi + -1) by lia. apply Hstep.
  - apply Hstep.
Qed.

Lemma browser_cursor_shown_witness :
  exists c' calls rows name,
    _handle_button browsing Prev false = Some (c', calls) /\
    current_state c' = BROWSER_MENU /\
    browser_menu c' = browser_menu browsing /\
    browser_menu browsing !! Z.to_nat (browser_index c') = Some name /\
    0 <= browser_index c' /\
    render_browser_menu (browser_menu c') (browser_index c')
      (browser_page c') = Some rows /\
    {| row_index := browser_index c'; row_text := shorten name;
       row_selected := true |} ∈ rows.
Proof.
  apply (browser_cursor_shown browsing Prev false).
  - reflexivity.
  - discriminate.
  - by left.
Defined.

(** X26. Leaving the browser with the back button and opening it again
    from the main menu puts the cursor on the first entry but keeps the
    page of the browser: when that page is not the first one, no row of
    what [render_browser_menu] then shows is highlighted. *)
Theorem browser_reopened_keeps_page (c : FourButtonControls) :
  current_state c = BROWSER_MENU ->
  browser_menu c ≠ [] ->
  exists c',
    press c [Back; Next; Menu] = Some c' /\
    current_state c' = BROWSER_MENU /\
    browser_index c' = 0 /\
    browser_page c' = browser_page c /\
    (browser_page c ≠ 0 ->
     forall rows,
       render_browser_menu (browser_menu c') (browser_index c')
         (browser_page c') = Some rows ->
       Forall (fun r => row_selected r = false) rows).
Proof.
  destruct c as [st mi si ci bi bp bm cm]. cbn [current_state browser_menu
    browser_page].
  intros -> Hne. destruct bm as [|bk bm]; [done|].
  eexists. split; [reflexivity|]. cbn.
  split; [done|]. split; [done|]. split; [done|].
  intros Hp rows Hrows. apply Forall_forall. intros r Hin.
  destruct (render_browser_menu_window _ _ _ _ _ Hrows Hin) as [Hw ->].
  apply Z.eqb_neq. lia.
Qed.

Lemma browser_reopened_keeps_page_witness :
  exists c',
    press (set_browser_page 1 browsing) [Back; Next; Menu] = Some c' /\
    current_state c' = BROWSER_MENU /\
    browser_index c' = 0 /\
    browser_page c' = browser_page (set_browser_page 1 browsing) /\
    (browser_page (set_browser_page 1 browsing) ≠ 0 ->
     forall rows,
       render_browser_menu (browser_menu c') (browser_index c')
         (browser_page c') = Some rows ->
       Forall (fun r => row_selected r = false) rows).
Proof.
  apply (browser_reopened_keeps_page (set_browser_page 1 browsing)).
  - reflexivity.
  - discriminate.
Defined.

(** X28. The back button of a submenu returns to the main menu, with the
    cursor on the entry that opened the submenu for the jump and the
    chapter menu, and on the entry above it for the browser, the sleep
    and the shutdown menu. *)
Theorem back_returns_above_entry (c c1 : FourButtonControls) :
  current_state c = MAIN_MENU ->
  in_range (menu_index c) config.MAIN_MENU ->
  browser_menu c ≠ [] ->
  press c [Menu] = Some c1 ->
  current_state c1 ≠ MAIN_MENU ->
  current_state c1 ≠ READING ->
  exists c2,
    press c1 [Back] = Some c2 /\
    current_state c2 = MAIN_MENU /\
    menu_index c2
    = if menu_index c <=? 2 then menu_index c else menu_index c - 1.
Proof.
  destruct c as [st mi si ci bi bp bm cm]. unfold in_range. menu_sizes. cbn.
  intros -> Hi Hbm. destruct bm as [|bk bm]; [done|].
  unfold _handle_button. cbn [current_state].
  split_index mi; cbn.
  - intros [= <-]. done.
  - intros [= <-] _ _. eexists. split; [reflexivity|done].
  - destruct cm as [|ch cm]; cbn; intros [= <-]; [done|]. intros _ _.
    eexists. split; [reflexivity|done].
  - intros [= <-]. done.
  - intros [= <-] _ _. eexists. split; [reflexivity|done].
  - intros [= <-] _ _. eexists. split; [reflexivity|done].
  - intros [= <-] _ _. eexists. split; [reflexivity|done].
Qed.

Lemma back_returns_above_entry_witness :
  exists c2,
    press (set_browser_index 0
             (set_current_state BROWSER_MENU
                (set_menu_index 4 (set_current_state MAIN_MENU browsing))))
      [Back] = Some c2 /\
    current_state c2 = MAIN_MENU /\
    menu_index c2
    = if menu_index (set_menu_index 4 (set_current_state MAIN_MENU browsing))
         <=? 2
      then menu_index (set_menu_index 4 (set_current_state MAIN_MENU browsing))
      else menu_index (set_menu_index 4 (set_current_state MAIN_MENU browsing))
           - 1.
Proof.
  apply (back_returns_above_entry
           (set_menu_index 4 (set_current_state MAIN_MENU browsing))).
  - reflexivity.
  - unfold in_range. cbn. lia.
  - discriminate.
  - reflexivity.
  - discriminate.
  - discriminate.
Defined.

(** ** The callbacks of the reader *)

Lemma show_keeps (r r' : reader) (img : screen) (force_full partial_ok used : bool) :
  show r img force_full partial_ok = (r', used) ->
  sys r' = sys r /\ controls r' = controls r /\
  bookmark_manager r' = bookmark_manager r /\
  shown r' = shown r ++ [img] /\
  display r' = (display_page (display r) force_full partial_ok).1.1 /\
  panel r'
  = panel r ++ (display_page (display r) force_full partial_ok).1.2.
Proof.
  unfold show.
  destruct (display_page (display r) force_full partial_ok) as [[d tr] u].
  by intros [= <- <-].
Qed.

(** With [needs_clear] set the panel is cleared before the image is
    shown. *)
Lemma display_page_needs_clear (d : EReaderDisplay) (force_full partial_ok : bool) :
  needs_clear d = true ->
  (display_page d force_full partial_ok).1.2 = [EpdInit; EpdClear; EpdDisplay].
Proof.
  intros Hn. unfold display_page, check_full_refresh_needed, clear_display.
  destruct (full_refresh_interval d <=? page_counter d + 1); cbn;
    by rewrite Hn.
Qed.

Lemma render_current_state_keeps (f : font) (r r' : reader)
    (force_full partial_ok used : bool) :
  render_current_state f r force_full partial_ok = Some (r', used) ->
  sys r' = sys r /\ controls r' = controls r /\
  bookmark_manager r' = bookmark_manager r /\
  display r' = (display_page (display r) force_full partial_ok).1.1 /\
  panel r'
  = panel r ++ (display_page (display r) force_full partial_ok).1.2 /\
  exists img, shown r' = shown r ++ [img].
Proof.
  unfold render_current_state. intros Hr.
  apply bind_Some in Hr as (img & _ & [= Hshow]).
  apply show_keeps in Hshow as (? & ? & ? & ? & ? & ?). eauto 10.
Qed.

Lemma on_page_change_moved (f : font) (r r1 : reader) (delta : Z)
    (partial_ok : bool) :
  on_page_change f r delta partial_ok = Some r1 ->
  current_page (app (sys r1)) ≠ current_page (app (sys r)) ->
  let n := current_page (app (sys r1)) in
  let r0 :=
    {| sys := set_current_page n (sys r);
       display := if 3 <? Z.abs (n - current_page (app (sys r)))
                  then set_needs_clear (display r) else display r;
       controls := controls r; bookmark_manager := bookmark_manager r;
       panel := panel r; shown := shown r |} in
  n = Z.max 0 (Z.min (current_page (app (sys r)) + delta)
                 (Z.of_nat (length (pages (app (sys r)))) - 1)) /\
  0 <= n < Z.of_nat (length (pages (app (sys r)))) /\
  exists r2 used,
    render_current_state f r0 false partial_ok = Some (r2, used) /\
    r1 = {| sys := sys r2; display := display r2; controls := controls r2;
            bookmark_manager :=
              save_bookmark_async (bookmark_manager r2)
                (book_path (app (sys r))) (n + 1);
            panel := panel r2; shown := shown r2 |}.
Proof.
  unfold on_page_change.
  destruct (pages (app (sys r))) as [|pg pgs] eqn:Hpages;
    cbn [truthy negb]; [by intros [= <-]|].
  set (len := Z.of_nat (length (pg :: pgs))).
  assert (0 < len) as Hlen by (unfold len; cbn [length]; lia).
  set (new_page := Z.max 0 (Z.min (current_page (app (sys r)) + delta)
                              (len - 1))).
  destruct (Z.eqb_spec new_page (current_page (app (sys r))));
    [by intros [= <-]|].
  destruct (render_current_state f _ false partial_ok) as [[r2 used]|] eqn:Hr;
    [|done].
  cbn. intros [= <-] _. cbn.
  assert (sys r2 = set_current_page new_page (sys r)) as Hsys.
  { by apply render_current_state_keeps in Hr as (-> & _). }
  rewrite Hsys. cbn. fold new_page.
  split; [done|]. split; [lia|].
  exists r2, used. split; [|by rewrite Hsys].
  rewrite <- Hr. done.
Qed.

Lemma render_reading_page_in_range (f : font) (H margin n : Z)
    (pages : list page) :
  0 <= n < Z.of_nat (length pages) ->
  exists pg,
    pages !! Z.to_nat n = Some pg /\
    render_reading_page f H pages n margin
    = Some {| body := draw_lines (font_height f) (line_height f) H margin
                        margin pg;
              page_info := decimal (n + 1) ++ txt "/"
                           ++ decimal (Z.of_nat (length pages)) |}.
Proof.
  intros Hn.
  destruct (lookup_lt_is_Some_2 pages (Z.to_nat n)) as [pg Hpg]; [lia|].
  exists pg. split; [done|].
  pose proof (render_reading_page_lookup f H margin pages _ pg Hpg) as Hr.
  by rewrite Z2Nat.id in Hr by lia.
Qed.

(** X29. [on_page_change] keeps the page inside the book: with pages to
    show, the page afterwards is the page asked for cut to the first or
    the last page. When that is the page already shown nothing happens;
    otherwise the new page is rendered, the panel is cleared first for a
    move of more than three pages, and a save of the bookmark for the new
    page, counted from one, is started. *)
Theorem page_change_clamped (f : font) (r : reader) (delta : Z)
    (partial_ok : bool) :
  pages (app (sys r)) ≠ [] ->
  current_state (controls r) = READING \/
  current_state (controls r) = JUMP_MENU ->
  exists r',
    on_page_change f r delta partial_ok = Some r' /\
    pages (app (sys r')) = pages (app (sys r)) /\
    0 <= current_page (app (sys r'))
      < Z.of_nat (length (pages (app (sys r)))) /\
    (0 <= current_page (app (sys r)) + delta
       < Z.of_nat (length (pages (app (sys r)))) ->
     current_page (app (sys r')) = current_page (app (sys r)) + delta) /\
    (current_page (app (sys r')) = current_page (app (sys r)) -> r' = r) /\
    (current_page (app (sys r')) ≠ current_page (app (sys r)) ->
     bookmark_manager r'
     = save_bookmark_async (bookmark_manager r) (book_path (app (sys r)))
         (current_page (app (sys r')) + 1) /\
     (3 < Z.abs (current_page (app (sys r')) - current_page (app (sys r))) ->
      panel r' = panel r ++ [EpdInit; EpdClear; EpdDisplay]) /\
     (current_state (controls r) = READING ->
      exists img,
        render_reading_page f DISPLAY_HEIGHT (pages (app (sys r)))
          (current_page (app (sys r'))) DISPLAY_MARGIN = Some img /\
        shown r' = shown r ++ [reading_screen img])).
Proof.
  intros Hpages Hstate. unfold on_page_change.
  destruct (pages (app (sys r))) as [|pg pgs] eqn:Hp; [done|].
  cbn [truthy negb].
  set (len := Z.of_nat (length (pg :: pgs))).
  assert (0 < len) as Hlen by (unfold len; cbn [length]; lia).
  set (new_page := Z.max 0 (Z.min (current_page (app (sys r)) + delta)
                              (len - 1))).
  assert (0 <= new_page < len) as Hnew by (unfold new_page; lia).
  destruct (Z.eqb_spec new_page (current_page (app (sys r)))) as [He|Hne].
  { exists r. rewrite Hp. fold len. rewrite <- He.
    repeat split; try done; lia. }
  set (d := if 3 <? Z.abs (new_page - current_page (app (sys r)))
            then set_needs_clear (display r) else display r).
  set (r1 := {| sys := set_current_page new_page (sys r); display := d;
                controls := controls r;
                bookmark_manager := bookmark_manager r;
                panel := panel r; shown := shown r |}).
  destruct (render_reading_page_in_range f DISPLAY_HEIGHT DISPLAY_MARGIN
              new_page (pg :: pgs) Hnew) as (pg' & Hpg' & Hrender).
  assert (exists img,
    render_current_state f r1 false partial_ok
    = Some (show r1 img false partial_ok) /\
    (current_state (controls r) = READING ->
     exists im, render_reading_page f DISPLAY_HEIGHT (pg :: pgs) new_page
                  DISPLAY_MARGIN = Some im /\ img = reading_screen im))
    as (img & Hr & Himg).
  { unfold render_current_state. cbn [controls r1 sys app set_current_page
      pages current_page]. rewrite Hp.
    destruct Hstate as [-> | ->].
    - rewrite Hrender. eexists. split; [reflexivity|]. eauto.
    - eexists. split; [reflexivity|]. done. }
  rewrite Hr. cbn [mbind option_bind].
  destruct (show r1 img false partial_ok) as [r2 used] eqn:Hshow.
  apply show_keeps in Hshow as (Hsys & Hc & Hb & Hsh & Hd & Hpn).
  eexists. split; [reflexivity|]. cbn [sys bookmark_manager panel shown].
  rewrite Hsys. cbn [r1 sys set_current_page app pages current_page].
  rewrite Hp. fold len.
  split; [done|]. split; [done|].
  split; [unfold new_page; lia|]. split; [done|]. intros _.
  split; [by rewrite Hb|]. split.
  - intros Hfar. rewrite Hpn. cbn [r1 panel display]. f_equal.
    apply display_page_needs_clear. unfold d.
    destruct (Z.ltb_spec 3 (Z.abs (new_page - current_page (app (sys r)))));
      [done|lia].
  - intros Hreading. destruct (Himg Hreading) as (im & Him & ->).
    exists im. split; [done|]. by rewrite Hsh.
Qed.

Lemma page_change_clamped_witness :
  exists r',
    on_page_change (mono_font 10 17) reading_moby 10 true = Some r' /\
    pages (app (sys r')) = pages (app (sys reading_moby)) /\
    0 <= current_page (app (sys r'))
      < Z.of_nat (length (pages (app (sys reading_moby)))) /\
    (0 <= current_page (app (sys reading_moby)) + 10
       < Z.of_nat (length (pages (app (sys reading_moby)))) ->
     current_page (app (sys r')) = current_page (app (sys reading_moby)) + 10)
    /\
    (current_page (app (sys r')) = current_page (app (sys reading_moby)) ->
     r' = reading_moby) /\
    (current_page (app (sys r')) ≠ current_page (app (sys reading_moby)) ->
     bookmark_manager r'
     = save_bookmark_async (bookmark_manager reading_moby)
         (book_path (app (sys reading_moby)))
         (current_page (app (sys r')) + 1) /\
     (3 < Z.abs (current_page (app (sys r'))
                 - current_page (app (sys reading_moby))) ->
      panel r' = panel reading_moby ++ [EpdInit; EpdClear; EpdDisplay]) /\
     (current_state (controls reading_moby) = READING ->
      exists img,
        render_reading_page (mono_font 10 17) DISPLAY_HEIGHT
          (pages (app (sys reading_moby)))
          (current_page (app (sys r'))) DISPLAY_MARGIN = Some img /\
        shown r' = shown reading_moby ++ [reading_screen img])).
Proof.
  apply (page_change_clamped (mono_font 10 17) reading_moby 10 true).
  - discriminate.
  - by left.
Defined.

Lemma extract_text_fast_stat (w : world) (f : font) (path : str)
    (fs : gmap str cache_blob) (o : opened) :
  extract_text_fast w f path fs = Some o -> is_Some (os_stat w path).
Proof.
  unfold extract_text_fast. destruct (os_stat w path); [eauto|done].
Qed.

(** X30. The position survives a restart: when [on_page_change] has moved
    to a page and the save it started has run, [load_book] for the same
    path in a new process, with the bookmark files as they were left and
    nothing in memory, opens the book at that page, provided the book
    still has that many pages. *)
Theorem position_survives_restart (w : world) (abspath : str -> str)
    (f : font) (r r1 r0 : reader) (delta : Z) (partial_ok partial_ok' : bool)
    (last_book : str) (o : opened) :
  on_page_change f r delta partial_ok = Some r1 ->
  current_page (app (sys r1)) ≠ current_page (app (sys r)) ->
  pending (bookmark_manager r) = [] ->
  book_path (app (sys r)) ≠ [] ->
  bookmark_dir (manager (bookmark_manager r0))
  = bookmark_dir (manager (bookmark_manager r)) ->
  _cache (manager (bookmark_manager r0)) = ∅ ->
  files (bookmark_manager r0)
  = files (run_save 0 WriteOk (bookmark_manager r1)) ->
  current_state (controls r0) = READING ->
  extract_text_fast w f (book_path (app (sys r))) (cache (sys r0)) = Some o ->
  current_page (app (sys r1)) < Z.of_nat (length (o_pages o)) ->
  exists r2,
    load_book w abspath f r0 (book_path (app (sys r))) last_book partial_ok'
    = Some (r2, true) /\
    pages (app (sys r2)) = o_pages o /\
    current_page (app (sys r2)) = current_page (app (sys r1)).
Proof.
  intros Hchange Hmoved Hpending Hpath Hdir Hcache Hfiles Hstate Hopen Hlen.
  destruct (on_page_change_moved f r r1 delta partial_ok Hchange Hmoved)
    as (_ & Hn & r' & used & Hrender & Hr1).
  set (n := current_page (app (sys r1))) in *.
  set (path := book_path (app (sys r))) in *.
  apply render_current_state_keeps in Hrender as (_ & _ & Hbm & _).
  cbn [bookmark_manager] in Hbm.
  assert (files (bookmark_manager r0)
          !! get_bookmark_path (manager (bookmark_manager r0)) path
          = Some (BookmarkJson (Some path) (Some (n + 1)))) as Hfile.
  { rewrite Hfiles, Hr1. cbn [bookmark_manager]. rewrite Hbm.
    unfold run_save, save_bookmark_async. cbn [pending manager files].
    rewrite Hpending. cbn.
    rewrite (get_bookmark_path_dir _ _ path Hdir).
    apply lookup_insert_eq. }
  unfold load_book.
  destruct path as [|c path'] eqn:Hp; [done|]. cbn [truthy negb].
  rewrite <- Hp in *.
  destruct (extract_text_fast_stat _ _ _ _ _ Hopen) as [st Hst].
  rewrite bool_decide_eq_true_2 by eauto. cbn [negb].
  rewrite Hopen. cbn [mbind option_bind].
  unfold load_bookmark. rewrite Hcache, lookup_empty, Hfile.
  rewrite bool_decide_eq_true_2 by done.
  destruct (init_display (display r0)) as [d1 init_calls].
  destruct (clear_display d1) as [d2 clear_calls].
  replace (n + 1 - 1) with n by lia.
  replace (Z.max 0 (Z.min n (Z.of_nat (length (o_pages o)) - 1))) with n
    by lia.
  destruct (render_reading_page_in_range f DISPLAY_HEIGHT DISPLAY_MARGIN n
              (o_pages o)) as (pg & _ & Hpage); [lia|].
  unfold render_current_state.
  cbn [controls set_chapters current_state sys app pages current_page].
  rewrite Hstate, Hpage. cbn [fmap option_fmap option_map mbind option_bind].
  match goal with |- context [show ?a ?b ?c ?d] =>
    destruct (show a b c d) as [r2 u] eqn:Hshow end.
  apply show_keeps in Hshow as (Hsys & _).
  exists r2. split; [done|]. by rewrite Hsys.
Qed.

Lemma position_survives_restart_witness :
  exists r2,
    load_book moby_world id (mono_font 10 17) restarted_moby
      (book_path (app (sys reading_moby))) [] true
    = Some (r2, true) /\
    pages (app (sys r2)) = o_pages reopened_moby /\
    current_page (app (sys r2)) = current_page (app (sys moved_moby)).
Proof.
  apply (position_survives_restart moby_world id (mono_font 10 17)
           reading_moby moved_moby restarted_moby 2 true true []
           reopened_moby).
  - vm_compute. reflexivity.
  - vm_compute. discriminate.
  - reflexivity.
  - vm_compute. discriminate.
  - reflexivity.
  - reflexivity.
  - reflexivity.
  - reflexivity.
  - vm_compute. reflexivity.
  - vm_compute. reflexivity.
Defined.

(** ** The reading position when the full page set arrives *)

Lemma take_completion_found (s : system) (c : completion)
    (rest : list completion) :
  queue s = c :: rest ->
  c_book_path c = book_path (app s) ->
  take_completion s
  = ({| app := {| current_page :=
                    (if Z.of_nat (length (c_pages c)) <=? current_page (app s)
                     then Z.of_nat (length (c_pages c)) - 1
                     else current_page (app s));
                  pages := c_pages c;
                  book_path := book_path (app s);
                  chapters := c_chapters c |};
        cache := cache s; queue := rest; threads := threads s |}, true).
Proof.
  intros Hq Hp. unfold take_completion. rewrite Hq.
  cbn [check_processing_complete]. by rewrite bool_decide_eq_true_2.
Qed.






(** A completion without pages (the full pass of a book without text)
    makes the call raise in the reading state: the page index becomes -1
    and [render_reading_page] is asked for a page of an empty list. *)
Lemma promotion_without_pages_raises (f : font) (r : reader) (c : completion)
    (rest : list completion) (partial_ok : bool) :
  queue (sys r) = c :: rest ->
  c_book_path c = book_path (app (sys r)) ->
  c_pages c = [] ->
  current_state (controls r) = READING ->
  check_background_processing f r partial_ok = None.
Proof.
  intros Hq Hp Hpages Hst. unfold check_background_processing.
  rewrite (take_completion_found _ _ _ Hq Hp), Hpages.
  unfold render_current_state. cbn [controls set_chapters current_state].
  rewrite Hst. cbn [sys app pages].
  by rewrite render_reading_page_empty.
Qed.

(** A completion for another book is consumed and changes nothing else. *)
Lemma completion_for_other_book (f : font) (r : reader) (c : completion)
    (rest : list completion) (partial_ok : bool) :
  queue (sys r) = c :: rest ->
  c_book_path c ≠ book_path (app (sys r)) ->
  check_background_processing f r partial_ok
  = Some ({| sys := {| app := app (sys r); cache := cache (sys r);
                       queue := rest; threads := threads (sys r) |};
             display := display r; controls := controls r;
             bookmark_manager := bookmark_manager r;
             panel := panel r; shown := shown r |}, false).
Proof.
  intros Hq Hp. unfold check_background_processing, take_completion.
  rewrite Hq. cbn [check_processing_complete].
  by rewrite bool_decide_eq_false_2.
Qed.

(** ** The handlers with their callbacks *)

(** The summary of a handler is its steps read with callbacks that return
    and leave the controls alone. *)
Lemma handle_button_summary (c : FourButtonControls) (b : button)
    (long_press : bool) :
  _handle_button c b long_press
  = (fun steps => summary steps c) <$> _handle_button_steps c b long_press.
Proof.
  unfold _handle_button, _handle_button_steps.
  destruct (current_state c) eqn:Hst.
  - by destruct b.
  - unfold _handle_main_menu, _handle_main_menu_steps.
    destruct b; try done.
    destruct (py_index config.MAIN_MENU (menu_index c)); [|done].
    repeat (match goal with
            | |- context [if ?x then _ else _] => destruct x
            end; try done).
  - unfold _handle_jump_menu, _handle_jump_menu_steps.
    destruct b; try done.
    destruct (py_index config.JUMP_MENU (submenu_index c)) as [sel|]; [|done].
    destruct (str_eqb sel (txt "Back")); [done|].
    destruct sel as [|ch sel]; [done|].
    destruct (bool_decide (ch = "+"%char)).
    { by destruct (jump_amount (ch :: sel)). }
    destruct (bool_decide (ch = "-"%char)); [|done].
    by destruct (jump_amount (ch :: sel)).
  - unfold _handle_chapter_menu, _handle_chapter_menu_steps.
    destruct (truthy (chapter_menu c)); [|done]. by destruct b.
  - unfold _handle_browser_menu, _handle_browser_menu_steps.
    destruct (truthy (browser_menu c)); [|done]. destruct b; try done.
    cbn -[Z.of_nat].
    repeat (match goal with
            | |- context [if ?x then _ else _] => destruct x
            end; try done).
  - unfold _handle_sleep_menu, handle_confirm_menu, handle_confirm_menu_steps.
    destruct b; try done.
    destruct (py_index config.SLEEP_MENU (submenu_index c)); [|done].
    repeat (match goal with
            | |- context [if ?x then _ else _] => destruct x
            end; try done).
  - unfold _handle_shutdown_menu, handle_confirm_menu,
      handle_confirm_menu_steps.
    destruct b; try done.
    destruct (py_index config.SHUTDOWN_MENU (submenu_index c)); [|done].
    repeat (match goal with
            | |- context [if ?x then _ else _] => destruct x
            end; try done).
Qed.

Section Program.

Context {St : Type} (p : program St).

Hypothesis Hlens : forall c s, controls_of p (with_controls p c s) = c.
Hypothesis Hkeep :
  forall cb s s', run_callback p cb s = Some s' ->
    controls_ok (controls_of p s) -> controls_ok (controls_of p s').

Lemma run_steps_keep_ok (steps : list step) (s s' : St) :
  steps_keep_ok steps ->
  controls_ok (controls_of p s) ->
  run_steps p steps s = Some s' ->
  controls_ok (controls_of p s').
Proof.
  revert s. induction steps as [|[f|cb] steps IH]; intros s Hsteps Hok Hrun.
  - by injection Hrun as <-.
  - apply Forall_cons in Hsteps as [Hf Hsteps]. cbn [run_steps] in Hrun.
    apply (IH _ Hsteps) in Hrun; [done|]. rewrite Hlens. by apply Hf.
  - apply Forall_cons in Hsteps as [_ Hsteps]. cbn [run_steps] in Hrun.
    destruct (run_callback p cb s) as [s1|] eqn:Hcb; [|done].
    apply (IH _ Hsteps) in Hrun; [done|]. by apply (Hkeep cb s).
Qed.

Lemma run_steps_keep_ok_from (steps : list step) (s s' : St) :
  steps_keep_ok_from (controls_of p s) steps ->
  controls_ok (controls_of p s) ->
  run_steps p steps s = Some s' ->
  controls_ok (controls_of p s').
Proof.
  destruct steps as [|[f|cb] steps]; intros Hsteps Hok Hrun.
  - by injection Hrun as <-.
  - destruct Hsteps as [Hf Hsteps]. cbn [run_steps] in Hrun.
    apply (run_steps_keep_ok _ _ _ Hsteps) in Hrun; [done|].
    by rewrite Hlens.
  - by apply (run_steps_keep_ok _ _ _ Hsteps Hok).
Qed.

End Program.

(** With the indices inside their menus the handler has steps, and its
    assignments keep the indices inside. *)
Lemma handle_button_steps_ok (c : FourButtonControls) (b : button)
    (long_press : bool) :
  controls_ok c ->
  exists steps,
    _handle_button_steps c b long_press = Some steps /\
    steps_keep_ok_from c steps.
Proof.
  destruct c as [st mi si ci bi bp bm cm].
  unfold controls_ok, in_range, _handle_button_steps. menu_sizes. cbn.
  intros [Hm Hs].
  destruct st.
  - destruct b; cbn; eexists; (split; [reflexivity|]); keep_ok.
  - destruct b; cbn -[py_index Z.modulo]; menu_sizes.
    + eexists. split; [reflexivity|]. keep_ok.
    + eexists. split; [reflexivity|]. keep_ok.
    + split_index mi; cbn; try destruct (truthy cm); cbn;
        eexists; (split; [reflexivity|]); keep_ok.
    + eexists. split; [reflexivity|]. keep_ok.
  - destruct b; cbn -[py_index Z.modulo]; menu_sizes.
    + eexists. split; [reflexivity|]. keep_ok.
    + eexists. split; [reflexivity|]. keep_ok.
    + split_index si; cbn; eexists; (split; [reflexivity|]); keep_ok.
    + eexists. split; [reflexivity|]. keep_ok.
  - unfold _handle_chapter_menu_steps. cbn -[Z.modulo].
    destruct cm as [|ch cm]; cbn -[Z.modulo].
    + eexists. split; [reflexivity|]. keep_ok.
    + destruct b; eexists; (split; [reflexivity|]); keep_ok.
  - unfold _handle_browser_menu_steps. cbn -[Z.modulo Z.div].
    destruct bm as [|bk bm]; cbn -[Z.modulo Z.div].
    + eexists. split; [reflexivity|]. keep_ok.
    + destruct b; cbn -[Z.modulo Z.div];
        repeat match goal with
               | |- context [if ?x then _ else _] => destruct x
               end;
        eexists; (split; [reflexivity|]); keep_ok.
  - unfold handle_confirm_menu_steps.
    destruct b; cbn -[py_index Z.modulo]; menu_sizes.
    + eexists. split; [reflexivity|]. keep_ok.
    + eexists. split; [reflexivity|]. keep_ok.
    + split_index si; cbn; eexists; (split; [reflexivity|]); keep_ok.
    + eexists. split; [reflexivity|]. keep_ok.
  - unfold handle_confirm_menu_steps.
    destruct b; cbn -[py_index Z.modulo]; menu_sizes.
    + eexists. split; [reflexivity|]. keep_ok.
    + eexists. split; [reflexivity|]. keep_ok.
    + split_index si; cbn; eexists; (split; [reflexivity|]); keep_ok.
    + eexists. split; [reflexivity|]. keep_ok.
Qed.

(** X22. No handler raises on its own account: as long as the index of
    the open menu is inside it, indexing the menu and converting a jump
    entry succeed for every button, so that a press ends with the handler
    returning or with an exception or exit of a callback, never with an
    exception of the handler. When the callbacks keep the indices inside
    their menus, the indices are inside their menus after the press. *)
Theorem handle_button_safe {St : Type} (p : program St) (s : St) (b : button)
    (long_press : bool) :
  (forall c s, controls_of p (with_controls p c s) = c) ->
  (forall cb s s', run_callback p cb s = Some s' ->
     controls_ok (controls_of p s) -> controls_ok (controls_of p s')) ->
  controls_ok (controls_of p s) ->
  button_pressed p s b long_press ≠ HandlerRaises /\
  (forall s', button_pressed p s b long_press = Returns s' ->
     controls_ok (controls_of p s')).
Proof.
  intros Hlens Hkeep Hok. unfold button_pressed.
  destruct (handle_button_steps_ok _ b long_press Hok) as (steps & -> & Hsteps).
  destruct (run_steps p steps s) as [s1|] eqn:Hrun.
  - split; [done|]. intros s' [= <-].
    by apply (run_steps_keep_ok_from p Hlens Hkeep steps s).
  - split; [done|]. done.
Qed.

Lemma handle_button_safe_witness :
  button_pressed bare_program
    (set_submenu_index 0 (set_current_state SHUTDOWN_CONFIRM new_controls))
    Menu false ≠ HandlerRaises /\
  (forall s',
     button_pressed bare_program
       (set_submenu_index 0 (set_current_state SHUTDOWN_CONFIRM new_controls))
       Menu false = Returns s' ->
     controls_ok (controls_of bare_program s')).
Proof.
  apply (handle_button_safe bare_program
           (set_submenu_index 0
              (set_current_state SHUTDOWN_CONFIRM new_controls)) Menu false).
  - reflexivity.
  - intros cb s s' Hcb Hok. unfold bare_program in Hcb.
    cbn [run_callback] in Hcb.
    destruct cb; repeat case_match; by simplify_eq.
  - unfold controls_ok, in_range. cbn. lia.
Defined.

(** X27. With the browser list of [set_books], the menu button on an
    entry other than the first does nothing but call [book_select], with
    the index of the highlighted name among the books, which is an index
    of that list: the handler assigns nothing, and the press ends as the
    callback ends. *)
Theorem book_select_under_cursor {St : Type} (p : program St) (s : St)
    (books : list str) (long_press : bool) :
  current_state (controls_of p s) = BROWSER_MENU ->
  browser_menu (controls_of p s) = txt "Back to Reading" :: books ->
  in_range (browser_index (controls_of p s)) (browser_menu (controls_of p s)) ->
  browser_index (controls_of p s) ≠ 0 ->
  exists book_index,
    _handle_button_steps (controls_of p s) Menu long_press
    = Some [Call (book_select book_index)] /\
    button_pressed p s Menu long_press
    = match run_callback p (book_select book_index) s with
      | Some s' => Returns s'
      | None => CallbackRaises
      end /\
    0 <= book_index < Z.of_nat (length books) /\
    books !! Z.to_nat book_index
    = browser_menu (controls_of p s)
        !! Z.to_nat (browser_index (controls_of p s)).
Proof.
  unfold in_range. intros Hst Hbm Hi Hne.
  exists (browser_index (controls_of p s) - 1).
  assert (_handle_button_steps (controls_of p s) Menu long_press
          = Some [Call (book_select (browser_index (controls_of p s) - 1))])
    as Hsteps.
  { unfold _handle_button_steps, _handle_browser_menu_steps.
    rewrite Hst, Hbm. cbn [truthy negb]. rewrite Hbm in Hi.
    cbn [length] in *.
    destruct (Z.eqb_spec (browser_index (controls_of p s)) 0); [done|].
    destruct (Z.ltb_spec (browser_index (controls_of p s) - 1)
                (Z.of_nat (S (length books)) - 1)); [done|lia]. }
  split; [done|]. unfold button_pressed. rewrite Hsteps. cbn [run_steps].
  split; [by destruct (run_callback p _ s)|].
  rewrite Hbm in *. cbn [length] in Hi. split; [lia|].
  replace (Z.to_nat (browser_index (controls_of p s)))
    with (S (Z.to_nat (browser_index (controls_of p s) - 1)))
    by lia.
  done.
Qed.

Lemma book_select_under_cursor_witness :
  exists book_index,
    _handle_button_steps
      (controls_of bare_program (set_browser_index 2 browsing)) Menu false
    = Some [Call (book_select book_index)] /\
    button_pressed bare_program (set_browser_index 2 browsing) Menu false
    = match run_callback bare_program (book_select book_index)
              (set_browser_index 2 browsing) with
      | Some s' => Returns s'
      | None => CallbackRaises
      end /\
    0 <= book_index < Z.of_nat (length [txt "a.epub"; txt "b.epub"]) /\
    [txt "a.epub"; txt "b.epub"] !! Z.to_nat book_index
    = browser_menu (controls_of bare_program (set_browser_index 2 browsing))
        !! Z.to_nat
             (browser_index
                (controls_of bare_program (set_browser_index 2 browsing))).
Proof.
  apply (book_select_under_cursor bare_program (set_browser_index 2 browsing)
           [txt "a.epub"; txt "b.epub"] false).
  - reflexivity.
  - reflexivity.
  - unfold in_range. cbn. lia.
  - discriminate.
Defined.
